(** * rag-hq: a shallow embedding of the ingestion and retrieval helpers

    The development follows the JavaScript sources:
    - [RAGService] (getOptimalTopK, analyzeQuery, cleanSourceName,
      processSubtitleContent, processFile, processText, listDocuments,
      getCollectionStats, deleteDocument, the Qdrant Cloud connection,
      processBulkDocuments),
    - the manifest scripts [checkStatus] and [clearErrors] with their SQL.

    JavaScript strings are sequences of UTF-16 code units, JavaScript numbers
    are IEEE-754 doubles (primitive floats), exceptions are an explicit
    [Throw] result, and the module-level clients are explicit collaborators. *)

From Stdlib Require Import ZArith List String Ascii Lia Floats Uint63 DecimalString.
From stdpp Require Import base list gmap.

Set Default Proof Using "Type".

(* ===================================================================== *)
(** ** JavaScript strings and numbers *)
(* ===================================================================== *)

Module JS.

(** A string is the list of its UTF-16 code units. *)
Abbreviation jsstring := (list N).

(** An ASCII literal of the source, as code units. *)
Definition lit (s : string) : jsstring :=
  map N_of_ascii (list_ascii_of_string s).

Definition str_eqb (a b : jsstring) : bool := bool_decide (a = b).

(** [`${n}`] for a non-negative integer. *)
Definition show_nat (n : nat) : jsstring :=
  lit (NilZero.string_of_uint (Nat.to_uint n)).

(** Character classes of the regular expressions in the source. *)
Definition is_upper (c : N) : bool := ((65 <=? c) && (c <=? 90))%N.
Definition is_lower (c : N) : bool := ((97 <=? c) && (c <=? 122))%N.
Definition is_digit (c : N) : bool := ((48 <=? c) && (c <=? 57))%N.

(** [\w]: without the [u] flag this is [A-Za-z0-9_]. *)
Definition is_word (c : N) : bool :=
  is_upper c || is_lower c || is_digit c || (c =? 95)%N.

(** [\s], which is also the set removed by [String.prototype.trim]:
    WhiteSpace and LineTerminator of ECMAScript. *)
Definition is_space (c : N) : bool :=
  (((9 <=? c) && (c <=? 13)) || (c =? 32) || (c =? 160) || (c =? 5760)
   || ((8192 <=? c) && (c <=? 8202)) || (c =? 8232) || (c =? 8233)
   || (c =? 8239) || (c =? 8287) || (c =? 12288) || (c =? 65279))%N.

(** Canonicalize of a case-insensitive match without the [u] flag: only the
    ASCII letters fold onto ASCII letters (a code unit above 127 whose upper
    case is ASCII is left as it is). *)
Definition canon (c : N) : N := if is_lower c then (c - 32)%N else c.

(** [s.startsWith(p)] *)
Fixpoint startsWith (s p : jsstring) : bool :=
  match p, s with
  | [], _ => true
  | _ :: _, [] => false
  | c :: p', d :: s' => (c =? d)%N && startsWith s' p'
  end.

(** [s.endsWith(p)] *)
Definition endsWith (s p : jsstring) : bool := startsWith (rev s) (rev p).

(** [s.includes(p)] *)
Fixpoint includes (s p : jsstring) : bool :=
  startsWith s p ||
  match s with
  | [] => false
  | _ :: s' => includes s' p
  end.

(** [s.trim()] *)
Fixpoint trimStart (s : jsstring) : jsstring :=
  match s with
  | c :: s' => if is_space c then trimStart s' else s
  | [] => []
  end.

Definition trim (s : jsstring) : jsstring := rev (trimStart (rev (trimStart s))).

(** [s.split(sep)] for a non-empty separator string: the pieces between the
    successive non-overlapping occurrences of [sep], scanning from the left.
    [skip] counts the code units of a matched separator still to be dropped,
    [cur] is the current piece, reversed. *)
Fixpoint split_go (sep : jsstring) (s : jsstring) (skip : nat) (cur : jsstring)
  : list jsstring :=
  match s with
  | [] => [rev cur]
  | c :: s' =>
      match skip with
      | S k => split_go sep s' k cur
      | O =>
          if startsWith s sep
          then rev cur :: split_go sep s' (Nat.pred (length sep)) []
          else split_go sep s' 0 (c :: cur)
      end
  end.

Definition split (s sep : jsstring) : list jsstring := split_go sep s 0 [].

(** [s.split(/[...]/)] for a one-character class. *)
Fixpoint split_class_go (p : N -> bool) (s : jsstring) (cur : jsstring)
  : list jsstring :=
  match s with
  | [] => [rev cur]
  | c :: s' =>
      if p c then rev cur :: split_class_go p s' []
      else split_class_go p s' (c :: cur)
  end.

Definition split_class (p : N -> bool) (s : jsstring) : list jsstring :=
  split_class_go p s [].

(** [a.join(sep)] *)
Fixpoint join (sep : jsstring) (l : list jsstring) : jsstring :=
  match l with
  | [] => []
  | [x] => x
  | x :: l' => x ++ sep ++ join sep l'
  end.

(** [a.pop()]: the last element, [undefined] on an empty array. *)
Definition pop (l : list jsstring) : option jsstring := last l.

(** *** Regular expressions

    The fragment used by the source: literals, classes, sequence,
    alternation, [c+] on a class, [\b], [^] and [$] (no [m] flag). The
    matcher is the usual backtracking one, in continuation-passing style;
    [prev] is the code unit before the current position. *)
Inductive regex : Type :=
| REps
| RChar (c : N)
| RClass (p : N -> bool)
| RSeq (r1 r2 : regex)
| RAlt (r1 r2 : regex)
| RPlus (p : N -> bool)
| RWordB
| RBegin
| REnd.

Definition word_before (prev : option N) : bool :=
  match prev with Some c => is_word c | None => false end.

Definition word_here (s : jsstring) : bool :=
  match s with c :: _ => is_word c | [] => false end.

Fixpoint plus_tail (p : N -> bool) (k : option N -> jsstring -> bool)
  (prev : option N) (s : jsstring) : bool :=
  match s with
  | c :: s' => (p c && plus_tail p k (Some c) s') || k prev s
  | [] => k prev s
  end.

(** [ic] is the [i] flag. Classes are compared without case folding, which
    is exact for the classes the source uses under [i] (only [\s]). *)
Fixpoint match_at (ic : bool) (r : regex) (prev : option N) (s : jsstring)
  (k : option N -> jsstring -> bool) : bool :=
  match r with
  | REps => k prev s
  | RChar c =>
      match s with
      | d :: s' =>
          (if ic then (canon c =? canon d)%N else (c =? d)%N) && k (Some d) s'
      | [] => false
      end
  | RClass p =>
      match s with
      | d :: s' => p d && k (Some d) s'
      | [] => false
      end
  | RSeq r1 r2 => match_at ic r1 prev s (fun prev' s' => match_at ic r2 prev' s' k)
  | RAlt r1 r2 => match_at ic r1 prev s k || match_at ic r2 prev s k
  | RPlus p =>
      match s with
      | d :: s' => p d && plus_tail p k (Some d) s'
      | [] => false
      end
  | RWordB => xorb (word_before prev) (word_here s) && k prev s
  | RBegin => match prev with None => k prev s | Some _ => false end
  | REnd => match s with [] => k prev s | _ :: _ => false end
  end.

Fixpoint search (ic : bool) (r : regex) (prev : option N) (s : jsstring) : bool :=
  match_at ic r prev s (fun _ _ => true) ||
  match s with
  | c :: s' => search ic r (Some c) s'
  | [] => false
  end.

(** [/r/.test(s)], and [/r/i.test(s)] when [ic] is set. *)
Definition test (ic : bool) (r : regex) (s : jsstring) : bool :=
  search ic r None s.

(** A literal word of a pattern. *)
Fixpoint RLit (w : jsstring) : regex :=
  match w with
  | [] => REps
  | c :: w' => RSeq (RChar c) (RLit w')
  end.

Fixpoint RAlts (r : regex) (rs : list regex) : regex :=
  match rs with
  | [] => r
  | r' :: rs' => RAlt r (RAlts r' rs')
  end.

(** [c{n}] on a class, [n >= 1]. *)
Fixpoint RRep (n : nat) (p : N -> bool) : regex :=
  match n with
  | O | S O => RClass p
  | S n' => RSeq (RClass p) (RRep n' p)
  end.

(** [(s.match(/c/g) || []).length] for a one-character pattern [c]. *)
Definition match_count_char (c : N) (s : jsstring) : nat :=
  length (filter (fun d => d = c) s).

(** *** Numbers *)

(** The double of a non-negative integer (exact below 2^53). *)
Definition num (n : nat) : float := PrimFloat.of_uint63 (Uint63.of_Z (Z.of_nat n)).

(** [Math.round]: the integer closest to [x], ties towards +infinity. *)
Definition Math_round (x : float) : float :=
  match Prim2SF x with
  | S754_finite sg m e =>
      if (0 <=? e)%Z then x
      else
        let d := (2 ^ (- e))%Z in
        let r := ((if sg then d - 2 * Z.pos m else 2 * Z.pos m + d) / (2 * d))%Z in
        if (r =? 0)%Z then (if sg then (-0)%float else 0%float)
        else if (r <? 0)%Z
             then PrimFloat.opp (PrimFloat.of_uint63 (Uint63.of_Z (- r)))
             else PrimFloat.of_uint63 (Uint63.of_Z r)
  | _ => x
  end.

(** Truthiness of a number: neither zero nor NaN. *)
Definition truthy_num (x : float) : bool :=
  negb (PrimFloat.is_zero x || PrimFloat.is_nan x).

End JS.


(* ===================================================================== *)
(** ** RAGService.getOptimalTopK *)
(* ===================================================================== *)

Module TopK.
Import JS.

(** The optional [userTopK] argument: [null] (the default), [undefined], or a
    number. *)
Inductive override : Type :=
| ONull
| OUndefined
| ONum (x : float).

(** What the function returns: the override itself or a number literal. *)
Definition result : Type := float.

(** [/[A-Z]{2,}|[0-9]+/] *)
Definition re_technical : regex :=
  RAlt (RSeq (RClass is_upper) (RPlus is_upper)) (RPlus is_digit).

(** [/\b(how|why|explain|analyze|compare|difference|what\s+is|describe|elaborate|detailed)\b/i] *)
Definition re_complex : regex :=
  RSeq RWordB
    (RSeq
       (RAlts (RLit (lit "how"))
          [ RLit (lit "why"); RLit (lit "explain"); RLit (lit "analyze");
            RLit (lit "compare"); RLit (lit "difference");
            RSeq (RLit (lit "what")) (RSeq (RPlus is_space) (RLit (lit "is")));
            RLit (lit "describe"); RLit (lit "elaborate"); RLit (lit "detailed") ])
       RWordB).

Definition hasTechnicalTerms (query : jsstring) : bool := test false re_technical query.
Definition hasComplexWords (query : jsstring) : bool := test true re_complex query.
Definition hasMultipleQuestions (query : jsstring) : bool :=
  Nat.ltb 1 (match_count_char 63 query).

(** [userTopK && userTopK > 0 && userTopK <= 20] *)
Definition override_accepted (userTopK : override) : bool :=
  match userTopK with
  | ONull | OUndefined => false
  | ONum x => truthy_num x && (0 <? x)%float && (x <=? 20)%float
  end.

(** The part after the override test. *)
Definition classify (query : jsstring) : result :=
  let queryLength := length query in
  if Nat.ltb queryLength 20 && negb (hasComplexWords query) && negb (hasTechnicalTerms query)
  then 3%float
  else if Nat.ltb queryLength 50 || hasTechnicalTerms query
  then 6%float
  else if hasComplexWords query || hasMultipleQuestions query
  then 8%float
  else 10%float.

(** getOptimalTopK; the logger lines are left out. *)
Definition getOptimalTopK (query : jsstring) (userTopK : override) : result :=
  match userTopK with
  | ONum x => if override_accepted userTopK then x else classify query
  | _ => classify query
  end.

(** The override as the caller means it: a number that is strictly greater
    than 0 and at most 20. *)
Definition in_range (userTopK : override) : bool :=
  match userTopK with
  | ONum x => (0 <? x)%float && (x <=? 20)%float
  | _ => false
  end.

End TopK.

(* ===================================================================== *)
(** ** RAGService.cleanSourceName *)
(* ===================================================================== *)

Module SourceName.
Import JS.

(** The argument: a string, [null] or [undefined]. *)
Inductive source_arg : Type :=
| SNull
| SUndefined
| SStr (s : jsstring).

(** The result: a string, or [undefined] when an array index is out of
    range. *)
Inductive source_res : Type :=
| RUndefined
| RStr (s : jsstring).

Definition Unknown : jsstring := lit "Unknown".

(** ['split 11\\'] *)
Definition marker : jsstring := lit "split 11\".

(** [/[\\/]/] *)
Definition is_slash (c : N) : bool := ((c =? 92) || (c =? 47))%N.

Definition cleanSourceName (sourcePath : source_arg) : source_res :=
  match sourcePath with
  | SNull | SUndefined => RStr Unknown
  | SStr [] => RStr Unknown
  | SStr s =>
      if includes s marker
      then match split s marker !! 1%nat with
           | Some piece => RStr piece
           | None => RUndefined
           end
      else match pop (split_class is_slash s) with
           | Some (c :: seg) => RStr (c :: seg)
           | _ => RStr s
           end
  end.

(** What follows the first occurrence of [sep] in [s], and what precedes
    it (all of [s] when there is none). *)
Fixpoint after_first (sep s : jsstring) : option jsstring :=
  if startsWith s sep then Some (drop (length sep) s)
  else match s with
       | [] => None
       | _ :: s' => after_first sep s'
       end.

Fixpoint before_first (sep s : jsstring) : jsstring :=
  if startsWith s sep then []
  else match s with
       | [] => []
       | c :: s' => c :: before_first sep s'
       end.

End SourceName.

(* ===================================================================== *)
(** ** The manifest table and the scripts checkStatus and clearErrors *)
(* ===================================================================== *)

Module Manifest.

(** A value stored in SQLite: NULL, a 64-bit integer or a text. *)
Inductive sqlval : Type :=
| VNull
| VInt (z : Z)
| VText (s : string).

(** Modelled from the spec: the table [bulk_files], whose CREATE TABLE is not
    part of the sources; the scripts name the columns path, status,
    chunks_count, error and updated_at. *)
Record row : Type := mkRow {
  path : sqlval;
  status : sqlval;
  chunks_count : sqlval;
  error : sqlval;
  updated_at : sqlval
}.

Abbreviation table := (list row).

(** The column an identifier names, if any. *)
Definition column (name : string) (r : row) : option sqlval :=
  if String.eqb name "path" then Some (path r)
  else if String.eqb name "status" then Some (status r)
  else if String.eqb name "chunks_count" then Some (chunks_count r)
  else if String.eqb name "error" then Some (error r)
  else if String.eqb name "updated_at" then Some (updated_at r)
  else None.

(** A token in single quotes is a string literal. *)
Definition sq (tok : string) : sqlval := VText tok.

(** A token in double quotes is an identifier: it names the column when the
    table has one of that name. Only when it names nothing does SQLite fall
    back to a string literal, and only when it was built with double-quoted
    string literals enabled ([dqs], the SQLITE_DQS option); otherwise the
    statement is refused with "no such column" ([None]). *)
Definition dq (dqs : bool) (tok : string) (r : row) : option sqlval :=
  match column tok r with
  | Some v => Some v
  | None => if dqs then Some (VText tok) else None
  end.

(** Whether a statement using ["tok"] on bulk_files prepares. *)
Definition dq_prepares (dqs : bool) (tok : string) : bool :=
  match column tok (mkRow VNull VNull VNull VNull VNull) with
  | Some _ => true
  | None => dqs
  end.

(** [a = b]: NULL when either side is NULL; values of different storage
    classes are different. *)
Definition sql_eq (a b : sqlval) : option bool :=
  match a, b with
  | VNull, _ | _, VNull => None
  | VInt x, VInt y => Some (Z.eqb x y)
  | VText x, VText y => Some (String.eqb x y)
  | _, _ => Some false
  end.

(** [a IN (l)] for a list of literals. *)
Fixpoint sql_in (a : sqlval) (l : list sqlval) : option bool :=
  match l with
  | [] => Some false
  | b :: l' =>
      match sql_eq a b, sql_in a l' with
      | Some true, _ | _, Some true => Some true
      | Some false, Some false => Some false
      | _, _ => None
      end
  end.

(** A WHERE or WHEN condition holds when it is true (not NULL, not false). *)
Definition holds (c : option bool) : bool :=
  match c with Some true => true | _ => false end.

(** [CASE WHEN c THEN 1 ELSE 0 END] *)
Definition case_1_0 (c : option bool) : sqlval := if holds c then VInt 1 else VInt 0.

(** *** SUM and the numbers that reach JavaScript *)

(** SQLite's integers are 64-bit. *)
Definition in_int64 (z : Z) : bool := ((-9223372036854775808 <=? z) && (z <=? 9223372036854775807))%Z.

(** The parts of SUM that are left to SQLite: how it reads a text as a
    number ([Some z] when it reads the integer [z], [None] when it reads a
    floating-point number, which is also what it does with a text that is
    not a number), and the sum it computes in floating point for a group
    that holds such a value ([None] when it raises "integer overflow"
    instead); both differ between versions of SQLite. *)
Record engine : Type := mkEngine {
  integer_of_text : string -> option Z;
  real_sum : list sqlval -> option float
}.

(** The result of [SUM(x)]: NULL when no row has a non-NULL [x], an integer
    while every value is one, else a floating-point number; the error
    "integer overflow" when integers leave the 64-bit range. *)
Inductive sum_result : Type :=
| SumNull
| SumInt (z : Z)
| SumReal (x : float)
| SumError.

(** The values of a group when all of them are integers, the NULLs left
    out. *)
Fixpoint integers (E : engine) (vs : list sqlval) : option (list Z) :=
  match vs with
  | [] => Some []
  | VNull :: vs' => integers E vs'
  | VInt z :: vs' => option_map (cons z) (integers E vs')
  | VText s :: vs' =>
      match integer_of_text E s with
      | Some z => option_map (cons z) (integers E vs')
      | None => None
      end
  end.

(** Adding integers one by one, each sum checked against the range. *)
Fixpoint add_int64 (acc : Z) (zs : list Z) : option Z :=
  match zs with
  | [] => Some acc
  | z :: zs' => if in_int64 (acc + z) then add_int64 (acc + z)%Z zs' else None
  end.

Definition SUM (E : engine) (vs : list sqlval) : sum_result :=
  match integers E vs with
  | None =>
      match real_sum E vs with
      | Some x => SumReal x
      | None => SumError
      end
  | Some [] => SumNull
  | Some zs =>
      match add_int64 0 zs with
      | Some total => SumInt total
      | None => SumError
      end
  end.

(** [COUNT( * )] *)
Definition COUNT (rows : table) : Z := Z.of_nat (length rows).

(** A 64-bit integer read as a JavaScript number: the nearest double, ties
    to the even significand; every integer below 2^53 in size is kept. *)
Definition to_double (z : Z) : Z :=
  let m := Z.abs z in
  if (m <? 9007199254740992)%Z then z
  else
    let e := (Z.log2 m - 52)%Z in
    let q := (m / 2 ^ e)%Z in
    let r := (m mod 2 ^ e)%Z in
    let half := (2 ^ (e - 1))%Z in
    let q' := if (half <? r)%Z || ((r =? half)%Z && Z.odd q) then (q + 1)%Z else q in
    (Z.sgn z * (q' * 2 ^ e))%Z.

(** A JavaScript number of the result row: the double of an integer, or a
    double that SQLite computed in floating point. *)
Inductive number : Type :=
| NumInt (z : Z)
| NumReal (x : float).

(** A column of the row that [get()] returns: [None] is [null]; there is no
    row when the statement throws. *)
Definition column_value (r : sum_result) : option (option number) :=
  match r with
  | SumNull => Some None
  | SumInt z => Some (Some (NumInt (to_double z)))
  | SumReal x => Some (Some (NumReal x))
  | SumError => None
  end.

(** *** checkStatus *)

(** The row of
    [SELECT COUNT( * ) as total,
            SUM(CASE WHEN status = 'completed' THEN 1 ELSE 0 END) as completed,
            SUM(CASE WHEN status = 'error' THEN 1 ELSE 0 END) as errors,
            SUM(CASE WHEN status IN ('queued', 'processing') THEN 1 ELSE 0 END) as pending,
            SUM(chunks_count) as total_chunks
     FROM bulk_files]. *)
Record stats : Type := mkStats {
  total : number;
  completed : option number;
  errors : option number;
  pending : option number;
  total_chunks : option number
}.

(** The statement; [None] when it throws "integer overflow". *)
Definition select_stats (E : engine) (db : table) : option stats :=
  match
    column_value (SUM E (map (fun r => case_1_0 (sql_eq (status r) (sq "completed"))) db)),
    column_value (SUM E (map (fun r => case_1_0 (sql_eq (status r) (sq "error"))) db)),
    column_value
      (SUM E (map (fun r => case_1_0 (sql_in (status r) [sq "queued"; sq "processing"])) db)),
    column_value (SUM E (map chunks_count db))
  with
  | Some completed, Some errors, Some pending, Some total_chunks =>
      Some {| total := NumInt (to_double (COUNT db));
              completed := completed;
              errors := errors;
              pending := pending;
              total_chunks := total_chunks |}
  | _, _, _, _ => None
  end.

(** [x || 0] on a number or [null]. *)
Definition or0 (x : option number) : number :=
  match x with
  | None => NumInt 0
  | Some (NumInt z) => NumInt z
  | Some (NumReal x) => if JS.truthy_num x then NumReal x else NumInt 0
  end.

(** The lines of the "Overall Statistics" block of the console, and the
    line of the catch. *)
Inductive stat_line : Type :=
| TotalFiles (n : number)
| Completed (n : number)
| Errors (n : number)
| Pending (n : number)
| TotalChunks (n : number)
| ErrorChecking (message : string).

(** checkStatus, up to its statistics block. When the statement throws,
    the catch of the function prints the message and nothing of the block
    is printed. The status breakdown and the listings of recent errors and
    pending files that follow only print rows in SQLite's order and are
    left out. *)
Definition checkStatus (E : engine) (db : table) : list stat_line :=
  match select_stats E db with
  | None => [ErrorChecking "integer overflow"]
  | Some stats =>
      [ TotalFiles (or0 (Some (total stats)));
        Completed (or0 (completed stats));
        Errors (or0 (errors stats));
        Pending (or0 (pending stats));
        TotalChunks (or0 (total_chunks stats)) ]
  end.

(** *** clearErrors *)

Inductive clear_line : Type :=
| Clearing
| Found (n : Z)
| NoErrorsToClear
| ResetFiles (changes : Z)
| WillBeReprocessed
| ResumeHint
| ErrorClearing (no_such_column : string).

(** The condition of both statements, [status = "error"]. bulk_files has a
    column named error (the UPDATE below assigns it, checkStatus selects
    it), so the quoted token is that column and not the text 'error'. *)
Definition where_status_dq_error (dqs : bool) (r : row) : bool :=
  match dq dqs "error" r with
  | Some v => holds (sql_eq (status r) v)
  | None => false
  end.

(** [SELECT COUNT( * ) as count FROM bulk_files WHERE status = "error"] *)
Definition select_error_count (dqs : bool) (db : table) : option Z :=
  if dq_prepares dqs "error"
  then Some (COUNT (List.filter (where_status_dq_error dqs) db))
  else None.

(** One row under
    [UPDATE bulk_files SET status = "queued", error = NULL WHERE status = "error"]. *)
Definition update_row (dqs : bool) (r : row) : row :=
  if where_status_dq_error dqs r
  then match dq dqs "queued" r with
       | Some v =>
           {| path := path r; status := v; chunks_count := chunks_count r;
              error := VNull; updated_at := updated_at r |}
       | None => r
       end
  else r.

(** The statement: [None] when it does not prepare, else [result.changes]
    and the table after. *)
Definition update_reset (dqs : bool) (db : table) : option (Z * table) :=
  if dq_prepares dqs "queued" && dq_prepares dqs "error"
  then Some (COUNT (List.filter (where_status_dq_error dqs) db),
             map (update_row dqs) db)
  else None.

Record run : Type := mkRun {
  db_after : table;
  changes : option Z;
  console : list clear_line
}.

(** clearErrors. An exception of a statement is caught by the function's
    try/catch, which prints it. The final listing of queued files only
    prints and is left out. *)
Definition clearErrors (dqs : bool) (db : table) : run :=
  match select_error_count dqs db with
  | None => mkRun db None [Clearing; ErrorClearing "error"]
  | Some count =>
      if (count =? 0)%Z
      then mkRun db None [Clearing; Found count; NoErrorsToClear]
      else
        match update_reset dqs db with
        | None => mkRun db None [Clearing; Found count; ErrorClearing "queued"]
        | Some (n, db') =>
            mkRun db' (Some n)
              [Clearing; Found count; ResetFiles n; WillBeReprocessed; ResumeHint]
        end
  end.

(** The operation as the specification words it: every entry whose status
    is the text 'error' becomes 'queued' with a NULL error; the result is
    the number of such entries. *)
Definition is_error (r : row) : bool := holds (sql_eq (status r) (sq "error")).

Definition reset_row_spec (r : row) : row :=
  if is_error r
  then {| path := path r; status := VText "queued"; chunks_count := chunks_count r;
          error := VNull; updated_at := updated_at r |}
  else r.

Definition resetErrorsToQueued_spec (db : table) : nat * table :=
  (length (List.filter is_error db), map reset_row_spec db).

(** The summary as the specification words it: the number of entries with
    a given status, and the chunk counts added up. *)
Definition has_status (s : string) (r : row) : bool :=
  match status r with
  | VText t => String.eqb t s
  | _ => false
  end.





(** A stand-in for the engine in the examples: a text is an integer when it
    is a decimal numeral, and otherwise counts, in floating point, for the
    decimal numeral it starts with; signs, fractions and exponents are left
    out, and so is the rounding of large sums. *)
Fixpoint decimal_prefix (acc : Z) (s : string) : Z * string :=
  match s with
  | String c s' =>
      let n := Z.of_nat (nat_of_ascii c) in
      if ((48 <=? n) && (n <=? 57))%Z then decimal_prefix (acc * 10 + (n - 48))%Z s'
      else (acc, s)
  | EmptyString => (acc, s)
  end.

Definition decimal_integer (s : string) : option Z :=
  match s, decimal_prefix 0 s with
  | String _ _, (z, EmptyString) => if in_int64 z then Some z else None
  | _, _ => None
  end.

Definition prefix_value (v : sqlval) : Z :=
  match v with
  | VNull => 0%Z
  | VInt z => z
  | VText s => fst (decimal_prefix 0 s)
  end.

Definition float_of_Z (z : Z) : float :=
  if (z <? 0)%Z then (- PrimFloat.of_uint63 (Uint63.of_Z (- z)))%float
  else PrimFloat.of_uint63 (Uint63.of_Z z).

Definition sqlite_sample : engine :=
  {| integer_of_text := decimal_integer;
     real_sum := fun vs => Some (float_of_Z (fold_right Z.add 0%Z (map prefix_value vs))) |}.


Definition odd_file : row :=
  mkRow (VText "C:\docs\odd.pdf") (VText "completed") (VInt 9007199254740993)
    VNull (VText "2025-01-05 10:00:00").

Definition done_file (n : Z) : row :=
  mkRow (VText "C:\docs\done.pdf") (VText "completed") (VInt n)
    VNull (VText "2025-01-05 10:00:00").

(** A manifest with one failed file, and one whose failure message is the
    word error. *)
Definition failed_scan : row :=
  mkRow (VText "C:\docs\scan.pdf") (VText "error") (VInt 0)
    (VText "Unsupported file type: image/png (scan.pdf)") (VText "2025-01-05 10:00:00").

Definition failed_plain : row :=
  mkRow (VText "C:\docs\notes.pdf") (VText "error") (VInt 0)
    (VText "error") (VText "2025-01-05 10:00:00").

End Manifest.

(* ===================================================================== *)
(** ** RAGService: processFile, processBulkDocuments, getCollectionStats *)
(* ===================================================================== *)

Module Rag.
Import JS.

(** The outcome of a call: a value, or a thrown [Error] with its message. *)
Inductive res (A : Type) : Type :=
| Ret (a : A)
| Throw (message : jsstring).
Arguments Ret {A} a.
Arguments Throw {A} message.

Record metadata : Type := mkMeta {
  source : option jsstring;
  title : option jsstring;
  timestamp : option jsstring
}.

(** A LangChain [Document]. *)
Record Document : Type := mkDocument {
  pageContent : jsstring;
  doc_metadata : metadata
}.

(** An uploaded file; [buffer] is its bytes. *)
Record file : Type := mkFile {
  originalname : jsstring;
  mimetype : jsstring;
  buffer : list N
}.

(** What the service emits: progress and completion on the operation's
    channel, and logger lines. *)
Inductive event : Type :=
| Progress (message : jsstring)
| BatchProgress (current_batch total_batches chunks_processed : nat)
| Done (chunksAdded : nat) (sources : list jsstring)
| LogInfo (message : jsstring)
| LogError (message : jsstring).

Section Service.

(** The state of the vector store behind [this.vectorStore]. *)
Context {VS : Type}.

(** The collaborators: the parsers, the text splitter and the store. *)
Record collaborators : Type := mkCollaborators {
  (** [(await pdfParse(buffer)).text] *)
  pdfParse : list N -> res (option jsstring);
  (** [(await mammoth.extractRawText({ buffer })).value] *)
  extractRawText : list N -> res (option jsstring);
  (** [buffer.toString('utf8')] *)
  toString_utf8 : list N -> jsstring;
  (** [this.textSplitter.splitDocuments(docs)] *)
  splitDocuments : list Document -> list Document;
  (** [this.vectorStore.addDocuments(chunks)] *)
  addDocuments : list Document -> VS -> res unit * VS
}.

Variable C : collaborators.

Record world : Type := mkWorld {
  store : VS;
  events : list event
}.

Definition emit (e : event) (w : world) : world :=
  mkWorld (store w) (events w ++ [e]).

Definition emit_all (es : list event) (w : world) : world :=
  mkWorld (store w) (events w ++ es).

(** [x || ''] *)
Definition or_empty (x : option jsstring) : jsstring := default [] x.

(** *** processSubtitleContent *)

(** [/^\d+$/] *)
Definition re_sequence_number : regex := RSeq RBegin (RSeq (RPlus is_digit) REnd).

(** [/^\d{2}:\d{2}:\d{2}\.\d{3}/] and, with [sep] a comma, the SRT form. *)
Definition re_timestamp (sep : N) : regex :=
  RSeq RBegin
    (RSeq (RRep 2 is_digit) (RSeq (RChar 58)
    (RSeq (RRep 2 is_digit) (RSeq (RChar 58)
    (RSeq (RRep 2 is_digit) (RSeq (RChar sep) (RRep 3 is_digit))))))).

Inductive subtitle_type : Type := vtt | srt.

Definition keep_line (fileType : subtitle_type) (removeTimestamps : bool)
  (line : jsstring) : bool :=
  match fileType with
  | vtt =>
      if removeTimestamps
      then negb (str_eqb line []) && negb (includes line (lit "-->"))
           && negb (startsWith line (lit "WEBVTT"))
           && negb (test false re_sequence_number line)
           && negb (test false (re_timestamp 46) line)
      else negb (str_eqb line []) && negb (startsWith line (lit "WEBVTT"))
  | srt =>
      if removeTimestamps
      then negb (str_eqb line []) && negb (includes line (lit "-->"))
           && negb (test false re_sequence_number line)
           && negb (test false (re_timestamp 44) line)
      else negb (str_eqb line [])
  end.

Definition processSubtitleContent (content : jsstring) (fileType : subtitle_type)
  (removeTimestamps : bool) : jsstring :=
  let lines := split content [10%N] in
  let processedLines :=
    List.filter (keep_line fileType removeTimestamps) (map trim lines) in
  join [10%N] processedLines.

(** *** processFile *)

(** The CSV branch: every line's fields trimmed, unquoted and joined. *)
Definition csv_to_text (csvText : jsstring) : jsstring :=
  let lines := split csvText [10%N] in
  let processedLines :=
    map (fun line =>
           let fields :=
             map (fun field => List.filter (fun c => negb (c =? 34)%N) (trim field))
               (split line [44%N]) in
           join (lit " | ") fields) lines in
  join [10%N] processedLines.

Definition timestamps_note (removeTimestamps : bool) : jsstring :=
  if removeTimestamps then lit " (removing timestamps)" else lit " (keeping timestamps)".

(** The extraction stage of one file: the progress messages it emits and
    the text, or the exception, it ends with. *)
Definition extract (f : file) (removeTimestamps : bool) : list event * res jsstring :=
  let name := originalname f in
  if str_eqb (mimetype f) (lit "application/pdf") then
    ([Progress (lit "Extracting text from PDF")],
     match pdfParse C (buffer f) with
     | Ret text => Ret (or_empty text)
     | Throw e => Throw e
     end)
  else if str_eqb (mimetype f)
            (lit "application/vnd.openxmlformats-officedocument.wordprocessingml.document") then
    ([Progress (lit "Extracting text from DOCX")],
     match extractRawText C (buffer f) with
     | Ret value => Ret (or_empty value)
     | Throw e => Throw e
     end)
  else if str_eqb (mimetype f) (lit "text/plain") || endsWith name (lit ".txt")
          || endsWith name (lit ".md") then
    ([Progress (lit "Reading text file")], Ret (toString_utf8 C (buffer f)))
  else if str_eqb (mimetype f) (lit "text/csv") || endsWith name (lit ".csv") then
    ([Progress (lit "Processing CSV file")],
     Ret (csv_to_text (toString_utf8 C (buffer f))))
  else if endsWith name (lit ".vtt") then
    ([Progress (lit "Processing VTT subtitle file" ++ timestamps_note removeTimestamps)],
     Ret (processSubtitleContent (toString_utf8 C (buffer f)) vtt removeTimestamps))
  else if endsWith name (lit ".srt") then
    ([Progress (lit "Processing SRT subtitle file" ++ timestamps_note removeTimestamps)],
     Ret (processSubtitleContent (toString_utf8 C (buffer f)) srt removeTimestamps))
  else
    ([], Throw (lit "Unsupported file type: " ++ mimetype f ++ lit " (" ++ name ++ lit ")")).

(** [!textContent || !textContent.trim()] *)
Definition no_content (textContent : jsstring) : bool :=
  str_eqb textContent [] || str_eqb (trim textContent) [].

Definition msg_processing (i n : nat) (name : jsstring) : jsstring :=
  lit "Processing file " ++ show_nat (i + 1) ++ lit "/" ++ show_nat n ++ lit ": " ++ name.

Definition msg_warning (name : jsstring) : jsstring :=
  lit "Warning: No extractable content found in " ++ name.

Definition msg_storing (k : nat) (name : jsstring) : jsstring :=
  lit "Storing " ++ show_nat k ++ lit " chunks from " ++ name.

(** The body of the [for] loop from index [i] on, over the files still to
    come; [n] is [fileArray.length]. It returns [totalChunks] and
    [allSources], or the first exception. *)
Fixpoint files_loop (removeTimestamps : bool) (n i : nat) (rest : list file)
  (totalChunks : nat) (allSources : list jsstring) (w : world)
  : res (nat * list jsstring) * world :=
  match rest with
  | [] => (Ret (totalChunks, allSources), w)
  | f :: rest' =>
      let w := emit (Progress (msg_processing i n (originalname f))) w in
      let '(notes, text) := extract f removeTimestamps in
      let w := emit_all notes w in
      match text with
      | Throw e => (Throw e, w)
      | Ret textContent =>
          if no_content textContent then
            let w := emit (Progress (msg_warning (originalname f))) w in
            files_loop removeTimestamps n (S i) rest' totalChunks allSources w
          else
            let w := emit (Progress (lit "Chunking content from " ++ originalname f)) w in
            let docs := [mkDocument textContent (mkMeta (Some (originalname f)) None None)] in
            let chunks := splitDocuments C docs in
            let totalChunks := totalChunks + length chunks in
            let allSources := allSources ++ [originalname f] in
            let w := emit (Progress (msg_storing (length chunks) (originalname f))) w in
            match addDocuments C chunks (store w) with
            | (Throw e, s) => (Throw e, mkWorld s (events w))
            | (Ret _, s) =>
                files_loop removeTimestamps n (S i) rest' totalChunks allSources
                  (mkWorld s (events w))
            end
      end
  end.

(** The [files] argument: one file or an array of files. *)
Inductive files_arg : Type :=
| OneFile (f : file)
| Files (l : list file).

Definition fileArray (files : files_arg) : list file :=
  match files with
  | OneFile f => [f]
  | Files l => l
  end.

Definition msg_no_text : jsstring :=
  lit "No extractable text content found in any of the uploaded files".

Record processed : Type := mkProcessed {
  chunksAdded : nat;
  sources : list jsstring
}.

(** The [catch] of processFile: log, report on the channel, rethrow. *)
Definition rethrow_file {A} (e : jsstring) (w : world) : res A * world :=
  (Throw e,
   emit (Progress (lit "Error: " ++ e))
     (emit (LogError (lit "Error processing files: " ++ e)) w)).

Definition processFile (files : files_arg) (removeTimestamps : bool) (w : world)
  : res processed * world :=
  let n := length (fileArray files) in
  match files_loop removeTimestamps n 0 (fileArray files) 0 [] w with
  | (Throw e, w) => rethrow_file e w
  | (Ret (totalChunks, allSources), w) =>
      if Nat.eqb totalChunks 0 then rethrow_file msg_no_text w
      else
        let w := emit (LogInfo (lit "Successfully processed and stored content from "
                                ++ show_nat n ++ lit " files")) w in
        let w := emit (Done totalChunks allSources) w in
        (Ret (mkProcessed totalChunks allSources), w)
  end.

(** *** processBulkDocuments *)

(** [a.slice(i, j)] for [0 <= i <= j]. *)
Definition slice {A} (i j : nat) (a : list A) : list A := take (j - i) (drop i a).

(** [Number(process.env.BULK_EMBED_BATCH || '128')]. The variable is unset
    ([None]) or holds a decimal numeral, given by its value; signs,
    fractions and text that is not a number are outside this model. *)
Definition embed_batch_size (BULK_EMBED_BATCH : option nat) : nat :=
  match BULK_EMBED_BATCH with
  | Some n => n
  | None => 128
  end.

(** [Math.ceil(a / b)] on non-negative integers, [b > 0]. *)
Definition ceil_div (a b : nat) : nat := (a + b - 1) / b.

(** The [for] loop from index [i] on. The loop does not end when the batch
    size is 0, so it runs on fuel: [None] is "still looping". *)
Fixpoint bulk_loop (fuel : nat) (documents : list Document) (batchSize i totalChunks : nat)
  (w : world) : option (res nat * world) :=
  if Nat.ltb i (length documents) then
    match fuel with
    | O => None
    | S fuel' =>
        let batch := slice i (i + batchSize) documents in
        let docs := map (fun doc => mkDocument (pageContent doc) (doc_metadata doc)) batch in
        let chunks := splitDocuments C docs in
        match addDocuments C chunks (store w) with
        | (Throw e, s) => Some (Throw e, mkWorld s (events w))
        | (Ret _, s) =>
            let totalChunks := totalChunks + length chunks in
            let w := emit (BatchProgress (i / batchSize + 1)
                             (ceil_div (length documents) batchSize) totalChunks)
                       (mkWorld s (events w)) in
            bulk_loop fuel' documents batchSize (i + batchSize) totalChunks w
        end
    end
  else Some (Ret totalChunks, w).

Definition processBulkDocuments (fuel : nat) (BULK_EMBED_BATCH : option nat)
  (documents : list Document) (w : world) : option (res nat * world) :=
  let w := emit (LogInfo (lit "Processing " ++ show_nat (length documents)
                          ++ lit " documents in bulk")) w in
  let batchSize := embed_batch_size BULK_EMBED_BATCH in
  match bulk_loop fuel documents batchSize 0 0 w with
  | None => None
  | Some (Throw e, w) =>
      Some (Throw e, emit (LogError (lit "Error in bulk document processing: " ++ e)) w)
  | Some (Ret totalChunks, w) =>
      Some (Ret totalChunks,
            emit (LogInfo (lit "Successfully processed " ++ show_nat totalChunks
                           ++ lit " chunks from " ++ show_nat (length documents)
                           ++ lit " documents")) w)
  end.

(** *** Reference definitions for the statements below *)

(** What a caller observes apart from the messages: the outcome and the
    store. *)
Definition outcome {A} (x : res A * world) : res A * VS := (fst x, store (snd x)).

(** The consecutive groups of [b] elements of a list, the last one possibly
    shorter. *)
Fixpoint batches_go {A} (fuel b : nat) (l : list A) : list (list A) :=
  match fuel, l with
  | _, [] => []
  | O, _ :: _ => []
  | S fuel', _ :: _ => take b l :: batches_go fuel' b (drop b l)
  end.

Definition batches {A} (b : nat) (l : list A) : list (list A) :=
  batches_go (length l) b l.

(** Splitting and storing a sequence of batches, one after the other, up to
    the first exception; [totalChunks] counts the chunks stored. *)
Fixpoint store_batches (bs : list (list Document)) (totalChunks : nat) (s : VS)
  : res nat * VS :=
  match bs with
  | [] => (Ret totalChunks, s)
  | batch :: bs' =>
      let chunks := splitDocuments C batch in
      match addDocuments C chunks s with
      | (Throw e, s') => (Throw e, s')
      | (Ret _, s') => store_batches bs' (totalChunks + length chunks) s'
      end
  end.

Definition chunks_of_batches (bs : list (list Document)) : nat :=
  list_sum (map (fun batch => length (splitDocuments C batch)) bs).

End Service.

Arguments world : clear implicits.
Arguments collaborators : clear implicits.

(** *** A small instance of the collaborators

    The store is the list of the chunks added so far; a PDF parses when its
    bytes start with %PDF; text is ASCII; the splitter returns one chunk per
    document. *)
Definition demo : collaborators (list Document) :=
  {| pdfParse := fun b =>
       if startsWith b (lit "%PDF") then Ret (Some (drop 4 b))
       else Throw (lit "Invalid PDF structure");
     extractRawText := fun b => Ret (Some b);
     toString_utf8 := fun b => b;
     splitDocuments := fun docs => docs;
     addDocuments := fun chunks s => (Ret tt, s ++ chunks) |}.

Definition w0 : world (list Document) := mkWorld [] [].

Definition blank_txt : file := mkFile (lit "empty.txt") (lit "text/plain") (lit "   ").
Definition good_a : file := mkFile (lit "a.txt") (lit "text/plain") (lit "alpha").
Definition corrupt_b : file := mkFile (lit "b.pdf") (lit "application/pdf") (lit "not a pdf").
Definition good_c : file := mkFile (lit "c.txt") (lit "text/plain") (lit "gamma").

Definition doc (t : string) : Document := mkDocument (lit t) (mkMeta None None None).

End Rag.

(* ===================================================================== *)
(** ** RAGService.getCollectionStats *)
(* ===================================================================== *)

Module Stats.
Import JS.
Import Rag.

(** A point as [scroll] returns it with [with_payload: true]. *)
Record payload : Type := mkPayload { metadata : option metadata }.
Record point : Type := mkPoint { point_payload : option payload }.

Record collectionInfo : Type := mkInfo { vectors_count : option nat }.
Record scrollResult : Type := mkScroll { points : option (list point) }.

(** [this.vectorStore.client], read-only here. *)
Record QdrantClient : Type := mkClient {
  getCollections : res (list jsstring);
  getCollection : jsstring -> res collectionInfo;
  (** [scroll(name, { limit, with_payload: true, with_vectors: false })] *)
  scroll : jsstring -> nat -> res scrollResult
}.

(** The object the function resolves to. *)
Inductive stats_result : Type :=
| NoCollection (collectionName : jsstring)
| Failed (error : jsstring)
| CollectionStats (collectionName : jsstring) (totalVectors : nat)
    (uniqueSources : float) (totalChunks : nat) (sampleSize : option nat).

(** [point.payload && point.payload.metadata && point.payload.metadata.source]:
    the source when all three are there and the source is not empty. *)
Definition source_of (p : point) : option jsstring :=
  match point_payload p with
  | Some pl =>
      match metadata pl with
      | Some md =>
          match source md with
          | Some (c :: s) => Some (c :: s)
          | _ => None
          end
      | None => None
      end
  | None => None
  end.

(** The [Set] filled by the loop over the sample. *)
Definition uniqueSources_of (sample : list point) : gset jsstring :=
  foldl (fun set p =>
           match source_of p with
           | Some s => {[ s ]} ∪ set
           | None => set
           end) ∅ sample.

Definition msg_check (e : jsstring) : jsstring :=
  lit "Could not check collection status: " ++ e.

Definition msg_info (e : jsstring) : jsstring :=
  lit "Could not get collection info: " ++ e.

(** Reading [.length] of an undefined [points]. *)
Definition type_error : jsstring :=
  lit "Cannot read properties of undefined (reading 'length')".

(** getCollectionStats on the collection [collectionName]; the logger lines
    and the [collectionInfo] echoed in the result are left out. An exception
    of [scroll], or of the estimate, leaves through the outer catch, which
    rethrows it. *)
Definition getCollectionStats (client : QdrantClient) (collectionName : jsstring)
  : res stats_result :=
  match getCollections client with
  | Throw e => Ret (Failed (msg_check e))
  | Ret collections =>
      if negb (existsb (fun name => str_eqb name collectionName) collections)
      then Ret (NoCollection collectionName)
      else
        match getCollection client collectionName with
        | Throw e => Ret (Failed (msg_info e))
        | Ret collectionInfo =>
            let totalVectors := default 0 (vectors_count collectionInfo) in
            if Nat.eqb totalVectors 0
            then Ret (CollectionStats collectionName 0 0%float 0 None)
            else
              match scroll client collectionName (Nat.min 1000 totalVectors) with
              | Throw e => Throw e
              | Ret samplePoints =>
                  let uniqueSources := uniqueSources_of (default [] (points samplePoints)) in
                  if Nat.ltb 1000 totalVectors
                  then
                    match points samplePoints with
                    | None => Throw type_error
                    | Some pts =>
                        let estimatedUniqueSources :=
                          Math_round (num (size uniqueSources)
                                      * (num totalVectors / num (length pts)))%float in
                        Ret (CollectionStats collectionName totalVectors
                               estimatedUniqueSources totalVectors (Some (length pts)))
                    end
                  else
                    Ret (CollectionStats collectionName totalVectors
                           (num (size uniqueSources)) totalVectors
                           (Some (length (default [] (points samplePoints)))))
              end
        end
  end.

(** A collection [name] holding the points [pts], as Qdrant serves it:
    [vectors_count] is their number and [scroll] returns the first [limit]
    of them. *)
Definition qdrant (name : jsstring) (pts : list point) : QdrantClient :=
  {| getCollections := Ret [name];
     getCollection := fun _ => Ret (mkInfo (Some (length pts)));
     scroll := fun _ limit => Ret (mkScroll (Some (take limit pts))) |}.

(** The sources the points carry, and how many different ones there are. *)
Definition sources_of (pts : list point) : list jsstring := omap source_of pts.

Definition distinct_sources (pts : list point) : nat :=
  length (remove_dups (sources_of pts)).

(** A point of the file [src]. *)
Definition point_from (src : string) : point :=
  mkPoint (Some (mkPayload (Some (mkMeta (Some (lit src)) None None)))).

(** The count as the claim words it, "the number of distinct sources among
    the points": a point carries the source named in the metadata of its
    payload, a name being a string that is not empty; [srcs] lists the
    sources among [pts] when it names each of them once. *)
Definition carries (p : point) (s : jsstring) : Prop :=
  s <> [] /\ exists pl md,
    point_payload p = Some pl /\ metadata pl = Some md /\ source md = Some s.

Definition sources_among (pts : list point) (srcs : list jsstring) : Prop :=
  NoDup srcs /\ forall s, In s srcs <-> exists p, In p pts /\ carries p s.

End Stats.

(* ===================================================================== *)
(** ** RAGService.analyzeQuery *)
(* ===================================================================== *)

Module Analyze.
Import JS.
Import TopK.






End Analyze.

(* ===================================================================== *)
(** ** RAGService.listDocuments and RAGService.deleteDocument *)
(* ===================================================================== *)

Module Documents.
Import JS.
Import Rag.
Import SourceName.

(** A point as [scroll] returns it: its id and its payload. *)
Record stored_point : Type := mkStored {
  sp_id : nat;
  sp_payload : option Stats.payload
}.

(** One answer of [scroll]: the points of the page and where the next page
    starts. *)
Record page : Type := mkPage {
  page_points : option (list stored_point);
  next_page_offset : option nat
}.

(** The reading side of [this.vectorStore.client]. [scroll_page name limit
    offset] is [scroll(name, { limit, with_payload: true, with_vectors:
    false, offset })], the offset left out when it is [null]. *)
Record DocClient : Type := mkDocClient {
  list_collections : res (list jsstring);
  collection_info : jsstring -> res Stats.collectionInfo;
  scroll_page : jsstring -> nat -> option nat -> res page
}.

(** The [while (hasMore)] loop of listDocuments and of deleteDocument, from
    the state [offset], [allPoints]. It runs on fuel, one unit for each
    call of [scroll]; [None] is "still looping". *)
Fixpoint scroll_loop (fuel : nat) (client : DocClient) (collectionName : jsstring)
  (totalVectors : nat) (offset : option nat) (allPoints : list stored_point)
  : option (res (list stored_point)) :=
  match fuel with
  | O => None
  | S fuel' =>
      match scroll_page client collectionName 1000 offset with
      | Throw e => Some (Throw e)
      | Ret batch =>
          match page_points batch with
          | Some (p :: ps) =>
              let allPoints := allPoints ++ p :: ps in
              match next_page_offset batch with
              | Some (S o) =>
                  if Nat.ltb (totalVectors * 2) (length allPoints)
                  then Some (Ret allPoints)
                  else scroll_loop fuel' client collectionName totalVectors
                         (Some (S o)) allPoints
              | _ => Some (Ret allPoints)
              end
          | _ => Some (Ret allPoints)
          end
      end
  end.

(** An entry of the [sources] map. *)
Record document : Type := mkDoc {
  doc_source : source_res;
  doc_title : source_res;
  chunks : nat;
  lastUpdated : jsstring
}.

#[global] Instance source_res_eq_dec : EqDecision source_res.
Proof. solve_decision. Defined.

(** [point.payload && point.payload.metadata] *)
Definition meta_of (p : stored_point) : option metadata :=
  match sp_payload p with
  | Some pl => Stats.metadata pl
  | None => None
  end.

(** [x || fallback] on a string that may be missing or empty. *)
Definition or_else (x : option jsstring) (fallback : jsstring) : jsstring :=
  match x with
  | Some (c :: s) => c :: s
  | _ => fallback
  end.

(** [sources.has(source)] *)
Definition has_source (source : source_res) (sources : list document) : bool :=
  existsb (fun d => bool_decide (doc_source d = source)) sources.

(** [sources.get(source).chunks++] *)
Fixpoint bump (source : source_res) (sources : list document) : list document :=
  match sources with
  | [] => []
  | d :: ds =>
      if bool_decide (doc_source d = source)
      then mkDoc (doc_source d) (doc_title d) (S (chunks d)) (lastUpdated d) :: ds
      else d :: bump source ds
  end.

(** The body of the loop over the points; the map keeps the order in which
    its keys were first set. *)
Definition group_step (sources : list document) (p : stored_point) : list document :=
  match meta_of p with
  | None => sources
  | Some md =>
      let rawSource := or_else (source md) (lit "Unknown") in
      let source := cleanSourceName (SStr rawSource) in
      let title := match title md with
                   | Some (c :: t) => RStr (c :: t)
                   | _ => source
                   end in
      let sources :=
        if has_source source sources then sources
        else sources ++ [mkDoc source title 0 (or_else (timestamp md) (lit "Unknown"))] in
      bump source sources
  end.

Definition group_points (allPoints : list stored_point) : list document :=
  foldl group_step [] allPoints.

Record listing : Type := mkListing {
  documents : list document;
  totalChunks : nat
}.

Definition empty_listing : listing := mkListing [] 0.

(** The outer catch of listDocuments: "Not Found" and messages with 404
    give the empty listing, anything else is rethrown. *)
Definition list_catch (e : jsstring) : res listing :=
  if str_eqb e (lit "Not Found") || includes e (lit "404")
  then Ret empty_listing
  else Throw e.

(** listDocuments; the logger lines are left out. A failure of
    getCollections is only logged and the listing goes on; a failure of
    getCollection counts as an empty collection. *)
Definition listDocuments (fuel : nat) (client : DocClient) (collectionName : jsstring)
  : option (res listing) :=
  let missing :=
    match list_collections client with
    | Ret collections =>
        negb (existsb (fun name => str_eqb name collectionName) collections)
    | Throw _ => false
    end in
  if missing then Some (Ret empty_listing)
  else
    let totalVectors :=
      match collection_info client collectionName with
      | Ret collectionInfo => default 0 (Stats.vectors_count collectionInfo)
      | Throw _ => 0
      end in
    if Nat.eqb totalVectors 0 then Some (Ret empty_listing)
    else
      match scroll_loop fuel client collectionName totalVectors None [] with
      | None => None
      | Some (Throw e) => Some (list_catch e)
      | Some (Ret allPoints) =>
          Some (Ret (mkListing (group_points allPoints) (length allPoints)))
      end.

(** *** deleteDocument *)

(** [s.replace(/\/$/, '')]: without one slash at the end. *)
Definition strip_slash (s : jsstring) : jsstring :=
  match rev s with
  | c :: r => if (c =? 47)%N then rev r else s
  | [] => s
  end.

(** The test of the loop over the points. *)
Definition source_matches (storedSource normalizedSource : jsstring) : bool :=
  str_eqb storedSource normalizedSource
  || str_eqb (strip_slash storedSource) (strip_slash normalizedSource)
  || str_eqb storedSource (strip_slash normalizedSource)
  || str_eqb (strip_slash storedSource) normalizedSource.

(** [payload && payload.metadata && payload.metadata.source] *)
Definition stored_source (p : stored_point) : option jsstring :=
  Stats.source_of (Stats.mkPoint (sp_payload p)).

Record deleted : Type := mkDeleted {
  deletedChunks : nat;
  deleted_source : jsstring
}.

Definition msg_no_documents : jsstring := lit "No documents found in database".

Definition msg_no_source (source : jsstring) : jsstring :=
  lit "No documents found with source: " ++ source.

Section Delete.

(** The built-in [decodeURIComponent], which throws a URIError on a
    malformed sequence, and [String.prototype.toLowerCase]. *)
Variable decodeURIComponent : jsstring -> res jsstring.
Variable toLowerCase : jsstring -> jsstring.

(** The state of the collection, changed by [client.delete] only. *)
Context {DS : Type}.

(** [client.delete(collectionName, { points })] *)
Variable delete_points : jsstring -> list nat -> DS -> res unit * DS.

(** [decodeURIComponent(s).toLowerCase()] *)
Definition normalize (s : jsstring) : res jsstring :=
  match decodeURIComponent s with
  | Ret d => Ret (toLowerCase d)
  | Throw e => Throw e
  end.

(** The loop that collects [pointsToDelete]. *)
Fixpoint pointsToDelete (normalizedSource : jsstring) (allPoints : list stored_point)
  : res (list nat) :=
  match allPoints with
  | [] => Ret []
  | p :: ps =>
      match stored_source p with
      | None => pointsToDelete normalizedSource ps
      | Some raw =>
          match normalize raw with
          | Throw e => Throw e
          | Ret storedSource =>
              match pointsToDelete normalizedSource ps with
              | Throw e => Throw e
              | Ret ids =>
                  Ret (if source_matches storedSource normalizedSource
                       then sp_id p :: ids else ids)
              end
          end
      end
  end.

(** deleteDocument; the logger lines are left out, and so is the catch,
    which logs and rethrows. [client] reads the collection in the state
    [st]. *)
Definition deleteDocument (fuel : nat) (client : DocClient) (collectionName : jsstring)
  (source : jsstring) (st : DS) : option (res deleted * DS) :=
  let totalVectors :=
    match collection_info client collectionName with
    | Ret collectionInfo => default 0 (Stats.vectors_count collectionInfo)
    | Throw _ => 0
    end in
  if Nat.eqb totalVectors 0 then Some (Throw msg_no_documents, st)
  else
    match scroll_loop fuel client collectionName totalVectors None [] with
    | None => None
    | Some (Throw e) => Some (Throw e, st)
    | Some (Ret []) => Some (Throw msg_no_documents, st)
    | Some (Ret allPoints) =>
        match normalize source with
        | Throw e => Some (Throw e, st)
        | Ret normalizedSource =>
            match pointsToDelete normalizedSource allPoints with
            | Throw e => Some (Throw e, st)
            | Ret [] => Some (Throw (msg_no_source source), st)
            | Ret ids =>
                match delete_points collectionName ids st with
                | (Throw e, st') => Some (Throw e, st')
                | (Ret _, st') => Some (Ret (mkDeleted (length ids) source), st')
                end
            end
        end
    end.

End Delete.

(** A collection [name] holding the points [pts], served in pages:
    [scroll] returns the [limit] points from [offset] on and, when more
    follow, the position of the next one. *)
Definition paged (name : jsstring) (pts : list stored_point) : DocClient :=
  {| list_collections := Ret [name];
     collection_info := fun _ => Ret (Stats.mkInfo (Some (length pts)));
     scroll_page := fun _ limit offset =>
       let start := default 0 offset in
       Ret (mkPage (Some (take limit (drop start pts)))
              (if Nat.ltb (start + limit) (length pts) then Some (start + limit) else None)) |}.

(** A service that never stops offering a next page of one point. *)
Definition endless (p : stored_point) (count : nat) : DocClient :=
  {| list_collections := Throw (lit "unreachable");
     collection_info := fun _ => Ret (Stats.mkInfo (Some count));
     scroll_page := fun _ _ _ => Ret (mkPage (Some [p]) (Some 1)) |}.

(** A point of the file [src] with the id [i]. *)
Definition stored_from (i : nat) (src : string) : stored_point :=
  mkStored i (Some (Stats.mkPayload (Some (mkMeta (Some (lit src)) None None)))).

End Documents.

(* ===================================================================== *)
(** ** Reference definitions for processFile and processBulkDocuments *)
(* ===================================================================== *)

Module RagRef.
Import JS.
Import Rag.

(** A text that does not start with white space. *)
Definition clean_start (s : jsstring) : Prop :=
  match s with
  | c :: _ => is_space c = false
  | [] => True
  end.

Section Ref.
Context {VS : Type}.
Variable C : collaborators VS.
Variable removeTimestamps : bool.

(** A file that the loop of processFile does not skip: its extraction
    throws, or gives a text with content. *)
Definition not_skipped (f : file) : bool :=
  match snd (extract C f removeTimestamps) with
  | Ret t => negb (no_content t)
  | Throw _ => true
  end.

(** The chunks the splitter makes of a file's text. *)
Definition chunks_of_file (f : file) : nat :=
  match snd (extract C f removeTimestamps) with
  | Ret t =>
      length (splitDocuments C [mkDocument t (mkMeta (Some (originalname f)) None None)])
  | Throw _ => 0
  end.

(** The progress events of the batches that are stored, batch [k] being
    the first of [bs]. *)
Fixpoint batch_events (bs : list (list Document)) (k total_batches totalChunks : nat)
  (s : VS) : list event :=
  match bs with
  | [] => []
  | batch :: bs' =>
      let chunks := splitDocuments C batch in
      match addDocuments C chunks s with
      | (Throw _, _) => []
      | (Ret _, s') =>
          BatchProgress (k + 1) total_batches (totalChunks + length chunks)
          :: batch_events bs' (S k) total_batches (totalChunks + length chunks) s'
      end
  end.

(** processText: chunk the text as one document from 'raw-text' and store
    the chunks; the catch logs, reports and rethrows. *)
Definition processText (text : jsstring) (w : world VS) : res nat * world VS :=
  let w := emit (LogInfo (lit "Processing raw text input.")) w in
  let w := emit (Progress (lit "Chunking text")) w in
  let docs := [mkDocument text (mkMeta (Some (lit "raw-text")) None None)] in
  let chunks := splitDocuments C docs in
  let w := emit (Progress (lit "Storing " ++ show_nat (length chunks) ++ lit " chunks")) w in
  match addDocuments C chunks (store w) with
  | (Throw e, s) =>
      (Throw e,
       emit (Progress (lit "Error: " ++ e))
         (emit (LogError (lit "Error processing raw text: " ++ e)) (mkWorld s (events w))))
  | (Ret _, s) =>
      let w := emit (LogInfo (lit "Successfully processed and stored raw text input."))
                 (mkWorld s (events w)) in
      let w := emit (Done (length chunks) [lit "raw-text"]) w in
      (Ret (length chunks), w)
  end.

End Ref.
End RagRef.

(* ===================================================================== *)
(** ** Reference definitions for listDocuments and deleteDocument *)
(* ===================================================================== *)

Module DocumentsRef.
Import JS.
Import Rag.
Import SourceName.
Import Documents.

(** The key under which a point with metadata is counted. *)
Definition key_of (md : metadata) : source_res :=
  cleanSourceName (SStr (or_else (source md) (lit "Unknown"))).

(** Whether a point is counted under the key [k]. *)
Definition counts_for (k : source_res) (p : stored_point) : bool :=
  match meta_of p with
  | Some md => bool_decide (key_of md = k)
  | None => false
  end.

(** The points counted under [k]. *)
Definition count_key (k : source_res) (pts : list stored_point) : nat :=
  length (List.filter (counts_for k) pts).

(** What the loop keeps true of the map once the points [seen] are through. *)
Definition grouped (ds : list document) (seen : list stored_point) : Prop :=
  NoDup (map doc_source ds)
  /\ (forall d, In d ds -> chunks d = count_key (doc_source d) seen)
  /\ (forall k, In k (map doc_source ds) <-> 0 < count_key k seen)
  /\ list_sum (map chunks ds)
     = length (List.filter (fun p => bool_decide (meta_of p <> None)) seen).

Section DeleteRef.

Variable decodeURIComponent : jsstring -> res jsstring.
Variable toLowerCase : jsstring -> jsstring.

(** Whether deleteDocument selects the point [p] for the normalized
    source [norm]. *)
Definition selected (norm : jsstring) (p : stored_point) : bool :=
  match stored_source p with
  | Some raw =>
      match normalize decodeURIComponent toLowerCase raw with
      | Ret storedSource => source_matches storedSource norm
      | Throw _ => false
      end
  | None => false
  end.

End DeleteRef.

(** A collection as the list of its points: [delete] removes the points
    whose id is listed. *)
Definition delete_listed (_ : jsstring) (ids : list nat) (st : list stored_point)
  : res unit * list stored_point :=
  (Ret tt, List.filter (fun p => negb (existsb (Nat.eqb (sp_id p)) ids)) st).

(** Sample built-ins for the examples: a decoder that rejects every string
    with a percent sign and returns the others as they are (they hold no
    escape), and the lower-casing of the letters A to Z. *)
Definition decode_plain (s : jsstring) : res jsstring :=
  if existsb (N.eqb 37) s then Throw (lit "URI malformed") else Ret s.

Definition lower_ascii (s : jsstring) : jsstring :=
  map (fun c => if (65 <=? c)%N && (c <=? 90)%N then (c + 32)%N else c) s.

(** Sample collections: three chunks of two files, and the same with a
    file whose name holds a percent sign. *)
Definition shelf : list stored_point :=
  [stored_from 1 "notes.txt"; stored_from 2 "a.pdf/"; stored_from 3 "A.pdf"].

Definition shelf_percent : list stored_point :=
  shelf ++ [stored_from 4 "100%.pdf"].

(** A stored point as getCollectionStats reads it: its payload. *)
Definition to_point (p : stored_point) : Stats.point := Stats.mkPoint (sp_payload p).

(** A service whose collection reports [count] vectors and whose [scroll]
    throws [e]. *)
Definition failing (e : jsstring) (count : nat) : DocClient :=
  {| list_collections := Throw e;
     collection_info := fun _ => Ret (Stats.mkInfo (Some count));
     scroll_page := fun _ _ _ => Throw e |}.

End DocumentsRef.

(* ===================================================================== *)
(** ** RAGService: the Qdrant Cloud connection *)
(* ===================================================================== *)

Module Cloud.
Import JS.
Import Rag.

(** The options a [QdrantVectorStore] is built with. *)
Record endpoint : Type := mkEndpoint {
  ep_url : option jsstring;
  ep_apiKey : option jsstring;
  ep_collectionName : jsstring
}.

(** [this.cloudConfig] *)
Record config : Type := mkConfig {
  cfg_url : jsstring;
  cfg_apiKey : jsstring;
  cfg_collectionName : jsstring
}.

(** The fields of the service that the connection functions read and
    write. *)
Record service : Type := mkService {
  collectionName : jsstring;
  isUsingCloud : bool;
  cloudConfig : option config;
  vectorStore : endpoint
}.

(** [process.env] *)
Record environment : Type := mkEnv {
  QDRANT_URL : option jsstring;
  QDRANT_COLLECTION : option jsstring
}.

(** [process.env.QDRANT_COLLECTION || 'documents'] *)
Definition env_collection (env : environment) : jsstring :=
  match QDRANT_COLLECTION env with
  | Some (c :: s) => c :: s
  | _ => lit "documents"
  end.

(** The constructor, as far as these fields go. *)
Definition constructor (env : environment) : service :=
  {| collectionName := env_collection env;
     isUsingCloud := false;
     cloudConfig := None;
     vectorStore := mkEndpoint (QDRANT_URL env) None (env_collection env) |}.

Record connected : Type := mkConnected {
  connected_url : jsstring;
  connected_collectionName : jsstring
}.

Record status : Type := mkStatus {
  status_isUsingCloud : bool;
  status_config : option (jsstring * jsstring)
}.

Definition msg_connect (e : jsstring) : jsstring :=
  lit "Failed to connect to Qdrant Cloud: " ++ e.

Definition msg_disconnect (e : jsstring) : jsstring :=
  lit "Failed to disconnect from Qdrant Cloud: " ++ e.

Section Connection.

(** [new QdrantVectorStore(embeddings, options)] and, on the store it
    returns, [client.getCollections()], for what they throw. *)
Variable new_store : endpoint -> res unit.
Variable getCollections : endpoint -> res unit.

(** connectToQdrantCloud; [collectionName] is [None] when the argument is
    left out or undefined, and the default parameter applies. *)
Definition connectToQdrantCloud (url apiKey : jsstring) (collectionName : option jsstring)
  (s : service) : res connected * service :=
  let collectionName := default (lit "documents") collectionName in
  let cloudVectorStore := mkEndpoint (Some url) (Some apiKey) collectionName in
  match new_store cloudVectorStore with
  | Throw e => (Throw (msg_connect e), s)
  | Ret _ =>
      match getCollections cloudVectorStore with
      | Throw e => (Throw (msg_connect e), s)
      | Ret _ =>
          (Ret (mkConnected url collectionName),
           {| collectionName := collectionName;
              isUsingCloud := true;
              cloudConfig := Some (mkConfig url apiKey collectionName);
              vectorStore := cloudVectorStore |})
      end
  end.

(** disconnectFromQdrantCloud *)
Definition disconnectFromQdrantCloud (env : environment) (s : service)
  : res unit * service :=
  let local := mkEndpoint (QDRANT_URL env) None (env_collection env) in
  match new_store local with
  | Throw e => (Throw (msg_disconnect e), s)
  | Ret _ =>
      (Ret tt,
       {| collectionName := env_collection env;
          isUsingCloud := false;
          cloudConfig := None;
          vectorStore := local |})
  end.

(** getQdrantCloudStatus *)
Definition getQdrantCloudStatus (s : service) : status :=
  mkStatus (isUsingCloud s)
    (match cloudConfig s with
     | Some c => Some (cfg_url c, cfg_collectionName c)
     | None => None
     end).

(** The calls a client can make. *)
Inductive call : Type :=
| Connect (url apiKey : jsstring) (collectionName : option jsstring)
| Disconnect.

Definition run_call (env : environment) (c : call) (s : service) : service :=
  match c with
  | Connect url apiKey name => snd (connectToQdrantCloud url apiKey name s)
  | Disconnect => snd (disconnectFromQdrantCloud env s)
  end.

(** The service after a sequence of calls, from its construction on. *)
Definition run_calls (env : environment) (calls : list call) : service :=
  foldl (fun s c => run_call env c s) (constructor env) calls.

(** The fields agree: the store is the one of the collection in use, and
    the service says it uses the cloud exactly when it holds a cloud
    configuration, which is then the one its store was built with. *)
Definition coherent (env : environment) (s : service) : Prop :=
  ep_collectionName (vectorStore s) = collectionName s
  /\ match cloudConfig s with
     | Some c =>
         isUsingCloud s = true
         /\ vectorStore s = mkEndpoint (Some (cfg_url c)) (Some (cfg_apiKey c))
                              (cfg_collectionName c)
     | None =>
         isUsingCloud s = false
         /\ vectorStore s = mkEndpoint (QDRANT_URL env) None (env_collection env)
     end.

End Connection.

(** A cloud that accepts every store but those of the url [bad]. *)
Definition reject_url (bad : jsstring) (ep : endpoint) : res unit :=
  if bool_decide (ep_url ep = Some bad) then Throw (lit "ECONNREFUSED") else Ret tt.

Definition accept (_ : endpoint) : res unit := Ret tt.

End Cloud.

(* ===================================================================== *)
(** * Properties *)
(* ===================================================================== *)

Import JS.

(** ** Numbers *)

Example Math_round_ties_up :
  map Math_round [2.5; 3.5; -2.5; 0.5; -0.5; 7; 501.5]%float = [3; 4; -2; 1; -0; 7; 502]%float.
Proof. vm_compute. reflexivity. Qed.

(** The quotient and the product of the estimate are rounded doubles:
    500 sources in a sample of 1000 out of 1001 vectors give 500, not the
    501 of exact arithmetic. *)
Example estimate_is_floating_point :
  Math_round (num 500 * (num 1001 / num 1000))%float = 500%float.
Proof. vm_compute. reflexivity. Qed.

(** ** getOptimalTopK *)

Section TopKFacts.
Import TopK.

Lemma positive_is_truthy (x : float) : (0 <? x)%float = true -> truthy_num x = true.
Proof.
  unfold truthy_num, PrimFloat.is_zero, PrimFloat.is_nan.
  rewrite FloatAxioms.ltb_spec, !FloatAxioms.eqb_spec.
  change (Prim2SF 0) with (S754_zero false).
  change (Prim2SF zero) with (S754_zero false).
  destruct (Prim2SF x) as [s | s | | s m e]; cbn; try discriminate.
  - destruct s; [discriminate | reflexivity].
  - destruct s; [discriminate |]. intros _.
    unfold SFeqb; cbn. rewrite Z.compare_refl, Pos.compare_cont_refl. reflexivity.
Qed.

Lemma override_accepted_in_range (userTopK : override) :
  override_accepted userTopK = in_range userTopK.
Proof.
  destruct userTopK as [ | | x]; cbn; try reflexivity.
  destruct (0 <? x)%float eqn:Hpos.
  - rewrite (positive_is_truthy x Hpos). reflexivity.
  - rewrite andb_false_r. reflexivity.
Qed.

Lemma classify_values (query : jsstring) :
  classify query = 3%float \/ classify query = 6%float
  \/ classify query = 8%float \/ classify query = 10%float.
Proof.
  unfold classify.
  repeat match goal with |- context [if ?b then _ else _] => destruct b end; auto.
Qed.


(** The function, with the override test read as the range test. *)
Lemma getOptimalTopK_cases (query : jsstring) (userTopK : override) :
  getOptimalTopK query userTopK
  = match userTopK with
    | ONum x => if in_range userTopK then x else classify query
    | _ => classify query
    end.
Proof. unfold getOptimalTopK. rewrite override_accepted_in_range. reflexivity. Qed.



(** The override is what comes back only when it was in range. *)
Lemma getOptimalTopK_returns_override_iff (query : jsstring) (userTopK : override) :
  ONum (getOptimalTopK query userTopK) = userTopK <-> in_range userTopK = true.
Proof.
  destruct userTopK as [ | | x]; cbn [in_range]; try (split; discriminate).
  rewrite getOptimalTopK_cases.
  destruct (in_range (ONum x)) eqn:Hr; cbn [in_range] in Hr; rewrite Hr.
  - split; reflexivity.
  - split; [| discriminate]. intros [= Heq]. subst x.
    destruct (classify_values query) as [E | [E | [E | E]]]; rewrite E in Hr; discriminate.
Qed.

(** The queries of the test script, with no override and with override 5. *)
Example topk_test_queries :
  map (fun q => (getOptimalTopK (lit q) ONull, getOptimalTopK (lit q) (ONum 5)))
    [ "What is Python?";
      "How does machine learning work and what are the key algorithms?";
      "Explain the difference between supervised and unsupervised learning with examples";
      "What are the benefits of using Docker containers in microservices architecture?";
      "Compare and contrast REST APIs vs GraphQL, including performance implications and use cases" ]%string
  = [ (6, 5); (8, 5); (8, 5); (10, 5); (6, 5) ]%float.
Proof. vm_compute. reflexivity. Qed.

Example topk_out_of_range :
  map (getOptimalTopK (lit "show me")) [ONum 0; ONum 21; ONum (-3); ONum nan; OUndefined; ONum 20]
  = [3; 3; 3; 3; 3; 20]%float.
Proof. vm_compute. reflexivity. Qed.

End TopKFacts.

(** ** cleanSourceName *)

Section SourceNameFacts.
Import SourceName.

Lemma startsWith_length (s p : jsstring) :
  startsWith s p = true -> length p <= length s.
Proof.
  revert s. induction p as [| c p IH]; intros [| d s]; cbn; try lia; try discriminate.
  intros H. apply andb_true_iff in H as [_ H]. apply IH in H. lia.
Qed.

Lemma includes_after_first (s sep : jsstring) :
  includes s sep = true <-> is_Some (after_first sep s).
Proof.
  induction s as [| c s IH]; cbn [includes after_first].
  - destruct (startsWith [] sep); cbn [orb]; split; eauto; try discriminate.
    intros H. destruct (is_Some_None H).
  - destruct (startsWith (c :: s) sep); cbn [orb]; [split; eauto |]. exact IH.
Qed.

(** A matched separator is skipped whole. *)
Lemma split_go_skip (sep s : jsstring) (k : nat) (cur : jsstring) :
  k <= length s -> split_go sep s k cur = split_go sep (drop k s) 0 cur.
Proof.
  revert k. induction s as [| c s IH]; intros [| k] Hk; cbn in *; try reflexivity; try lia.
  apply IH. lia.
Qed.

(** The first piece of a split ends where the separator first occurs. *)
Lemma split_go_first (sep s cur : jsstring) :
  exists rest, split_go sep s 0 cur = (rev cur ++ before_first sep s) :: rest.
Proof.
  revert cur. induction s as [| c s IH]; intros cur.
  - exists []. cbn [split_go before_first].
    destruct (startsWith [] sep); rewrite app_nil_r; reflexivity.
  - cbn [split_go before_first]. destruct (startsWith (c :: s) sep).
    + eexists. rewrite app_nil_r. reflexivity.
    + destruct (IH (c :: cur)) as [rest ->]. exists rest.
      cbn [rev]. rewrite <- app_assoc. reflexivity.
Qed.

(** The second piece of a split is what lies between the first occurrence
    of the separator and the next one. *)
Lemma split_second (sep s t : jsstring) :
  sep <> [] -> after_first sep s = Some t ->
  split s sep !! 1%nat = Some (before_first sep t).
Proof.
  intros Hsep. unfold split. generalize (@nil N) as cur.
  induction s as [| c s IH]; intros cur Ht.
  - cbn in Ht. destruct sep; [congruence | discriminate].
  - cbn [split_go after_first] in *. destruct (startsWith (c :: s) sep) eqn:Hst.
    + injection Ht as <-. destruct sep as [| a sep]; [congruence |].
      apply startsWith_length in Hst. cbn in Hst.
      cbn [length Nat.pred drop]. rewrite split_go_skip by lia.
      destruct (split_go_first (a :: sep) (drop (length sep) s) []) as [rest ->].
      reflexivity.
    + apply IH. exact Ht.
Qed.

(** What the function does on a path that has the marker: it returns the
    text between the first occurrence of the marker and the next one. *)
Lemma cleanSourceName_marker (s t : jsstring) :
  after_first marker s = Some t ->
  cleanSourceName (SStr s) = RStr (before_first marker t).
Proof.
  intros Ht. assert (Hinc : includes s marker = true).
  { apply includes_after_first. eauto. }
  destruct s as [| c s]; [cbn in Ht; discriminate |].
  unfold cleanSourceName. rewrite Hinc.
  rewrite (split_second marker (c :: s) t); [reflexivity | discriminate | exact Ht].
Qed.

(** With a single occurrence of the marker, that is all that follows it. *)
Lemma before_first_absent (sep s : jsstring) :
  includes s sep = false -> before_first sep s = s.
Proof.
  induction s as [| c s IH]; cbn [includes before_first]; intros H;
    apply orb_false_iff in H as [-> H].
  - reflexivity.
  - rewrite IH by exact H. reflexivity.
Qed.

Lemma cleanSourceName_single_marker (s t : jsstring) :
  after_first marker s = Some t -> includes t marker = false ->
  cleanSourceName (SStr s) = RStr t.
Proof.
  intros Ht Hno. rewrite (cleanSourceName_marker s t Ht).
  rewrite before_first_absent by exact Hno. reflexivity.
Qed.

Lemma cleanSourceName_unknown :
  cleanSourceName SNull = RStr Unknown /\ cleanSourceName SUndefined = RStr Unknown
  /\ cleanSourceName (SStr []) = RStr Unknown.
Proof. repeat split. Qed.

(** Without the marker: the last segment, or the path when that is empty. *)
Lemma cleanSourceName_basename (s : jsstring) :
  s <> [] -> includes s marker = false ->
  cleanSourceName (SStr s)
  = RStr (match last (split_class is_slash s) with
          | Some (c :: seg) => c :: seg
          | _ => s
          end).
Proof.
  intros Hs Hno. destruct s as [| c s]; [congruence |].
  unfold cleanSourceName, pop. rewrite Hno.
  destruct (last _) as [[| d seg] |]; reflexivity.
Qed.

(** C10: on a path in which the marker occurs twice, cleanSourceName returns
    the piece between the two occurrences, not everything after the first. *)
Theorem cleanSourceName_repeated_marker :
  cleanSourceName (SStr (lit "D:\data\split 11\backup\split 11\report.pdf"))
  = RStr (lit "backup\")
  /\ after_first marker (lit "D:\data\split 11\backup\split 11\report.pdf")
     = Some (lit "backup\split 11\report.pdf")
  /\ cleanSourceName (SStr (lit "C:\split 11\split 11\file.pdf")) = RStr [].
Proof. vm_compute. repeat split. Qed.

(** The paths of the test script. *)
Example cleanSourceName_test_cases :
  map (fun p => cleanSourceName (SStr (lit p)))
    [ "C:\Users\User\Desktop\github projects\pulmo-superbot\assets\split 11\Page_0278_CHAPTER_17.pdf";
      "C:\Users\User\Desktop\github projects\pulmo-superbot\assets\split 12\Page_0001_CHAPTER_1_Introduction.pdf";
      "C:\Users\User\Desktop\github projects\pulmo-superbot\assets\other_folder\document.pdf";
      "/home/user/documents/split 11/file.pdf";
      "D:\data\medical\split 11\patient_report.pdf";
      "simple_file.pdf";
      "folder/subfolder/document.txt" ]%string
  = map (fun p => RStr (lit p))
      [ "Page_0278_CHAPTER_17.pdf"; "Page_0001_CHAPTER_1_Introduction.pdf"; "document.pdf";
        "file.pdf"; "patient_report.pdf"; "simple_file.pdf"; "document.txt" ]%string.
Proof. vm_compute. reflexivity. Qed.

End SourceNameFacts.

(** ** checkStatus and clearErrors *)

Section ManifestFacts.
Import Manifest.

Lemma to_double_small (z : Z) :
  (Z.abs z < 9007199254740992)%Z -> to_double z = z.
Proof.
  intros Hz. unfold to_double. cbv zeta.
  destruct (Z.ltb_spec (Z.abs z) 9007199254740992); [reflexivity | lia].
Qed.

Lemma sum_nonneg (zs : list Z) :
  Forall (fun z => 0 <= z)%Z zs -> (0 <= fold_right Z.add 0 zs)%Z.
Proof.
  induction 1 as [| z zs Hz _ IH]; cbn [fold_right]; lia.
Qed.

(** Non-negative integers whose sum fits are added without an overflow. *)
Lemma add_int64_nonneg (zs : list Z) :
  forall acc,
    Forall (fun z => 0 <= z)%Z zs -> (0 <= acc)%Z ->
    (acc + fold_right Z.add 0 zs <= 9223372036854775807)%Z ->
    add_int64 acc zs = Some (acc + fold_right Z.add 0 zs)%Z.
Proof.
  induction zs as [| z zs IH]; intros acc Hzs Hacc Hfit; cbn [add_int64 fold_right] in *.
  - f_equal. lia.
  - apply Forall_cons in Hzs as [Hz Hzs]. pose proof (sum_nonneg zs Hzs) as Hrest.
    unfold in_int64.
    destruct (Z.leb_spec (-9223372036854775808) (acc + z)); [| lia].
    destruct (Z.leb_spec (acc + z) 9223372036854775807); [| lia].
    cbn [andb]. rewrite IH by (assumption || lia). f_equal. lia.
Qed.

(** The values of CASE ... THEN 1 ELSE 0 are integers, and their sum is the
    number of rows of the case. *)
Lemma integers_cases (E : engine) (c : row -> option bool) (db : table) :
  integers E (map (fun r => case_1_0 (c r)) db)
  = Some (map (fun r => if holds (c r) then 1 else 0)%Z db).
Proof.
  induction db as [| r db IH]; cbn [map]; [reflexivity |].
  unfold case_1_0 at 1. destruct (holds (c r)); cbn [integers]; rewrite IH; reflexivity.
Qed.

Lemma cases_sum (c : row -> option bool) (db : table) :
  fold_right Z.add 0%Z (map (fun r => if holds (c r) then 1 else 0)%Z db)
  = Z.of_nat (length (List.filter (fun r => holds (c r)) db)).
Proof.
  induction db as [| r db IH]; cbn [map fold_right List.filter]; [reflexivity |].
  rewrite IH. destruct (holds (c r)); cbn [length]; lia.
Qed.

Lemma cases_nonneg (c : row -> option bool) (db : table) :
  Forall (fun z => 0 <= z)%Z (map (fun r => if holds (c r) then 1 else 0)%Z db).
Proof.
  apply Forall_map, Forall_forall. intros r _. destruct (holds (c r)); lia.
Qed.

(** A sum of CASE ... THEN 1 ELSE 0 counts the rows of the case, as long as
    JavaScript can hold the number of rows. *)
Lemma SUM_case_counts (E : engine) (c : row -> option bool) (db : table) :
  (Z.of_nat (length db) < 9007199254740992)%Z ->
  exists v,
    column_value (SUM E (map (fun r => case_1_0 (c r)) db)) = Some v
    /\ or0 v = NumInt (Z.of_nat (length (List.filter (fun r => holds (c r)) db))).
Proof.
  intros Hlen. unfold SUM. rewrite integers_cases.
  pose proof (List.filter_length_le (fun r => holds (c r)) db) as Hle.
  pose proof (cases_sum c db) as Hsum. pose proof (cases_nonneg c db) as Hpos.
  destruct db as [| r db]; [exists None; split; reflexivity |].
  remember (r :: db) as rows eqn:Hrows.
  destruct (map (fun r => if holds (c r) then 1 else 0)%Z rows) as [| z zs] eqn:Hmap;
    [subst rows; discriminate |].
  rewrite add_int64_nonneg by (assumption || lia).
  rewrite Z.add_0_l, Hsum. cbn [column_value]. eexists. split; [reflexivity |].
  cbn [or0]. rewrite to_double_small by lia. reflexivity.
Qed.



Lemma filter_length_ext {A} (f g : A -> bool) (l : list A) :
  (forall x, f x = g x) -> length (List.filter f l) = length (List.filter g l).
Proof.
  intros H. induction l as [| x l IH]; cbn; [reflexivity |].
  rewrite H. destruct (g x); cbn; rewrite IH; reflexivity.
Qed.

Lemma holds_eq_literal (r : row) (s : string) :
  holds (sql_eq (status r) (sq s)) = has_status s r.
Proof.
  unfold has_status, sq. destruct (status r) as [| z | t]; cbn; try reflexivity.
  destruct (String.eqb t s); reflexivity.
Qed.

Lemma holds_in_pending (r : row) :
  holds (sql_in (status r) [sq "queued"; sq "processing"])
  = has_status "queued" r || has_status "processing" r.
Proof.
  unfold has_status, sq. destruct (status r) as [| z | t]; cbn; try reflexivity.
  destruct (String.eqb t "queued"), (String.eqb t "processing"); reflexivity.
Qed.




(** In [status = "error"] the quoted token names the column [error],
    whatever the SQLITE_DQS option: the row is selected when its status
    and its error message are the same text. *)
Lemma where_status_dq_error_column (dqs : bool) (r : row) :
  where_status_dq_error dqs r = holds (sql_eq (status r) (error r)).
Proof. reflexivity. Qed.

Lemma filter_none {A} (f : A -> bool) (l : list A) :
  Forall (fun x => f x = false) l -> List.filter f l = [].
Proof.
  induction 1 as [| x l Hx _ IH]; [reflexivity |].
  cbn. rewrite Hx. exact IH.
Qed.

(** On a manifest none of whose rows has its error message equal to its
    status, clearErrors finds nothing and changes nothing. *)
Lemma clearErrors_noop (dqs : bool) (db : table) :
  Forall (fun r => holds (sql_eq (status r) (error r)) = false) db ->
  clearErrors dqs db = mkRun db None [Clearing; Found 0; NoErrorsToClear].
Proof.
  intros Hdb. unfold clearErrors, select_error_count.
  change (dq_prepares dqs "error") with true. cbv iota.
  rewrite (filter_none (where_status_dq_error dqs) db); [reflexivity |].
  eapply Forall_impl; [exact Hdb |]. intros r Hr. exact Hr.
Qed.

(** No run of clearErrors changes a timestamp. *)
Lemma update_row_updated_at (dqs : bool) (r : row) :
  updated_at (update_row dqs r) = updated_at r.
Proof.
  unfold update_row. destruct (where_status_dq_error dqs r); [| reflexivity].
  destruct (dq dqs "queued" r); reflexivity.
Qed.

Lemma clearErrors_keeps_updated_at (dqs : bool) (db : table) :
  map updated_at (db_after (clearErrors dqs db)) = map updated_at db.
Proof.
  unfold clearErrors. destruct (select_error_count dqs db) as [count |]; [| reflexivity].
  destruct (count =? 0)%Z; [reflexivity |].
  unfold update_reset. destruct (dq_prepares dqs "queued" && dq_prepares dqs "error");
    [| reflexivity].
  cbn [db_after]. rewrite map_map. apply map_ext. intros r. apply update_row_updated_at.
Qed.

Lemma lookup_map {A B} (f : A -> B) (l : list A) (i : nat) :
  map f l !! i = option_map f (l !! i).
Proof.
  revert i. induction l as [| x l IH]; intros [| i]; cbn; try reflexivity. apply IH.
Qed.

(** The operation as the specification words it does what C4 asks. *)
Lemma resetErrorsToQueued_spec_correct (db : table) :
  let '(n, db') := resetErrorsToQueued_spec db in
  n = length (List.filter is_error db)
  /\ length db' = length db
  /\ (forall i r, db !! i = Some r -> is_error r = true ->
        exists r', db' !! i = Some r' /\ status r' = VText "queued" /\ error r' = VNull
                   /\ path r' = path r /\ chunks_count r' = chunks_count r)
  /\ (forall i r, db !! i = Some r -> is_error r = false -> db' !! i = Some r)
  /\ (n = 0%nat -> db' = db).
Proof.
  cbn. split; [reflexivity |]. repeat split.
  - apply length_map.
  - intros i r Hi Hr. exists (reset_row_spec r). rewrite lookup_map, Hi.
    cbn [option_map]. unfold reset_row_spec. rewrite Hr. repeat split.
  - intros i r Hi Hr. rewrite lookup_map, Hi. cbn [option_map].
    unfold reset_row_spec. rewrite Hr. reflexivity.
  - induction db as [| r db IH]; [reflexivity |].
    cbn [List.filter map]. unfold reset_row_spec at 1.
    destruct (is_error r); [discriminate |].
    intros Hn. rewrite (IH Hn). reflexivity.
Qed.

(** C4: clearErrors does not reset a file in error: a manifest whose only
    entry has status error and a failure message keeps that entry, and the
    script reports that there is nothing to clear; the operation of the
    claim resets it and counts 1. *)
Theorem clearErrors_misses_error_rows (dqs : bool) :
  clearErrors dqs [failed_scan] = mkRun [failed_scan] None [Clearing; Found 0; NoErrorsToClear]
  /\ resetErrorsToQueued_spec [failed_scan]
     = (1%nat, [ mkRow (path failed_scan) (VText "queued") (chunks_count failed_scan)
                   VNull (updated_at failed_scan) ]).
Proof. split; reflexivity. Qed.

(** Where double-quoted literals are not accepted, the UPDATE is refused
    and the row stays in error. *)
Example clearErrors_without_dqs :
  clearErrors false [failed_plain]
  = mkRun [failed_plain] None [Clearing; Found 1; ErrorClearing "queued"].
Proof. reflexivity. Qed.

End ManifestFacts.

Section ManifestExamples.
Import Manifest.



(** One file of 2^53 + 1 chunks: the total printed is 2^53. *)
Example checkStatus_chunk_total_rounded :
  checkStatus sqlite_sample [odd_file]
  = [ TotalFiles (NumInt 1); Completed (NumInt 1); Errors (NumInt 0); Pending (NumInt 0);
      TotalChunks (NumInt 9007199254740992) ].
Proof. vm_compute. reflexivity. Qed.

(** A chunk count that is a text: the numeral '5' is added as an integer;
    with '12abc' the sum is made in floating point, where the text counts
    for 12. *)
Example checkStatus_text_counts :
  map (fun t => last (checkStatus sqlite_sample
                        [ mkRow (VText "a.pdf") (VText "completed") (VText t) VNull VNull;
                          done_file 5 ]))
    ["5"%string; "12abc"%string]
  = [Some (TotalChunks (NumInt 10)); Some (TotalChunks (NumReal 17))].
Proof. vm_compute. reflexivity. Qed.

(** [to_double] beside the conversion of the primitive floats. *)
Example to_double_samples :
  map (fun z => PrimFloat.eqb (PrimFloat.of_uint63 (Uint63.of_Z z))
                  (PrimFloat.of_uint63 (Uint63.of_Z (to_double z)))
                && negb (Z.eqb z (to_double z)))
    [9007199254740993; 9007199254740995; 4611686018427387903; 36028797018963969]%Z
  = [true; true; true; true].
Proof. vm_compute. reflexivity. Qed.

End ManifestExamples.

(** ** processFile *)

Section ProcessFileFacts.
Import Rag.

Context {VS : Type}.
Variable C : collaborators VS.
Variable removeTimestamps : bool.

Lemma store_emit (e : event) (w : world VS) : store (emit e w) = store w.
Proof. reflexivity. Qed.

Lemma store_emit_all (es : list event) (w : world VS) : store (emit_all es w) = store w.
Proof. reflexivity. Qed.

(** A file without content: nothing is counted, listed or stored; the
    warning is emitted and the loop goes on with the next file. *)
Lemma files_loop_no_content (n i : nat) (f : file) (rest : list file) (tc : nat)
  (srcs : list jsstring) (w : world VS) (t : jsstring) :
  snd (extract C f removeTimestamps) = Ret t -> no_content t = true ->
  files_loop C removeTimestamps n i (f :: rest) tc srcs w
  = files_loop C removeTimestamps n (S i) rest tc srcs
      (emit (Progress (msg_warning (originalname f)))
         (emit_all (fst (extract C f removeTimestamps))
            (emit (Progress (msg_processing i n (originalname f))) w))).
Proof.
  intros He Hb. cbn [files_loop].
  destruct (extract C f removeTimestamps) as [notes text]. cbn [fst snd] in *.
  subst text. rewrite Hb. reflexivity.
Qed.



(** A batch in which no file has content throws the same exception. *)
Lemma processFile_all_without_content (l : list file) (w : world VS) :
  Forall (fun f => exists t, snd (extract C f removeTimestamps) = Ret t
                             /\ no_content t = true) l ->
  outcome (processFile C (Files l) removeTimestamps w) = (Throw msg_no_text, store w).
Proof.
  intros Hl. unfold processFile. cbn [fileArray].
  assert (Hloop : forall n i w,
             exists w', files_loop C removeTimestamps n i l 0 [] w = (Ret (0, []), w')
                        /\ store w' = store w).
  { induction Hl as [| f l [t [He Hb]] _ IH]; intros n i w'.
    - eexists. split; reflexivity.
    - rewrite (files_loop_no_content _ _ _ _ _ _ _ t He Hb).
      destruct (IH n (S i) (emit (Progress (msg_warning (originalname f)))
         (emit_all (fst (extract C f removeTimestamps))
            (emit (Progress (msg_processing i n (originalname f))) w')))) as [w'' [-> Hs]].
      exists w''. split; [reflexivity | exact Hs]. }
  destruct (Hloop (length l) 0 w) as [w' [-> Hs]].
  unfold outcome. cbn. f_equal. exact Hs.
Qed.

(** C2 (amended): a file whose extracted text is empty or only white space
    adds no chunk and no source and leaves the store as it is; the warning
    is emitted and the loop goes on with the next file. When every file of
    the upload is such a file, as when one is uploaded on its own, the call
    throws "No extractable text content found in any of the uploaded
    files" and the store is as before. *)
Theorem processFile_no_content_skipped (f : file) (t : jsstring) :
  snd (extract C f removeTimestamps) = Ret t -> no_content t = true ->
  (forall n i rest tc srcs w,
     files_loop C removeTimestamps n i (f :: rest) tc srcs w
     = files_loop C removeTimestamps n (S i) rest tc srcs
         (emit (Progress (msg_warning (originalname f)))
            (emit_all (fst (extract C f removeTimestamps))
               (emit (Progress (msg_processing i n (originalname f))) w))))
  /\ (forall others w,
        Forall (fun g => exists u, snd (extract C g removeTimestamps) = Ret u
                                   /\ no_content u = true) others ->
        outcome (processFile C (Files (f :: others)) removeTimestamps w)
        = (Throw msg_no_text, store w))
  /\ (forall w, outcome (processFile C (OneFile f) removeTimestamps w)
                = (Throw msg_no_text, store w)).
Proof.
  intros He Hb. split; [| split].
  - intros. apply files_loop_no_content with (t := t); assumption.
  - intros others w Hothers. apply processFile_all_without_content.
    constructor; [exists t; split; assumption | exact Hothers].
  - intros w. unfold processFile. cbn [fileArray length].
    rewrite (files_loop_no_content _ _ _ _ _ _ _ t He Hb).
    reflexivity.
Qed.


End ProcessFileFacts.

Section ProcessFileExamples.
Import Rag.

(** C2, counterexample: a text file of three spaces, uploaded on its own,
    makes processFile throw. *)
Lemma processFile_blank_upload_throws :
  snd (extract demo blank_txt false) = Ret (lit "   ")
  /\ no_content (lit "   ") = true
  /\ fst (processFile demo (OneFile blank_txt) false w0) = Throw msg_no_text.
Proof. vm_compute. repeat split. Qed.

Lemma processFile_no_content_skipped_witness :
  (forall n i rest tc srcs w,
     files_loop demo false n i (blank_txt :: rest) tc srcs w
     = files_loop demo false n (S i) rest tc srcs
         (emit (Progress (msg_warning (originalname blank_txt)))
            (emit_all (fst (extract demo blank_txt false))
               (emit (Progress (msg_processing i n (originalname blank_txt))) w))))
  /\ (forall others w,
        Forall (fun g => exists u, snd (extract demo g false) = Ret u
                                   /\ no_content u = true) others ->
        outcome (processFile demo (Files (blank_txt :: others)) false w)
        = (Throw msg_no_text, store w))
  /\ (forall w, outcome (processFile demo (OneFile blank_txt) false w)
                = (Throw msg_no_text, store w)).
Proof.
  apply (processFile_no_content_skipped demo false blank_txt (lit "   ")).
  - vm_compute. reflexivity.
  - vm_compute. reflexivity.
Defined.

(** A file without content before a corrupt one: the call throws what the
    parser threw, not the message of an upload without content. *)
Example processFile_blank_then_corrupt :
  fst (processFile demo (Files [blank_txt; corrupt_b]) false w0)
  = Throw (lit "Invalid PDF structure").
Proof. vm_compute. reflexivity. Qed.



(** The events of that upload: the two files, the logged error and the
    error on the channel; nothing of the third file. *)
Example processFile_corrupt_file_events :
  events (snd (processFile demo (Files [good_a; corrupt_b; good_c]) false w0))
  = [ Progress (lit "Processing file 1/3: a.txt"); Progress (lit "Reading text file");
      Progress (lit "Chunking content from a.txt");
      Progress (lit "Storing 1 chunks from a.txt");
      Progress (lit "Processing file 2/3: b.pdf"); Progress (lit "Extracting text from PDF");
      LogError (lit "Error processing files: Invalid PDF structure");
      Progress (lit "Error: Invalid PDF structure") ].
Proof. vm_compute. reflexivity. Qed.

(** A VTT file with and without its timestamps, and a CSV file. *)
Example vtt_without_timestamps :
  processSubtitleContent
    (lit "WEBVTT" ++ [10; 10] ++ lit "1" ++ [10] ++ lit "00:00:01.000 --> 00:00:02.500"
     ++ [10] ++ lit "  Hello there " ++ [10; 10] ++ lit "2" ++ [10]
     ++ lit "00:00:03.000 --> 00:00:04.000" ++ [10] ++ lit "Bye")%N vtt true
  = (lit "Hello there" ++ [10] ++ lit "Bye")%N.
Proof. vm_compute. reflexivity. Qed.

Example srt_with_timestamps :
  processSubtitleContent
    (lit "1" ++ [10] ++ lit "00:00:01,000 --> 00:00:02,500" ++ [10] ++ lit "Hello" ++ [10])%N
    srt false
  = (lit "1" ++ [10] ++ lit "00:00:01,000 --> 00:00:02,500" ++ [10] ++ lit "Hello")%N.
Proof. vm_compute. reflexivity. Qed.

Example csv_fields :
  csv_to_text (lit "name, age" ++ [10] ++ [34] ++ lit "Ann" ++ [34] ++ lit ",31")%N
  = (lit "name | age" ++ [10] ++ lit "Ann | 31")%N.
Proof. vm_compute. reflexivity. Qed.

(** The branch of each kind of upload. *)
Example extract_branches :
  map (fun f => snd (extract demo f false))
    [ mkFile (lit "r.pdf") (lit "application/pdf") (lit "%PDFbody");
      mkFile (lit "notes.md") (lit "application/octet-stream") (lit "# title");
      mkFile (lit "pic.png") (lit "image/png") (lit "....") ]
  = [ Ret (lit "body"); Ret (lit "# title");
      Throw (lit "Unsupported file type: image/png (pic.png)") ].
Proof. vm_compute. reflexivity. Qed.

End ProcessFileExamples.

(** ** processBulkDocuments *)

Section BulkFacts.
Import Rag.

Context {VS : Type}.
Variable C : collaborators VS.

Lemma rebuild_documents (l : list Document) :
  map (fun doc => mkDocument (pageContent doc) (doc_metadata doc)) l = l.
Proof.
  induction l as [| [pc md] l IH]; cbn; [reflexivity | rewrite IH; reflexivity].
Qed.

(** More fuel than the list is long changes nothing. *)
Lemma batches_go_fuel {A} (b : nat) (f1 f2 : nat) (l : list A) :
  0 < b -> length l <= f1 -> length l <= f2 ->
  batches_go f1 b l = batches_go f2 b l.
Proof.
  intros Hb. revert f2 l. induction f1 as [| f1 IH]; intros f2 [| x l] H1 H2;
    destruct f2 as [| f2]; cbn [batches_go length] in *; try reflexivity; try lia.
  f_equal. apply IH; rewrite length_drop; cbn [length]; lia.
Qed.

Lemma batches_cons {A} (b : nat) (x : A) (l : list A) :
  0 < b -> batches b (x :: l) = take b (x :: l) :: batches b (drop b (x :: l)).
Proof.
  intros Hb. unfold batches. cbn [length batches_go]. f_equal.
  apply batches_go_fuel; [exact Hb | | lia].
  rewrite length_drop. cbn [length]. lia.
Qed.

(** The batches, one after the other, are the list. *)
Lemma batches_concat {A} (b : nat) (l : list A) : 0 < b -> concat (batches b l) = l.
Proof.
  intros Hb. remember (length l) as n eqn:Hn.
  assert (Hle : length l <= n) by lia. clear Hn.
  revert l Hle. induction n as [| n IH]; intros [| x l] Hle; cbn [length] in Hle;
    try reflexivity; try lia.
  rewrite batches_cons by exact Hb. cbn [concat].
  rewrite IH; [apply take_drop |].
  rewrite length_drop. cbn [length]. lia.
Qed.

(** Batch [k] is the window of [b] documents that starts at [k * b]; it is
    never empty. *)
Lemma batches_lookup {A} (b : nat) (l : list A) (k : nat) (g : list A) :
  0 < b -> batches b l !! k = Some g -> g = take b (drop (k * b) l) /\ g <> [].
Proof.
  intros Hb. remember (length l) as n eqn:Hn.
  assert (Hle : length l <= n) by lia. clear Hn.
  revert l k Hle. induction n as [| n IH]; intros [| x l] k Hle; cbn [length] in Hle;
    try discriminate; try lia.
  rewrite batches_cons by exact Hb. destruct k as [| k]; cbn [lookup list_lookup].
  - intros [= <-]. split; [reflexivity |].
    destruct b; [lia | discriminate].
  - intros Hk. apply IH in Hk; [| rewrite length_drop; cbn [length]; lia].
    destruct Hk as [-> Hne]. split; [| exact Hne].
    rewrite drop_drop. replace (b + k * b) with (S k * b) by lia. reflexivity.
Qed.

(** The chunks counted by a run that stores every batch. *)
Lemma store_batches_total (bs : list (list Document)) (total n : nat) (s : VS) :
  fst (store_batches C bs total s) = Ret n -> n = total + chunks_of_batches C bs.
Proof.
  revert total s. induction bs as [| batch bs IH]; intros total s; cbn [store_batches].
  - intros [= <-]. unfold chunks_of_batches. cbn. lia.
  - destruct (addDocuments C _ s) as [[u | e] s']; [| discriminate].
    intros H. apply IH in H. unfold chunks_of_batches, list_sum in *.
    cbn [map fold_right]. lia.
Qed.

(** The loop from index [i] stores the batches of the documents from [i]
    on. *)
Lemma bulk_loop_batches (documents : list Document) (b : nat) :
  0 < b ->
  forall fuel i total w,
    length documents - i <= fuel ->
    exists evs,
      bulk_loop C fuel documents b i total w
      = Some (fst (store_batches C (batches b (drop i documents)) total (store w)),
              mkWorld (snd (store_batches C (batches b (drop i documents)) total (store w)))
                evs).
Proof.
  intros Hb. induction fuel as [| fuel IH]; intros i total w Hfuel.
  - cbn [bulk_loop]. destruct (Nat.ltb_spec i (length documents)) as [Hlt | Hge]; [lia |].
    rewrite drop_ge by lia. exists (events w). destruct w; reflexivity.
  - cbn [bulk_loop]. destruct (Nat.ltb_spec i (length documents)) as [Hlt | Hge].
    + unfold slice. replace (i + b - i) with b by lia.
      rewrite rebuild_documents.
      destruct (drop i documents) as [| d rest] eqn:Hdrop.
      { apply (f_equal length) in Hdrop. rewrite length_drop in Hdrop.
        cbn [length] in Hdrop. lia. }
      rewrite batches_cons by exact Hb. cbn [store_batches].
      destruct (addDocuments C _ (store w)) as [[u | e] s'].
      * destruct (IH (i + b) (total + length (splitDocuments C (take b (d :: rest))))
                    (emit (BatchProgress (i / b + 1) (ceil_div (length documents) b)
                             (total + length (splitDocuments C (take b (d :: rest)))))
                       (mkWorld s' (events w)))) as [evs Hevs]; [lia |].
        exists evs. rewrite Hevs. cbn [store emit].
        rewrite <- Hdrop, drop_drop. reflexivity.
      * exists (events w). reflexivity.
    + rewrite drop_ge by lia. exists (events w). destruct w; reflexivity.
Qed.


(** C8 (amended): with BULK_EMBED_BATCH set to a positive number n, or unset
    and n = 128, processBulkDocuments splits and stores the consecutive
    batches of n documents, in the order of the documents, and the
    chunksAdded it returns is the sum of the chunks of all batches. *)
Theorem processBulkDocuments_batches (BULK_EMBED_BATCH : option nat) (n : nat)
  (documents : list Document) (w : world VS) :
  BULK_EMBED_BATCH = Some n \/ (BULK_EMBED_BATCH = None /\ n = 128) ->
  0 < n ->
  concat (batches n documents) = documents
  /\ (forall k g,
        batches n documents !! k = Some g ->
        g = take n (drop (k * n) documents) /\ g <> [])
  /\ (exists evs,
        processBulkDocuments C (length documents) BULK_EMBED_BATCH documents w
        = Some (fst (store_batches C (batches n documents) 0 (store w)),
                mkWorld (snd (store_batches C (batches n documents) 0 (store w))) evs))
  /\ (forall chunksAdded w',
        processBulkDocuments C (length documents) BULK_EMBED_BATCH documents w
        = Some (Ret chunksAdded, w') ->
        chunksAdded = chunks_of_batches C (batches n documents)).
Proof.
  intros Henv Hn.
  assert (Hsize : embed_batch_size BULK_EMBED_BATCH = n)
    by (destruct Henv as [-> | [-> ->]]; reflexivity).
  assert (Hrun : exists evs,
             processBulkDocuments C (length documents) BULK_EMBED_BATCH documents w
             = Some (fst (store_batches C (batches n documents) 0 (store w)),
                     mkWorld (snd (store_batches C (batches n documents) 0 (store w))) evs)).
  { unfold processBulkDocuments. rewrite Hsize.
    destruct (bulk_loop_batches documents n Hn (length documents) 0 0
                (emit (LogInfo (lit "Processing " ++ show_nat (length documents)
                                ++ lit " documents in bulk")) w)) as [evs Hevs]; [lia |].
    rewrite Hevs. cbn [drop store emit].
    destruct (store_batches C _ 0 (store w)) as [[m | e] s']; cbn [fst snd];
      eexists; reflexivity. }
  split; [apply batches_concat; exact Hn |].
  split; [intros k g; apply batches_lookup; exact Hn |]. split; [exact Hrun |].
  intros chunksAdded w' Hret. destruct Hrun as [evs Hevs]. rewrite Hevs in Hret.
  injection Hret as Hfst _. apply store_batches_total in Hfst. lia.
Qed.

(** With batch size 0 the loop never ends on a non-empty list, as long as
    the store accepts the (empty) batches. *)
Lemma bulk_loop_zero_diverges (documents : list Document) (fuel i total : nat) (w : world VS) :
  (forall s, exists s', addDocuments C (splitDocuments C []) s = (Ret tt, s')) ->
  i < length documents ->
  bulk_loop C fuel documents 0 i total w = None.
Proof.
  intros Hadd Hi. revert total w. induction fuel as [| fuel IH]; intros total w;
    cbn [bulk_loop]; destruct (Nat.ltb_spec i (length documents)); try lia; try reflexivity.
  unfold slice. replace (i + 0 - i) with 0 by lia. rewrite take_0. cbn [map].
  destruct (Hadd (store w)) as [s' ->]. rewrite Nat.add_0_r. apply IH.
Qed.

End BulkFacts.

Section BulkExamples.
Import Rag.

Lemma processBulkDocuments_batches_witness :
  concat (batches 2 [doc "a"; doc "b"; doc "c"; doc "d"; doc "e"])
  = [doc "a"; doc "b"; doc "c"; doc "d"; doc "e"]
  /\ exists evs,
       processBulkDocuments demo 5 (Some 2) [doc "a"; doc "b"; doc "c"; doc "d"; doc "e"] w0
       = Some (Ret 5, mkWorld [doc "a"; doc "b"; doc "c"; doc "d"; doc "e"] evs).
Proof.
  destruct (processBulkDocuments_batches demo (Some 2) 2
              [doc "a"; doc "b"; doc "c"; doc "d"; doc "e"] w0) as (Hc & _ & Hrun & _).
  - left. reflexivity.
  - cbn. lia.
  - split; [exact Hc | exact Hrun].
Defined.

(** C8, counterexample: with BULK_EMBED_BATCH set to 0 the call on one
    document never returns: the loop stores an empty batch again and
    again. *)
Lemma processBulkDocuments_zero_never_returns :
  ~ exists fuel r, processBulkDocuments demo fuel (Some 0) [doc "a"] w0 = Some r.
Proof.
  intros (fuel & r & H). unfold processBulkDocuments in H. cbn [embed_batch_size] in H.
  rewrite (bulk_loop_zero_diverges demo [doc "a"] fuel 0 0) in H; [discriminate | |].
  - intros s. exists (s ++ []). reflexivity.
  - cbn. lia.
Qed.

(** The batches of the configured size: 2, 2 and 1 of five documents. *)
Example configured_batches :
  batches 2 [doc "a"; doc "b"; doc "c"; doc "d"; doc "e"]
  = [[doc "a"; doc "b"]; [doc "c"; doc "d"]; [doc "e"]].
Proof. vm_compute. reflexivity. Qed.

(** The batches of the default size on 300 documents: 128, 128 and 44. *)
Example default_batches_300 :
  map length (batches (embed_batch_size None) (repeat (doc "x") 300)) = [128; 128; 44].
Proof. vm_compute. reflexivity. Qed.

End BulkExamples.

(** ** getCollectionStats *)

Section StatsFacts.
Import Rag Stats.

Lemma uniqueSources_of_acc (sample : list point) (acc : gset jsstring) :
  foldl (fun set p => match source_of p with
                      | Some s => {[ s ]} ∪ set
                      | None => set
                      end) acc sample
  = list_to_set (sources_of sample) ∪ acc.
Proof.
  revert acc. induction sample as [| p sample IH]; intros acc; cbn [foldl].
  - unfold sources_of. cbn [omap list_omap]. rewrite list_to_set_nil.
    rewrite (left_id_L ∅ (∪)). reflexivity.
  - rewrite IH. unfold sources_of. cbn [omap list_omap].
    destruct (source_of p) as [s |]; [| reflexivity].
    rewrite list_to_set_cons.
    rewrite (assoc_L (∪)). f_equal. apply (comm_L (∪)).
Qed.

(** The size of the set is the number of different sources in the sample. *)
Lemma uniqueSources_size (sample : list point) :
  size (uniqueSources_of sample) = distinct_sources sample.
Proof.
  unfold uniqueSources_of, distinct_sources. rewrite uniqueSources_of_acc.
  rewrite (right_id_L ∅ (∪)).
  rewrite <- (size_list_to_set (C := gset (list N)) (remove_dups (sources_of sample)))
    by apply NoDup_remove_dups.
  f_equal. apply set_eq. intros x.
  rewrite !elem_of_list_to_set, elem_of_remove_dups. reflexivity.
Qed.

Lemma str_eqb_refl (s : jsstring) : str_eqb s s = true.
Proof. unfold str_eqb. apply bool_decide_eq_true_2. reflexivity. Qed.

(** The test of the loop finds the source a point carries. *)
Lemma source_of_carries (p : point) (s : jsstring) :
  source_of p = Some s <-> carries p s.
Proof.
  unfold source_of, carries. destruct p as [[[[md |]] |]]; cbn [point_payload metadata].
  - destruct (source md) as [[| c t] |] eqn:Hsrc; split.
    + discriminate.
    + intros (Hne & pl & md' & [= <-] & [= <-] & Hs). congruence.
    + intros [= <-]. split; [discriminate |]. eexists _, _. repeat split. exact Hsrc.
    + intros (_ & pl & md' & [= <-] & [= <-] & Hs). congruence.
    + discriminate.
    + intros (_ & pl & md' & [= <-] & [= <-] & Hs). congruence.
  - split; [discriminate |]. intros (_ & pl & md' & [= <-] & Hmd & _). discriminate.
  - split; [discriminate |]. intros (_ & pl & md' & Hpl & _). discriminate.
Qed.

(** The sources the loop collects are the sources among the points. *)
Lemma sources_among_collected (pts : list point) :
  sources_among pts (remove_dups (sources_of pts)).
Proof.
  split; [apply NoDup_remove_dups |]. intros s.
  rewrite <- list_elem_of_In, elem_of_remove_dups. unfold sources_of.
  rewrite list_elem_of_omap. split.
  - intros (p & Hp & Hs). exists p. split; [apply list_elem_of_In, Hp |].
    apply source_of_carries, Hs.
  - intros (p & Hp & Hs). exists p. split; [apply list_elem_of_In, Hp |].
    apply source_of_carries, Hs.
Qed.

(** Two lists of the sources among the same points are as long. *)
Lemma sources_among_length (pts : list point) (a b : list jsstring) :
  sources_among pts a -> sources_among pts b -> length a = length b.
Proof.
  intros [Ha Hina] [Hb Hinb]. apply Permutation_length, NoDup_Permutation; try assumption.
  intros s. rewrite !list_elem_of_In, Hina, Hinb. reflexivity.
Qed.

(** C6: on a collection of at most 1000 points the unique-source count is
    the number of different sources among its points; on a larger one it
    is the number of different sources among the first 1000 points, times
    the number of vectors divided by the 1000 points of the sample, rounded
    with Math.round; the sample is never more than 1000 points. *)
Theorem getCollectionStats_unique_sources (name : jsstring) (pts : list point)
  (all sample : list jsstring) :
  sources_among pts all ->
  sources_among (take 1000 pts) sample ->
  getCollectionStats (qdrant name pts) name
  = Ret (if Nat.leb (length pts) 1000
         then CollectionStats name (length pts) (num (length all)) (length pts)
                (if Nat.eqb (length pts) 0 then None else Some (length pts))
         else CollectionStats name (length pts)
                (Math_round (num (length sample) * (num (length pts) / num 1000)))%float
                (length pts) (Some 1000)).
Proof.
  intros Hall Hsample.
  rewrite (sources_among_length pts all _ Hall (sources_among_collected pts)).
  rewrite (sources_among_length _ sample _ Hsample (sources_among_collected (take 1000 pts))).
  fold (distinct_sources pts). fold (distinct_sources (take 1000 pts)).
  unfold getCollectionStats.
  cbn [qdrant getCollections getCollection scroll vectors_count points existsb].
  rewrite str_eqb_refl. cbn [orb negb default from_option id].
  remember 1000 as K eqn:HK.
  destruct (Nat.eqb_spec (length pts) 0) as [H0 | H0].
  - destruct pts; [| discriminate]. cbn [length].
    destruct (Nat.leb_spec 0 K); [reflexivity | lia].
  - destruct (Nat.ltb_spec K (length pts)) as [Hbig | Hsmall];
      destruct (Nat.leb_spec (length pts) K) as [Hle | Hgt]; try lia.
    + rewrite uniqueSources_size. rewrite length_take.
      rewrite Nat.min_l by lia. rewrite (Nat.min_l K (length pts)) by lia.
      reflexivity.
    + rewrite uniqueSources_size. rewrite Nat.min_r by lia.
      rewrite take_ge by lia. reflexivity.
Qed.

(** Two files in four points, one of them without a payload. *)
Lemma getCollectionStats_unique_sources_witness :
  getCollectionStats (qdrant (lit "pulmo")
    [point_from "a.pdf"; point_from "b.pdf"; point_from "a.pdf"; mkPoint None]) (lit "pulmo")
  = Ret (CollectionStats (lit "pulmo") 4 2 4 (Some 4)).
Proof.
  apply (getCollectionStats_unique_sources (lit "pulmo")
           [point_from "a.pdf"; point_from "b.pdf"; point_from "a.pdf"; mkPoint None]
           [lit "b.pdf"; lit "a.pdf"] [lit "b.pdf"; lit "a.pdf"]).
  - apply (sources_among_collected
             [point_from "a.pdf"; point_from "b.pdf"; point_from "a.pdf"; mkPoint None]).
  - apply (sources_among_collected
             (take 1000 [point_from "a.pdf"; point_from "b.pdf"; point_from "a.pdf";
                         mkPoint None])).
Defined.

(** Three files in five points: the count is exact. *)
Example stats_small :
  getCollectionStats (qdrant (lit "pulmo")
    [point_from "a.pdf"; point_from "b.pdf"; point_from "a.pdf"; mkPoint None;
     point_from "c.pdf"]) (lit "pulmo")
  = Ret (CollectionStats (lit "pulmo") 5 3 5 (Some 5)).
Proof. vm_compute. reflexivity. Qed.

(** 1001 points, the first 500 of them from files of their own and the
    others from one more file: 501 sources in the sample of 1000, an
    estimate of 502 (the collection has 501). *)
Example stats_large :
  getCollectionStats (qdrant (lit "pulmo")
    (map (fun i => mkPoint (Some (mkPayload (Some (mkMeta (Some (show_nat i)) None None)))))
       (seq 0 500) ++ repeat (point_from "z.pdf") 501)) (lit "pulmo")
  = Ret (CollectionStats (lit "pulmo") 1001 502 1001 (Some 1000)).
Proof. vm_compute. reflexivity. Qed.

End StatsFacts.

(** ** Ingesting the same documents twice *)

Section ReingestFacts.
Import Rag.

(** A vector store that keeps the chunks it is handed, in the order it is
    handed them. *)
Variable C : collaborators (list Document).
Hypothesis addDocuments_appends :
  forall chunks s, addDocuments C chunks s = (Ret tt, s ++ chunks).



End ReingestFacts.

Section ReingestExamples.
Import Rag.



End ReingestExamples.

(* ===================================================================== *)
(** * Further properties *)
(* ===================================================================== *)

(** ** The manifest scripts *)

Section ManifestMore.
Import Manifest.

Lemma has_status_exclusive (s s' : string) (r : row) :
  s <> s' -> has_status s r = true -> has_status s' r = false.
Proof.
  unfold has_status. destruct (status r) as [| z | t]; try discriminate.
  intros Hne H. apply String.eqb_eq in H. subst t.
  apply String.eqb_neq. exact Hne.
Qed.

(** A row counts in at most one of the three groups. *)
Lemma row_in_one_group (r : row) :
  Nat.b2n (has_status "completed" r) + Nat.b2n (has_status "error" r)
  + Nat.b2n (has_status "queued" r || has_status "processing" r) <= 1.
Proof.
  destruct (has_status "completed" r) eqn:Hc.
  - rewrite (has_status_exclusive "completed" "error" r), (has_status_exclusive "completed" "queued" r),
      (has_status_exclusive "completed" "processing" r) by (discriminate || exact Hc).
    cbn. lia.
  - destruct (has_status "error" r) eqn:He.
    + rewrite (has_status_exclusive "error" "queued" r), (has_status_exclusive "error" "processing" r)
        by (discriminate || exact He).
      cbn. lia.
    + destruct (has_status "queued" r || has_status "processing" r); cbn; lia.
Qed.

Lemma filter_length_b2n {A} (f : A -> bool) (l : list A) :
  length (List.filter f l) = fold_right (fun x n => Nat.b2n (f x) + n) 0 l.
Proof.
  induction l as [| x l IH]; cbn; [reflexivity |].
  destruct (f x); cbn; rewrite IH; reflexivity.
Qed.

(** The lines of checkStatus: the line of the catch when the sum of the
    chunk counts fails, else the block, each count from its query. *)
Lemma checkStatus_lines (E : engine) (db : table) :
  (Z.of_nat (length db) < 9007199254740992)%Z ->
  checkStatus E db = [ErrorChecking "integer overflow"]
  \/ exists k,
       checkStatus E db
       = [ TotalFiles (NumInt (Z.of_nat (length db)));
           Completed (NumInt (Z.of_nat (length (List.filter (has_status "completed") db))));
           Errors (NumInt (Z.of_nat (length (List.filter (has_status "error") db))));
           Pending (NumInt (Z.of_nat (length (List.filter
                      (fun r => has_status "queued" r || has_status "processing" r) db))));
           TotalChunks k ].
Proof.
  intros Hlen. unfold checkStatus, select_stats.
  destruct (SUM_case_counts E (fun r => sql_eq (status r) (sq "completed")) db Hlen)
    as (c & -> & Hc).
  destruct (SUM_case_counts E (fun r => sql_eq (status r) (sq "error")) db Hlen)
    as (e & -> & He).
  destruct (SUM_case_counts E (fun r => sql_in (status r) [sq "queued"; sq "processing"])
              db Hlen) as (p & -> & Hp).
  destruct (column_value (SUM E (map chunks_count db))) as [k |]; [| left; reflexivity].
  right. exists (or0 k). cbn [total completed errors pending total_chunks or0].
  rewrite Hc, He, Hp. unfold COUNT. rewrite to_double_small by lia.
  rewrite (filter_length_ext (fun r => holds (sql_eq (status r) (sq "completed")))
             (has_status "completed")) by (intros; apply holds_eq_literal).
  rewrite (filter_length_ext (fun r => holds (sql_eq (status r) (sq "error")))
             (has_status "error")) by (intros; apply holds_eq_literal).
  rewrite (filter_length_ext
             (fun r => holds (sql_in (status r) [sq "queued"; sq "processing"]))
             (fun r => has_status "queued" r || has_status "processing" r))
    by (intros; apply holds_in_pending).
  reflexivity.
Qed.

Lemma groups_partition (db : table) :
  length (List.filter (has_status "completed") db)
  + length (List.filter (has_status "error") db)
  + length (List.filter (fun r => has_status "queued" r || has_status "processing" r) db)
  <= length db
  /\ (length (List.filter (has_status "completed") db)
      + length (List.filter (has_status "error") db)
      + length (List.filter (fun r => has_status "queued" r || has_status "processing" r) db)
      = length db
      <-> Forall (fun r => has_status "completed" r || has_status "error" r
                           || has_status "queued" r || has_status "processing" r = true) db).
Proof.
  rewrite !filter_length_b2n.
  induction db as [| r db [IHle IHeq]]; cbn [fold_right length].
  - split; [lia |]. split; [constructor | reflexivity].
  - pose proof (row_in_one_group r) as Hr. split; [lia |].
    rewrite Forall_cons. rewrite <- IHeq. split.
    + intros Hsum. split; [| lia].
      destruct (has_status "completed" r), (has_status "error" r),
        (has_status "queued" r), (has_status "processing" r); cbn in *; try reflexivity; lia.
    + intros [Hknown Hsum].
      destruct (has_status "completed" r), (has_status "error" r),
        (has_status "queued" r), (has_status "processing" r); cbn in *; try discriminate; lia.
Qed.

(** X1: on a manifest of fewer than 2^53 files checkStatus prints either
    the line of its catch, when the sum of the chunk counts fails, or its
    block with the number of files as the total; the three counts of the
    block never add up to more than the total, and they add up to it
    exactly when every row has one of the four statuses; a row with another
    status, or none, is in the total only. *)
Theorem checkStatus_counts_partition (E : engine) (db : table) :
  (Z.of_nat (length db) < 9007199254740992)%Z ->
  checkStatus E db = [ErrorChecking "integer overflow"]
  \/ exists c e p k,
       checkStatus E db
       = [ TotalFiles (NumInt (Z.of_nat (length db))); Completed (NumInt c);
           Errors (NumInt e); Pending (NumInt p); TotalChunks k ]
       /\ (0 <= c /\ 0 <= e /\ 0 <= p /\ c + e + p <= Z.of_nat (length db))%Z
       /\ ((c + e + p = Z.of_nat (length db))%Z <->
           Forall (fun r => has_status "completed" r || has_status "error" r
                            || has_status "queued" r || has_status "processing" r = true) db).
Proof.
  intros Hlen. destruct (checkStatus_lines E db Hlen) as [Herr | [k Hk]]; [left; exact Herr |].
  right. do 3 eexists. exists k. split; [exact Hk |].
  destruct (groups_partition db) as [Hle Heq]. split; [lia |].
  rewrite <- Heq. lia.
Qed.

(** After the UPDATE no row meets its condition any more. *)
Lemma update_row_settled (r : row) :
  holds (sql_eq (status (update_row true r)) (error (update_row true r))) = false.
Proof.
  unfold update_row. rewrite where_status_dq_error_column.
  destruct (holds (sql_eq (status r) (error r))) eqn:Hr; [| exact Hr].
  cbn. reflexivity.
Qed.

Lemma update_row_unmatched (dqs : bool) (r : row) :
  holds (sql_eq (status r) (error r)) = false -> update_row dqs r = r.
Proof.
  intros Hr. unfold update_row. rewrite where_status_dq_error_column, Hr. reflexivity.
Qed.

Lemma db_after_cases (dqs : bool) (db : table) :
  db_after (clearErrors dqs db) = db
  \/ (dqs = true /\ db_after (clearErrors dqs db) = map (update_row true) db).
Proof.
  unfold clearErrors. destruct (select_error_count dqs db) as [count |]; [| left; reflexivity].
  destruct (count =? 0)%Z; [left; reflexivity |].
  destruct dqs; [right | left]; split; reflexivity.
Qed.

(** X2: clearErrors keeps the number of rows and every path and
    chunks_count, and it leaves alone every row whose status and error
    message are not the same text, in particular every row with a NULL
    error; the count it announces is the count it resets. *)
Theorem clearErrors_frame (dqs : bool) (db : table) :
  length (db_after (clearErrors dqs db)) = length db
  /\ map path (db_after (clearErrors dqs db)) = map path db
  /\ map chunks_count (db_after (clearErrors dqs db)) = map chunks_count db
  /\ (forall i r, db !! i = Some r -> holds (sql_eq (status r) (error r)) = false ->
        db_after (clearErrors dqs db) !! i = Some r)
  /\ (forall i r, db !! i = Some r -> error r = VNull ->
        db_after (clearErrors dqs db) !! i = Some r)
  /\ (forall n, changes (clearErrors dqs db) = Some n ->
        n = Z.of_nat (length (List.filter
                                (fun r => holds (sql_eq (status r) (error r))) db))
        /\ console (clearErrors dqs db)
           = [Clearing; Found n; ResetFiles n; WillBeReprocessed; ResumeHint]).
Proof.
  assert (Hrow : forall r, path (update_row true r) = path r
                           /\ chunks_count (update_row true r) = chunks_count r).
  { intros r. unfold update_row. destruct (where_status_dq_error true r); split; reflexivity. }
  assert (Hkeep : forall i r, db !! i = Some r ->
                    holds (sql_eq (status r) (error r)) = false ->
                    db_after (clearErrors dqs db) !! i = Some r).
  { intros i r Hi Hr. destruct (db_after_cases dqs db) as [-> | [_ ->]]; [exact Hi |].
    rewrite lookup_map, Hi. cbn [option_map]. rewrite update_row_unmatched by exact Hr.
    reflexivity. }
  split; [| split; [| split; [| split; [exact Hkeep | split]]]].
  - destruct (db_after_cases dqs db) as [-> | [_ ->]]; [reflexivity | apply length_map].
  - destruct (db_after_cases dqs db) as [-> | [_ ->]]; [reflexivity |].
    rewrite map_map. apply map_ext. intros r. apply Hrow.
  - destruct (db_after_cases dqs db) as [-> | [_ ->]]; [reflexivity |].
    rewrite map_map. apply map_ext. intros r. apply Hrow.
  - intros i r Hi Hnull. apply Hkeep; [exact Hi |]. rewrite Hnull.
    destruct (status r); reflexivity.
  - intros n. unfold clearErrors, select_error_count.
    change (dq_prepares dqs "error") with true. cbv iota.
    destruct (COUNT _ =? 0)%Z; [discriminate |].
    unfold update_reset. destruct dqs; cbn [dq_prepares column String.eqb andb];
      [| discriminate].
    cbn. intros [= <-]. split; reflexivity.
Qed.

(** X3: a second run of clearErrors changes nothing more; where the UPDATE
    is accepted the second run finds no row and says so. *)
Theorem clearErrors_twice (dqs : bool) (db : table) :
  db_after (clearErrors dqs (db_after (clearErrors dqs db)))
  = db_after (clearErrors dqs db)
  /\ clearErrors true (db_after (clearErrors true db))
     = mkRun (db_after (clearErrors true db)) None [Clearing; Found 0; NoErrorsToClear].
Proof.
  assert (Hmap : db_after (clearErrors true db) = map (update_row true) db).
  { unfold clearErrors, select_error_count.
    change (dq_prepares true "error") with true. cbv iota.
    destruct (COUNT _ =? 0)%Z eqn:Hc; [| reflexivity].
    cbn [db_after]. apply Z.eqb_eq in Hc. unfold COUNT in Hc.
    assert (Hl : List.filter (where_status_dq_error true) db = [])
      by (destruct (List.filter _ db); [reflexivity | discriminate]).
    clear Hc. induction db as [| r db IH]; [reflexivity |].
    cbn [List.filter] in Hl. destruct (where_status_dq_error true r) eqn:Hr; [discriminate |].
    cbn [map]. rewrite <- IH by exact Hl. rewrite update_row_unmatched by exact Hr.
    reflexivity. }
  assert (Htrue : clearErrors true (db_after (clearErrors true db))
                  = mkRun (db_after (clearErrors true db)) None
                      [Clearing; Found 0; NoErrorsToClear]).
  { apply clearErrors_noop. rewrite Hmap. apply Forall_map.
    apply Forall_forall. intros r _. apply update_row_settled. }
  split; [| exact Htrue].
  destruct dqs; [rewrite Htrue; reflexivity |].
  destruct (db_after_cases false db) as [Hd | [Hd _]]; [| discriminate].
  rewrite !Hd. reflexivity.
Qed.

End ManifestMore.

Section ManifestMoreExamples.
Import Manifest.

Lemma checkStatus_counts_partition_witness :
  checkStatus sqlite_sample [done_file 12; failed_scan] = [ErrorChecking "integer overflow"]
  \/ exists c e p k,
       checkStatus sqlite_sample [done_file 12; failed_scan]
       = [ TotalFiles (NumInt (Z.of_nat (length [done_file 12; failed_scan])));
           Completed (NumInt c); Errors (NumInt e); Pending (NumInt p); TotalChunks k ]
       /\ (0 <= c /\ 0 <= e /\ 0 <= p
           /\ c + e + p <= Z.of_nat (length [done_file 12; failed_scan]))%Z
       /\ ((c + e + p = Z.of_nat (length [done_file 12; failed_scan]))%Z <->
           Forall (fun r => has_status "completed" r || has_status "error" r
                            || has_status "queued" r || has_status "processing" r = true)
             [done_file 12; failed_scan]).
Proof.
  apply (checkStatus_counts_partition sqlite_sample [done_file 12; failed_scan]).
  vm_compute. reflexivity.
Defined.

End ManifestMoreExamples.

(** ** analyzeQuery and the tests on the query *)

Section AnalyzeFacts.
Import TopK.
Import Analyze.








End AnalyzeFacts.

(** ** cleanSourceName, further *)

Section SourceNameMore.
Import SourceName.

Lemma existsb_reverse {A} (p : A -> bool) (l : list A) :
  existsb p (rev l) = existsb p l.
Proof.
  induction l as [| x l IH]; [reflexivity |].
  cbn [rev existsb]. rewrite existsb_app, IH. cbn. rewrite orb_false_r. apply orb_comm.
Qed.

(** The last piece of a split on a class has no separator in it, and it is
    the end of the text. *)
Lemma split_class_last (p : N -> bool) (s cur : jsstring) :
  existsb p cur = false ->
  exists pre seg,
    last (split_class_go p s cur) = Some seg
    /\ rev cur ++ s = pre ++ seg
    /\ existsb p seg = false
    /\ (pre = [] \/ exists pre' c, pre = pre' ++ [c] /\ p c = true).
Proof.
  revert cur. induction s as [| c s IH]; intros cur Hcur.
  - exists [], (rev cur). cbn. rewrite app_nil_r. repeat split; auto.
    rewrite existsb_reverse. exact Hcur.
  - cbn [split_class_go]. destruct (p c) eqn:Hc.
    + destruct (IH [] eq_refl) as (pre & seg & Hlast & Happ & Hseg & Hpre).
      exists (rev cur ++ c :: pre), seg. cbn [rev app] in Happ. repeat split.
      * destruct (split_class_go p s []) eqn:E; [discriminate |]. exact Hlast.
      * rewrite Happ, <- app_assoc. reflexivity.
      * exact Hseg.
      * right. destruct Hpre as [-> | (pre' & d & -> & Hd)].
        -- exists (rev cur), c. split; [reflexivity | exact Hc].
        -- exists (rev cur ++ c :: pre'), d. split; [| exact Hd].
           rewrite <- app_assoc. reflexivity.
    + destruct (IH (c :: cur)) as (pre & seg & Hlast & Happ & Hseg & Hpre).
      { cbn. rewrite Hc, Hcur. reflexivity. }
      exists pre, seg. cbn [rev] in Happ. rewrite <- app_assoc in Happ.
      repeat split; assumption.
Qed.

(** X6: cleanSourceName always returns a string, never undefined. *)
Theorem cleanSourceName_is_string (sourcePath : source_arg) :
  exists name, cleanSourceName sourcePath = RStr name.
Proof.
  destruct sourcePath as [ | | s]; try (eexists; reflexivity).
  destruct (includes s marker) eqn:Hinc.
  - apply includes_after_first in Hinc as [t Ht].
    exists (before_first marker t). apply cleanSourceName_marker. exact Ht.
  - destruct s as [| c s]; [eexists; reflexivity |].
    unfold cleanSourceName. rewrite Hinc.
    destruct (pop _) as [[| d seg] |]; eexists; reflexivity.
Qed.

(** X7: on a path without the marker the result is the end of the path
    after its last slash or backslash, with no separator in it; a path that
    ends with a separator comes back whole. *)
Theorem cleanSourceName_basename_of_path (s : jsstring) :
  s <> [] -> includes s marker = false ->
  exists dir name,
    s = dir ++ name
    /\ existsb is_slash name = false
    /\ (dir = [] \/ exists dir' c, dir = dir' ++ [c] /\ is_slash c = true)
    /\ cleanSourceName (SStr s) = RStr (if bool_decide (name = []) then s else name).
Proof.
  intros Hs Hno.
  destruct (split_class_last is_slash s [] eq_refl) as (dir & name & Hlast & Happ & Hname & Hdir).
  exists dir, name. cbn [rev app] in Happ. repeat split; try assumption.
  destruct s as [| c s]; [congruence |].
  unfold cleanSourceName, pop, split_class. rewrite Hno, Hlast.
  destruct name as [| d name]; reflexivity.
Qed.

Lemma cleanSourceName_basename_of_path_witness :
  exists dir name,
    lit "folder/subfolder/document.txt" = dir ++ name
    /\ existsb is_slash name = false
    /\ (dir = [] \/ exists dir' c, dir = dir' ++ [c] /\ is_slash c = true)
    /\ cleanSourceName (SStr (lit "folder/subfolder/document.txt"))
       = RStr (if bool_decide (name = []) then lit "folder/subfolder/document.txt" else name).
Proof.
  apply (cleanSourceName_basename_of_path (lit "folder/subfolder/document.txt")).
  - discriminate.
  - vm_compute. reflexivity.
Defined.

End SourceNameMore.

(** ** processFile and processText, further *)

Section ProcessFileMore.
Import Rag.
Import RagRef.

Context {VS : Type}.
Variable C : collaborators VS.
Variable removeTimestamps : bool.

(** The loop only adds events. *)
Lemma files_loop_events (l : list file) (n i tc : nat) (srcs : list jsstring) (w : world VS) :
  exists new,
    events (snd (files_loop C removeTimestamps n i l tc srcs w)) = events w ++ new.
Proof.
  revert i tc srcs w. induction l as [| f l IH]; intros i tc srcs w.
  - exists []. cbn. rewrite app_nil_r. reflexivity.
  - cbn [files_loop]. destruct (extract C f removeTimestamps) as [notes [t | e]].
    + destruct (no_content t).
      * match goal with |- context [files_loop _ _ _ _ l _ _ ?w'] =>
          destruct (IH (S i) tc srcs w') as [new Hnew] end.
        rewrite Hnew. cbn [emit emit_all events]. eexists.
        rewrite <- !app_assoc. reflexivity.
      * destruct (addDocuments C _ _) as [[u | e] s].
        -- match goal with |- context [files_loop _ _ _ _ l ?a ?b ?w'] =>
             destruct (IH (S i) a b w') as [new Hnew] end.
           rewrite Hnew. cbn [emit emit_all events]. eexists.
           rewrite <- !app_assoc. reflexivity.
        -- cbn [snd emit emit_all events]. eexists. rewrite <- !app_assoc. reflexivity.
    + cbn [snd emit emit_all events]. eexists. rewrite <- !app_assoc. reflexivity.
Qed.

(** What the loop returns and stores depends neither on the messages nor
    on the files it skips. *)
Lemma files_loop_outcome (l : list file) (n i n' i' tc : nat) (srcs : list jsstring)
  (w w' : world VS) :
  store w = store w' ->
  outcome (files_loop C removeTimestamps n i l tc srcs w)
  = outcome (files_loop C removeTimestamps n' i'
               (List.filter (not_skipped C removeTimestamps) l) tc srcs w').
Proof.
  revert n i n' i' tc srcs w w'. induction l as [| f l IH]; intros n i n' i' tc srcs w w' Hs.
  - cbn. unfold outcome. cbn. f_equal. exact Hs.
  - cbn [List.filter]. unfold not_skipped at 1.
    cbn [files_loop]. destruct (extract C f removeTimestamps) as [notes [t | e]] eqn:He;
      cbn [snd].
    + destruct (no_content t) eqn:Hb; cbn [negb].
      * apply IH. cbn. exact Hs.
      * cbn [files_loop]. rewrite He, Hb. cbn [emit emit_all store].
        rewrite <- Hs. destruct (addDocuments C _ (store w)) as [[u | e] s].
        -- apply IH. reflexivity.
        -- reflexivity.
    + cbn [files_loop]. rewrite He. unfold outcome. cbn. f_equal. exact Hs.
Qed.

(** The outcome of processFile from the outcome of its loop. *)
Lemma processFile_outcome (files : files_arg) (w : world VS) :
  outcome (processFile C files removeTimestamps w)
  = match outcome (files_loop C removeTimestamps (length (fileArray files)) 0
                     (fileArray files) 0 [] w) with
    | (Throw e, s) => (Throw e, s)
    | (Ret (totalChunks, allSources), s) =>
        if Nat.eqb totalChunks 0 then (Throw msg_no_text, s)
        else (Ret (mkProcessed totalChunks allSources), s)
    end.
Proof.
  unfold processFile.
  destruct (files_loop C removeTimestamps _ 0 (fileArray files) 0 [] w) as [[[tc srcs] | e] w1].
  - unfold outcome at 2. cbn [fst snd]. destruct (Nat.eqb tc 0); reflexivity.
  - reflexivity.
Qed.

(** X8: the files that processFile skips do not count: an upload returns,
    or throws, and leaves the store exactly as the upload without them. *)
Theorem processFile_skipped_files_transparent (l : list file) (w : world VS) :
  outcome (processFile C (Files l) removeTimestamps w)
  = outcome (processFile C (Files (List.filter (not_skipped C removeTimestamps) l))
               removeTimestamps w).
Proof.
  rewrite !processFile_outcome. cbn [fileArray].
  rewrite (files_loop_outcome l (length l) 0
             (length (List.filter (not_skipped C removeTimestamps) l)) 0 0 [] w w eq_refl).
  rewrite (files_loop_outcome (List.filter (not_skipped C removeTimestamps) l)
             (length (List.filter (not_skipped C removeTimestamps) l)) 0
             (length (List.filter (not_skipped C removeTimestamps) l)) 0 0 [] w w eq_refl).
  assert (Hff : List.filter (not_skipped C removeTimestamps)
                  (List.filter (not_skipped C removeTimestamps) l)
                = List.filter (not_skipped C removeTimestamps) l).
  { induction l as [| f l IH]; [reflexivity |]. cbn [List.filter].
    destruct (not_skipped C removeTimestamps f) eqn:Hf; [| exact IH].
    cbn [List.filter]. rewrite Hf, IH. reflexivity. }
  rewrite Hff. reflexivity.
Qed.

(** What a loop that ends well has counted and listed. *)
Lemma files_loop_totals (l : list file) (n i tc tc' : nat) (srcs srcs' : list jsstring)
  (w : world VS) :
  fst (files_loop C removeTimestamps n i l tc srcs w) = Ret (tc', srcs') ->
  tc' = tc + list_sum (map (chunks_of_file C removeTimestamps)
                         (List.filter (not_skipped C removeTimestamps) l))
  /\ srcs' = srcs ++ map originalname (List.filter (not_skipped C removeTimestamps) l).
Proof.
  revert i tc srcs w. induction l as [| f l IH]; intros i tc srcs w.
  - cbn. intros [= <- <-]. rewrite app_nil_r. split; [lia | reflexivity].
  - cbn [files_loop List.filter].
    destruct (extract C f removeTimestamps) as [notes [t | e]] eqn:He; [| discriminate].
    assert (Hkeep : not_skipped C removeTimestamps f = negb (no_content t))
      by (unfold not_skipped; rewrite He; reflexivity).
    assert (Hchunks : chunks_of_file C removeTimestamps f
                      = length (splitDocuments C
                                  [mkDocument t (mkMeta (Some (originalname f)) None None)]))
      by (unfold chunks_of_file; rewrite He; reflexivity).
    rewrite Hkeep. destruct (no_content t); cbn [negb].
    + apply IH.
    + destruct (addDocuments C _ _) as [[u | e] s]; [| discriminate].
      intros H. apply IH in H as [-> ->]. cbn [map]. rewrite Hchunks.
      unfold list_sum. cbn [fold_right].
      rewrite <- app_assoc. split; [lia | reflexivity].
Qed.

(** X9: when processFile returns, it has stored at least one chunk; the
    sources it lists are the names of the files it did not skip, in order,
    and chunksAdded is the sum of the chunks of those files. *)
Theorem processFile_success_totals (files : files_arg) (w : world VS) (p : processed) :
  fst (processFile C files removeTimestamps w) = Ret p ->
  1 <= chunksAdded p
  /\ sources p
     = map originalname (List.filter (not_skipped C removeTimestamps) (fileArray files))
  /\ chunksAdded p
     = list_sum (map (chunks_of_file C removeTimestamps)
                   (List.filter (not_skipped C removeTimestamps) (fileArray files))).
Proof.
  unfold processFile.
  destruct (files_loop C removeTimestamps _ 0 (fileArray files) 0 [] w)
    as [[[tc srcs] | e] w1] eqn:Hloop; [| discriminate].
  destruct (Nat.eqb_spec tc 0) as [H0 | H0]; [discriminate |].
  cbn [fst]. intros [= <-]. cbn [chunksAdded sources].
  pose proof (files_loop_totals (fileArray files) (length (fileArray files)) 0 0 tc
                [] srcs w) as Htot.
  rewrite Hloop in Htot. destruct (Htot eq_refl) as [Htc Hsrcs].
  split; [lia |]. split; [exact Hsrcs | exact Htc].
Qed.

(** X10: processFile keeps the events already emitted; an exception that
    leaves it has been logged and reported on the channel, in that order,
    as the last two events, and a result has been announced by a final
    Done event with the same numbers. *)
Theorem processFile_reports (files : files_arg) (w : world VS) :
  exists new,
    events (snd (processFile C files removeTimestamps w)) = events w ++ new
    /\ match fst (processFile C files removeTimestamps w) with
       | Throw e =>
           exists before,
             new = before ++ [LogError (lit "Error processing files: " ++ e);
                              Progress (lit "Error: " ++ e)]
       | Ret p =>
           exists before message,
             new = before ++ [LogInfo message; Done (chunksAdded p) (sources p)]
       end.
Proof.
  unfold processFile.
  destruct (files_loop_events (fileArray files) (length (fileArray files)) 0 0 [] w)
    as [new Hnew].
  destruct (files_loop C removeTimestamps _ 0 (fileArray files) 0 [] w)
    as [[[tc srcs] | e] w1]; cbn [snd] in Hnew.
  - destruct (Nat.eqb tc 0).
    + exists (new ++ [LogError (lit "Error processing files: " ++ msg_no_text);
                      Progress (lit "Error: " ++ msg_no_text)]).
      cbn [rethrow_file fst snd emit events]. rewrite Hnew, <- !app_assoc. split; eauto.
    + eexists. cbn [fst snd emit events]. rewrite Hnew, <- !app_assoc.
      split; [reflexivity |]. exists new. eexists. reflexivity.
  - exists (new ++ [LogError (lit "Error processing files: " ++ e);
                    Progress (lit "Error: " ++ e)]).
    cbn [rethrow_file fst snd emit events]. rewrite Hnew, <- !app_assoc. split; eauto.
Qed.

(** X11: processText has no test for content: where the store accepts the
    chunks it returns their number, even for a text of white space only,
    which processFile refuses when it is uploaded as a text file. *)
Theorem processText_has_no_content_guard (text : jsstring) (bytes : list N)
  (name : jsstring) (w : world VS) (s : VS) :
  no_content text = true ->
  toString_utf8 C bytes = text ->
  addDocuments C (splitDocuments C [mkDocument text (mkMeta (Some (lit "raw-text")) None None)])
    (store w) = (Ret tt, s) ->
  outcome (processText C text w)
  = (Ret (length (splitDocuments C
                    [mkDocument text (mkMeta (Some (lit "raw-text")) None None)])), s)
  /\ outcome (processFile C (OneFile (mkFile name (lit "text/plain") bytes))
                removeTimestamps w)
     = (Throw msg_no_text, store w).
Proof.
  intros Hb Hbytes Hadd. split.
  - unfold processText. cbn [emit store events]. rewrite Hadd. reflexivity.
  - rewrite processFile_outcome. cbn [fileArray length files_loop].
    unfold extract. cbn [mimetype buffer].
    replace (str_eqb (lit "text/plain") (lit "application/pdf")) with false
      by (vm_compute; reflexivity).
    replace (str_eqb (lit "text/plain")
               (lit "application/vnd.openxmlformats-officedocument.wordprocessingml.document"))
      with false by (vm_compute; reflexivity).
    replace (str_eqb (lit "text/plain") (lit "text/plain")) with true
      by (vm_compute; reflexivity).
    cbn [orb]. rewrite Hbytes, Hb. reflexivity.
Qed.

End ProcessFileMore.

Section ProcessFileMoreExamples.
Import Rag.
Import RagRef.

Lemma processFile_success_totals_witness :
  1 <= 2
  /\ [lit "a.txt"; lit "c.txt"]
     = map originalname (List.filter (not_skipped demo false) [good_a; blank_txt; good_c])
  /\ 2 = list_sum (map (chunks_of_file demo false)
                     (List.filter (not_skipped demo false) [good_a; blank_txt; good_c])).
Proof.
  apply (processFile_success_totals demo false (Files [good_a; blank_txt; good_c]) w0
           (mkProcessed 2 [lit "a.txt"; lit "c.txt"])).
  vm_compute. reflexivity.
Defined.

Lemma processText_has_no_content_guard_witness :
  outcome (processText demo (lit "   ") w0)
  = (Ret 1, [mkDocument (lit "   ") (mkMeta (Some (lit "raw-text")) None None)])
  /\ outcome (processFile demo (OneFile (mkFile (lit "blank.txt") (lit "text/plain") (lit "   ")))
                false w0)
     = (Throw msg_no_text, []).
Proof.
  apply (processText_has_no_content_guard demo false (lit "   ") (lit "   ")
           (lit "blank.txt") w0
           [mkDocument (lit "   ") (mkMeta (Some (lit "raw-text")) None None)]).
  - vm_compute. reflexivity.
  - reflexivity.
  - reflexivity.
Defined.

End ProcessFileMoreExamples.

(** ** Subtitles and CSV *)

Section TextFacts.
Import Rag.
Import RagRef.

(** *** Trimming *)

Lemma trimStart_clean (s : jsstring) : clean_start (trimStart s).
Proof.
  induction s as [| c s IH]; cbn; [exact I |].
  destruct (is_space c) eqn:Hc; [exact IH | exact Hc].
Qed.

Lemma trimStart_fixed (s : jsstring) : clean_start s -> trimStart s = s.
Proof. destruct s as [| c s]; cbn; [reflexivity | intros ->; reflexivity]. Qed.

Lemma trimStart_suffix (s : jsstring) : exists sp, s = sp ++ trimStart s.
Proof.
  induction s as [| c s [sp IH]]; [exists []; reflexivity |].
  cbn. destruct (is_space c); [exists (c :: sp); cbn; rewrite <- IH; reflexivity |].
  exists []. reflexivity.
Qed.

Lemma clean_start_app (s r : jsstring) : s <> [] -> clean_start (s ++ r) -> clean_start s.
Proof. destruct s; [congruence | cbn; auto]. Qed.

(** A trimmed text has white space at neither end. *)
Lemma trim_clean (s : jsstring) : clean_start (trim s) /\ clean_start (rev (trim s)).
Proof.
  unfold trim. rewrite rev_involutive. split; [| apply trimStart_clean].
  destruct (trimStart_suffix (rev (trimStart s))) as [sp Hsp].
  destruct (trimStart (rev (trimStart s))) as [| c v] eqn:Hv; [exact I |].
  apply (clean_start_app _ (rev sp)).
  - cbn. destruct (rev v); discriminate.
  - rewrite <- rev_app_distr, <- Hsp, rev_involutive. apply trimStart_clean.
Qed.

Lemma trim_fixed (s : jsstring) : clean_start s -> clean_start (rev s) -> trim s = s.
Proof.
  intros H1 H2. unfold trim. rewrite (trimStart_fixed s H1), (trimStart_fixed _ H2).
  apply rev_involutive.
Qed.

Lemma trim_idempotent (s : jsstring) : trim (trim s) = trim s.
Proof. apply trim_fixed; apply trim_clean. Qed.

Lemma trimStart_In (d : N) (s : jsstring) : In d (trimStart s) -> In d s.
Proof.
  destruct (trimStart_suffix s) as [sp Hsp]. intros H. rewrite Hsp.
  apply in_or_app. right. exact H.
Qed.

Lemma trim_In (d : N) (s : jsstring) : In d (trim s) -> In d s.
Proof.
  unfold trim. intros H. apply in_rev in H. apply trimStart_In in H.
  apply in_rev in H. apply trimStart_In in H. exact H.
Qed.

(** *** Splitting and joining on one code unit *)

Lemma split1_cons (c d : N) (s cur : jsstring) :
  split_go [c] (d :: s) 0 cur
  = if (c =? d)%N then rev cur :: split_go [c] s 0 [] else split_go [c] s 0 (d :: cur).
Proof.
  cbn [split_go startsWith length Nat.pred].
  replace (startsWith s []) with true by (destruct s; reflexivity).
  rewrite andb_true_r. reflexivity.
Qed.

(** No piece contains the separator. *)
Lemma split1_pieces (c : N) (s cur : jsstring) :
  ~ In c cur -> Forall (fun piece => ~ In c piece) (split_go [c] s 0 cur).
Proof.
  revert cur. induction s as [| d s IH]; intros cur Hcur.
  - cbn. constructor; [| constructor]. intros H. apply in_rev in H. contradiction.
  - rewrite split1_cons. destruct (N.eqb_spec c d) as [-> | Hne].
    + constructor; [| apply IH; intros []].
      intros H. apply in_rev in H. contradiction.
    + apply IH. intros [H | H]; [congruence | contradiction].
Qed.

Lemma split1_run (c : N) (x r cur : jsstring) :
  ~ In c x -> split_go [c] (x ++ r) 0 cur = split_go [c] r 0 (rev x ++ cur).
Proof.
  revert cur. induction x as [| d x IH]; intros cur Hx; [reflexivity |].
  cbn [app]. rewrite split1_cons. destruct (N.eqb_spec c d) as [-> | Hne].
  - exfalso. apply Hx. left. reflexivity.
  - rewrite IH by (intros H; apply Hx; right; exact H).
    cbn [rev]. rewrite <- app_assoc. reflexivity.
Qed.

(** Splitting what was joined gives the pieces back. *)
Lemma split1_join (c : N) (x : jsstring) (l : list jsstring) :
  Forall (fun piece => ~ In c piece) (x :: l) ->
  split (join [c] (x :: l)) [c] = x :: l.
Proof.
  unfold split. revert x. induction l as [| y l IH]; intros x Hall.
  - cbn [join]. rewrite <- (app_nil_r x) at 1. rewrite split1_run by (inversion Hall; assumption).
    cbn. rewrite app_nil_r, rev_involutive. reflexivity.
  - inversion Hall as [| ? ? Hx Hrest]; subst.
    change (join [c] (x :: y :: l)) with (x ++ [c] ++ join [c] (y :: l)).
    rewrite split1_run by exact Hx. cbn [app]. rewrite split1_cons, N.eqb_refl.
    rewrite app_nil_r, rev_involutive. f_equal. apply IH. exact Hrest.
Qed.

Lemma join_In (d : N) (sep : jsstring) (l : list jsstring) :
  In d (join sep l) -> In d sep \/ Exists (fun piece => In d piece) l.
Proof.
  induction l as [| x l IH]; [intros [] |].
  destruct l as [| y l].
  - cbn. intros H. right. constructor. exact H.
  - change (join sep (x :: y :: l)) with (x ++ sep ++ join sep (y :: l)).
    intros H. apply in_app_or in H as [H | H]; [right; constructor; exact H |].
    apply in_app_or in H as [H | H]; [left; exact H |].
    destruct (IH H) as [Hs | He]; [left; exact Hs | right; apply Exists_cons_tl; exact He].
Qed.

(** *** processSubtitleContent *)

Lemma keep_line_nonempty (ft : subtitle_type) (rt : bool) : keep_line ft rt [] = false.
Proof. destruct ft, rt; reflexivity. Qed.

(** The lines that are kept: trimmed pieces without a line feed. *)
Lemma kept_lines (ft : subtitle_type) (rt : bool) (content : jsstring) :
  Forall (fun z => trim z = z /\ ~ In 10%N z /\ keep_line ft rt z = true)
    (List.filter (keep_line ft rt) (map trim (split content [10%N]))).
Proof.
  pose proof (split1_pieces 10 content [] (fun H => H)) as Hp.
  unfold split. induction Hp as [| y l Hy _ IH]; cbn [map List.filter]; [constructor |].
  destruct (keep_line ft rt (trim y)) eqn:Hk; [| exact IH].
  constructor; [| exact IH]. split; [apply trim_idempotent |]. split; [| exact Hk].
  intros H. apply trim_In in H. contradiction.
Qed.

Lemma filter_all {A} (f : A -> bool) (l : list A) :
  Forall (fun x => f x = true) l -> List.filter f l = l.
Proof.
  induction 1 as [| x l Hx _ IH]; [reflexivity |]. cbn. rewrite Hx, IH. reflexivity.
Qed.

Lemma map_fixed {A} (f : A -> A) (l : list A) :
  Forall (fun x => f x = x) l -> map f l = l.
Proof.
  induction 1 as [| x l Hx _ IH]; [reflexivity |]. cbn. rewrite Hx, IH. reflexivity.
Qed.

(** X12: processSubtitleContent is idempotent: a subtitle text that has
    been processed comes back unchanged from a second pass with the same
    file type and the same choice for the timestamps. *)
Theorem processSubtitleContent_idempotent (content : jsstring) (ft : subtitle_type)
  (rt : bool) :
  processSubtitleContent (processSubtitleContent content ft rt) ft rt
  = processSubtitleContent content ft rt.
Proof.
  unfold processSubtitleContent at 2 3.
  pose proof (kept_lines ft rt content) as Hkept.
  destruct (List.filter (keep_line ft rt) (map trim (split content [10%N])))
    as [| x l] eqn:HL.
  - unfold processSubtitleContent. cbn [join]. cbn [split split_go rev map].
    change (trim []) with (@nil N). cbn [List.filter]. rewrite keep_line_nonempty.
    reflexivity.
  - unfold processSubtitleContent. rewrite split1_join.
    + rewrite map_fixed, filter_all; [reflexivity | |];
        eapply Forall_impl; try exact Hkept; cbn beta; tauto.
    + eapply Forall_impl; [exact Hkept |]. cbn beta. tauto.
Qed.

(** X13: the result of processSubtitleContent is made of lines none of
    which is empty or has white space at an end; when the timestamps are
    removed no line has an arrow in it or is a bare number, and in a VTT
    file no line starts with WEBVTT. *)
Theorem processSubtitleContent_lines (content : jsstring) (ft : subtitle_type) (rt : bool) :
  exists lines,
    processSubtitleContent content ft rt = join [10%N] lines
    /\ (lines = [] \/ split (processSubtitleContent content ft rt) [10%N] = lines)
    /\ Forall (fun z =>
                 z <> [] /\ trim z = z
                 /\ (rt = true ->
                     includes z (lit "-->") = false
                     /\ test false re_sequence_number z = false)
                 /\ (ft = vtt -> startsWith z (lit "WEBVTT") = false)) lines.
Proof.
  exists (List.filter (keep_line ft rt) (map trim (split content [10%N]))).
  pose proof (kept_lines ft rt content) as Hkept.
  split; [reflexivity |]. split.
  - unfold processSubtitleContent.
    destruct (List.filter (keep_line ft rt) (map trim (split content [10%N])))
      as [| x l]; [left; reflexivity | right].
    apply split1_join. eapply Forall_impl; [exact Hkept |]. cbn beta. tauto.
  - eapply Forall_impl; [exact Hkept |]. cbn beta. intros z (Htrim & _ & Hk).
    split; [intros ->; rewrite keep_line_nonempty in Hk; discriminate |].
    split; [exact Htrim |]. split.
    + intros ->. destruct ft; cbn in Hk;
        repeat (apply andb_true_iff in Hk as [Hk ?]);
        split; apply negb_true_iff; assumption.
    + intros ->. destruct rt; cbn in Hk;
        repeat (apply andb_true_iff in Hk as [Hk ?]);
        apply negb_true_iff; assumption.
Qed.

(** X14: the text made of a CSV file has no double quote and no comma in
    it: the fields are unquoted and the commas become bars. *)
Theorem csv_to_text_no_quote_no_comma (csvText : jsstring) :
  ~ In 34%N (csv_to_text csvText) /\ ~ In 44%N (csv_to_text csvText).
Proof.
  assert (Hfield : forall field, ~ In 34%N (List.filter (fun c => negb (c =? 34)%N) (trim field))).
  { intros field H. apply filter_In in H as [_ H]. rewrite N.eqb_refl in H. discriminate. }
  assert (Hline : forall line,
             ~ In 34%N (join (lit " | ")
                          (map (fun field => List.filter (fun c => negb (c =? 34)%N) (trim field))
                             (split line [44%N])))
             /\ ~ In 44%N (join (lit " | ")
                             (map (fun field => List.filter (fun c => negb (c =? 34)%N) (trim field))
                                (split line [44%N])))).
  { intros line. split; intros H; apply join_In in H as [H | H].
    - vm_compute in H. intuition discriminate.
    - apply List.Exists_exists in H as [piece [Hin H]].
      apply in_map_iff in Hin as [field [<- _]]. exact (Hfield field H).
    - vm_compute in H. intuition discriminate.
    - apply List.Exists_exists in H as [piece [Hin H]].
      apply in_map_iff in Hin as [field [<- Hf]].
      apply filter_In in H as [H _]. apply trim_In in H.
      pose proof (split1_pieces 44 line [] (fun H => H)) as Hp.
      rewrite List.Forall_forall in Hp. exact (Hp field Hf H). }
  unfold csv_to_text. split; intros H; apply join_In in H as [H | H].
  - vm_compute in H. intuition discriminate.
  - apply List.Exists_exists in H as [piece [Hin H]].
    apply in_map_iff in Hin as [line [<- _]]. exact (proj1 (Hline line) H).
  - vm_compute in H. intuition discriminate.
  - apply List.Exists_exists in H as [piece [Hin H]].
    apply in_map_iff in Hin as [line [<- _]]. exact (proj2 (Hline line) H).
Qed.

End TextFacts.

(** ** The progress of processBulkDocuments *)

Section BulkProgress.
Import Rag.
Import RagRef.

Context {VS : Type}.
Variable C : collaborators VS.

Lemma ceil_div_step (n b : nat) : 0 < b -> b <= n -> ceil_div n b = S (ceil_div (n - b) b).
Proof.
  intros Hb Hn. unfold ceil_div.
  replace (n + b - 1) with ((n - b + b - 1) + 1 * b) by lia.
  rewrite Nat.div_add by lia. lia.
Qed.

Lemma ceil_div_small (n b : nat) : 0 < n -> n <= b -> ceil_div n b = 1.
Proof.
  intros Hn Hb. unfold ceil_div.
  replace (n + b - 1) with ((n - 1) + 1 * b) by lia.
  rewrite Nat.div_add by lia. rewrite Nat.div_small by lia. reflexivity.
Qed.

(** There are as many batches as total_batches says. *)
Lemma batches_length {A} (b : nat) (l : list A) :
  0 < b -> length (batches b l) = ceil_div (length l) b.
Proof.
  intros Hb. remember (length l) as n eqn:Hn.
  assert (Hle : length l <= n) by lia. rewrite Hn. clear Hn.
  revert l Hle. induction n as [| n IH]; intros [| x l] Hle; cbn [length] in Hle;
    try lia.
  - unfold ceil_div. cbn [length]. rewrite Nat.div_small by lia. reflexivity.
  - unfold ceil_div. cbn [length]. rewrite Nat.div_small by lia. reflexivity.
  - rewrite batches_cons by exact Hb. cbn [length].
    rewrite IH by (rewrite length_drop; cbn [length]; lia).
    rewrite length_drop. cbn [length].
    destruct (Nat.le_gt_cases b (S (length l))) as [Hge | Hlt].
    + rewrite (ceil_div_step (S (length l)) b) by lia. reflexivity.
    + rewrite (ceil_div_small (S (length l)) b) by lia.
      replace (S (length l) - b) with 0 by lia.
      unfold ceil_div. rewrite Nat.div_small by lia. reflexivity.
Qed.

(** The loop from the start of batch [k]: what it returns, stores and
    emits. *)
Lemma bulk_loop_progress (documents : list Document) (b : nat) :
  0 < b ->
  forall fuel k total w,
    length documents - k * b <= fuel ->
    bulk_loop C fuel documents b (k * b) total w
    = Some (fst (store_batches C (batches b (drop (k * b) documents)) total (store w)),
            mkWorld (snd (store_batches C (batches b (drop (k * b) documents)) total (store w)))
              (events w
               ++ batch_events C (batches b (drop (k * b) documents)) k
                    (ceil_div (length documents) b) total (store w))).
Proof.
  intros Hb. induction fuel as [| fuel IH]; intros k total w Hfuel.
  - cbn [bulk_loop]. destruct (Nat.ltb_spec (k * b) (length documents)) as [Hlt | Hge]; [lia |].
    rewrite drop_ge by lia. cbn. rewrite app_nil_r. destruct w; reflexivity.
  - cbn [bulk_loop]. destruct (Nat.ltb_spec (k * b) (length documents)) as [Hlt | Hge].
    + unfold slice. replace (k * b + b - k * b) with b by lia.
      rewrite rebuild_documents.
      destruct (drop (k * b) documents) as [| d rest] eqn:Hdrop.
      { apply (f_equal length) in Hdrop. rewrite length_drop in Hdrop.
        cbn [length] in Hdrop. lia. }
      rewrite batches_cons by exact Hb. cbn [store_batches batch_events].
      destruct (addDocuments C _ (store w)) as [[u | e] s'].
      * replace (k * b + b) with (S k * b) by lia.
        rewrite IH by lia. cbn [store emit events].
        rewrite Nat.div_mul by lia.
        replace (drop (S k * b) documents) with (drop b (d :: rest))
          by (rewrite <- Hdrop, drop_drop; f_equal; lia).
        rewrite <- app_assoc. reflexivity.
      * cbn. rewrite app_nil_r. reflexivity.
    + rewrite drop_ge by lia. cbn. rewrite app_nil_r. destruct w; reflexivity.
Qed.

(** The events of the batches are numbered from [k + 1] on, without a
    gap. *)
Lemma batch_events_numbered (bs : list (list Document)) (k tb total : nat) (s : VS)
  (j : nat) (ev : event) :
  batch_events C bs k tb total s !! j = Some ev ->
  exists chunks_processed, ev = BatchProgress (k + j + 1) tb chunks_processed.
Proof.
  revert k total s j. induction bs as [| batch bs IH]; intros k total s j; cbn [batch_events].
  - intros H. destruct j; discriminate.
  - destruct (addDocuments C _ s) as [[u | e] s']; [| destruct j; discriminate].
    destruct j as [| j]; cbn [lookup list_lookup].
    + intros [= <-]. eexists. rewrite Nat.add_0_r. reflexivity.
    + intros H. apply IH in H as [cp ->]. exists cp. f_equal. lia.
Qed.

(** When every batch is stored there is one event for each, and the last
    one carries the final count. *)
Lemma batch_events_complete (bs : list (list Document)) (k tb total n : nat) (s : VS) :
  fst (store_batches C bs total s) = Ret n ->
  length (batch_events C bs k tb total s) = length bs
  /\ (bs <> [] ->
      last (batch_events C bs k tb total s) = Some (BatchProgress (k + length bs) tb n)).
Proof.
  revert k total s. induction bs as [| batch bs IH]; intros k total s;
    cbn [store_batches batch_events].
  - intros _. split; [reflexivity | congruence].
  - destruct (addDocuments C _ s) as [[u | e] s']; [| discriminate].
    intros H. destruct (IH (S k) _ _ H) as [Hlen Hlast].
    split; [cbn [length]; rewrite Hlen; reflexivity |]. intros _.
    destruct bs as [| batch' bs].
    + cbn in H. injection H as <-. cbn. first [reflexivity | do 2 f_equal; lia].
    + rewrite last_cons. rewrite Hlast by discriminate.
      cbn [length]. do 2 f_equal. lia.
Qed.

(** When a batch is refused the events stop before it. *)
Lemma batch_events_partial (bs : list (list Document)) (k tb total : nat) (e : jsstring)
  (s : VS) :
  fst (store_batches C bs total s) = Throw e ->
  length (batch_events C bs k tb total s) < length bs.
Proof.
  revert k total s. induction bs as [| batch bs IH]; intros k total s;
    cbn [store_batches batch_events].
  - discriminate.
  - destruct (addDocuments C _ s) as [[u | e'] s']; [| cbn; lia].
    intros H. apply (IH (S k)) in H. cbn [length]. lia.
Qed.

(** X15: with a positive batch size processBulkDocuments emits one progress
    event for each batch it stores, numbered from 1 without a gap, each
    with the true number of batches as total_batches; when it returns there
    are exactly that many events and the last one carries chunksAdded. *)
Theorem processBulkDocuments_progress (BULK_EMBED_BATCH : option nat)
  (documents : list Document) (w : world VS) :
  0 < embed_batch_size BULK_EMBED_BATCH ->
  exists r w' first progress final,
    processBulkDocuments C (length documents) BULK_EMBED_BATCH documents w = Some (r, w')
    /\ events w' = events w ++ LogInfo first :: progress ++ [final]
    /\ (forall j ev, progress !! j = Some ev ->
          exists chunks_processed,
            ev = BatchProgress (j + 1)
                   (length (batches (embed_batch_size BULK_EMBED_BATCH) documents))
                   chunks_processed)
    /\ match r with
       | Ret chunksAdded =>
           length progress = length (batches (embed_batch_size BULK_EMBED_BATCH) documents)
           /\ (documents <> [] ->
               last progress
               = Some (BatchProgress (length progress) (length progress) chunksAdded))
           /\ exists message, final = LogInfo message
       | Throw e =>
           length progress < length (batches (embed_batch_size BULK_EMBED_BATCH) documents)
           /\ final = LogError (lit "Error in bulk document processing: " ++ e)
       end.
Proof.
  intros Hb. unfold processBulkDocuments.
  set (b := embed_batch_size BULK_EMBED_BATCH) in *.
  pose proof (bulk_loop_progress documents b Hb (length documents) 0 0
                (emit (LogInfo (lit "Processing " ++ show_nat (length documents)
                                ++ lit " documents in bulk")) w)) as Hloop.
  cbn [Nat.mul store emit events] in Hloop. change (drop 0 documents) with documents in Hloop.
  rewrite Hloop by lia. clear Hloop.
  rewrite <- (batches_length b documents Hb).
  set (bs := batches b documents).
  set (progress := batch_events C bs 0 (length bs) 0 (store w)).
  assert (Hnum : forall j ev, progress !! j = Some ev ->
                   exists cp, ev = BatchProgress (j + 1) (length bs) cp).
  { intros j ev H. apply batch_events_numbered in H. exact H. }
  destruct (store_batches C bs 0 (store w)) as [[n | e] s'] eqn:Hrun; cbn [fst snd].
  - eexists. eexists.
    exists (lit "Processing " ++ show_nat (length documents) ++ lit " documents in bulk"),
      progress. eexists.
    split; [reflexivity |]. cbn [emit events].
    split; [rewrite <- !app_assoc; reflexivity |]. split; [exact Hnum |].
    pose proof (batch_events_complete bs 0 (length bs) 0 n (store w)) as Hc.
    rewrite Hrun in Hc. destruct (Hc eq_refl) as [Hlen Hlast].
    split; [exact Hlen |]. split; [| eexists; reflexivity].
    intros Hdocs. fold progress in Hlen, Hlast. rewrite Hlen. apply Hlast.
    subst bs. destruct documents; [congruence |]. rewrite batches_cons by exact Hb.
    discriminate.
  - eexists. eexists.
    exists (lit "Processing " ++ show_nat (length documents) ++ lit " documents in bulk"),
      progress. eexists.
    split; [reflexivity |]. cbn [emit events].
    split; [rewrite <- !app_assoc; reflexivity |]. split; [exact Hnum |].
    split; [| reflexivity].
    apply (batch_events_partial bs 0 (length bs) 0 e (store w)).
    rewrite Hrun. reflexivity.
Qed.

End BulkProgress.

Section BulkProgressExamples.
Import Rag.

Lemma processBulkDocuments_progress_witness :
  exists r w' first progress final,
    processBulkDocuments demo 5 (Some 2) [doc "a"; doc "b"; doc "c"; doc "d"; doc "e"] w0
    = Some (r, w')
    /\ events w' = events w0 ++ LogInfo first :: progress ++ [final]
    /\ length progress = 3.
Proof.
  destruct (processBulkDocuments_progress demo (Some 2)
              [doc "a"; doc "b"; doc "c"; doc "d"; doc "e"] w0)
    as (r & w' & first & progress & final & Hrun & Hev & _ & Hres).
  - cbn. lia.
  - exists r, w', first, progress, final. split; [exact Hrun |]. split; [exact Hev |].
    assert (Hr : r = Ret 5) by (vm_compute in Hrun; congruence).
    subst r. destruct Hres as [Hlen _]. rewrite Hlen. reflexivity.
Defined.

End BulkProgressExamples.

(** ** listDocuments and deleteDocument *)

Section DocumentsFacts.
Import Rag.
Import SourceName.
Import Documents.
Import DocumentsRef.

(** The safety limit bounds the loop: from a state with no more than twice
    [totalVectors] points, as many calls as points are missing to exceed
    that number are enough. *)
Lemma scroll_loop_returns (client : DocClient) (name : jsstring) (totalVectors : nat) :
  forall fuel offset allPoints,
    length allPoints <= totalVectors * 2 ->
    totalVectors * 2 + 1 - length allPoints <= fuel ->
    exists r, scroll_loop fuel client name totalVectors offset allPoints = Some r.
Proof.
  induction fuel as [| fuel IH]; intros offset allPoints Hlen Hfuel; [lia |].
  cbn [scroll_loop]. destruct (scroll_page client name 1000 offset) as [batch | e];
    [| eexists; reflexivity].
  destruct (page_points batch) as [[| p ps] |]; try (eexists; reflexivity).
  destruct (next_page_offset batch) as [[| o] |]; try (eexists; reflexivity).
  destruct (Nat.ltb_spec (totalVectors * 2) (length (allPoints ++ p :: ps))) as [Hbig | Hsmall];
    [eexists; reflexivity |].
  apply IH; [exact Hsmall |]. rewrite length_app in *. cbn [length] in *. lia.
Qed.

(** X16: the listing always ends, whatever the service answers: with
    twice the number of vectors plus one calls of scroll at most,
    listDocuments returns or throws. *)
Theorem listDocuments_returns (client : DocClient) (name : jsstring) (fuel : nat) :
  (forall info, collection_info client name = Ret info ->
                default 0 (Stats.vectors_count info) * 2 + 1 <= fuel) ->
  exists r, listDocuments fuel client name = Some r.
Proof.
  intros Hfuel. unfold listDocuments.
  destruct (match list_collections client with
            | Ret collections =>
                negb (existsb (fun n => str_eqb n name) collections)
            | Throw _ => false
            end); [eexists; reflexivity |].
  destruct (collection_info client name) as [info | e] eqn:Hinfo; [| eexists; reflexivity].
  destruct (Nat.eqb (default 0 (Stats.vectors_count info)) 0); [eexists; reflexivity |].
  destruct (scroll_loop_returns client name (default 0 (Stats.vectors_count info))
              fuel None []) as [r Hr].
  - cbn. lia.
  - cbn [length]. specialize (Hfuel info eq_refl). lia.
  - rewrite Hr. destruct r; eexists; reflexivity.
Qed.

End DocumentsFacts.

Section DocumentsExamples.
Import Rag.
Import Documents.

(** Against a service that offers a next page for ever, of a collection
    that reports 3 vectors, the listing stops at 7 points. *)
Lemma listDocuments_returns_witness :
  exists r, listDocuments 7 (endless (stored_from 1 "a.pdf") 3) (lit "pulmo") = Some r.
Proof.
  apply (listDocuments_returns (endless (stored_from 1 "a.pdf") 3) (lit "pulmo") 7).
  intros info [= <-]. cbn. lia.
Defined.

Example listDocuments_endless :
  listDocuments 7 (endless (stored_from 1 "a.pdf") 3) (lit "pulmo")
  = Some (Ret (mkListing [mkDoc (SourceName.RStr (lit "a.pdf")) (SourceName.RStr (lit "a.pdf"))
                            7 (lit "Unknown")] 7)).
Proof. vm_compute. reflexivity. Qed.

End DocumentsExamples.

(** ** The grouping loop of listDocuments *)

Section GroupingFacts.
Import Rag.
Import SourceName.
Import Documents.
Import DocumentsRef.

Lemma has_source_In (k : source_res) (ds : list document) :
  has_source k ds = true <-> In k (map doc_source ds).
Proof.
  unfold has_source. rewrite existsb_exists, in_map_iff. split.
  - intros [d [Hd Hk]]. apply bool_decide_eq_true_1 in Hk. exists d. split; assumption.
  - intros [d [Hk Hd]]. exists d. split; [assumption |]. apply bool_decide_eq_true_2. exact Hk.
Qed.

Lemma has_source_not_In (k : source_res) (ds : list document) :
  has_source k ds = false <-> ~ In k (map doc_source ds).
Proof.
  rewrite <- has_source_In. destruct (has_source k ds); split; congruence.
Qed.

Lemma bump_sources (k : source_res) (ds : list document) :
  map doc_source (bump k ds) = map doc_source ds.
Proof.
  induction ds as [| d ds IH]; [reflexivity |]. cbn [bump].
  destruct (bool_decide (doc_source d = k)); cbn [map doc_source]; [reflexivity |].
  rewrite IH. reflexivity.
Qed.

Lemma bump_absent (k : source_res) (ds : list document) (d : document) :
  has_source k ds = false -> bump k (ds ++ [d]) = ds ++ bump k [d].
Proof.
  induction ds as [| d0 ds IH]; intros Hk; [reflexivity |].
  unfold has_source in Hk. cbn [existsb] in Hk. apply orb_false_iff in Hk as [Hd0 Hds].
  cbn [app bump]. rewrite Hd0. rewrite (IH Hds). reflexivity.
Qed.

(** With distinct keys, [bump] adds one to the entry of the key and leaves
    the others. *)
Lemma bump_In (k : source_res) (ds : list document) (d' : document) :
  NoDup (map doc_source ds) -> In d' (bump k ds) ->
  exists d, In d ds /\ doc_source d' = doc_source d /\
            chunks d' = chunks d + (if bool_decide (doc_source d = k) then 1 else 0).
Proof.
  induction ds as [| d ds IH]; intros Hnd Hin; [destruct Hin |].
  cbn [map] in Hnd. apply NoDup_cons in Hnd as [Hd Hnd].
  cbn [bump] in Hin. destruct (bool_decide (doc_source d = k)) eqn:Hk.
  - destruct Hin as [<- | Hin].
    + exists d. split; [left; reflexivity |]. rewrite Hk. cbn [doc_source chunks].
      split; [reflexivity | lia].
    + exists d'. split; [right; exact Hin |]. split; [reflexivity |].
      apply bool_decide_eq_true_1 in Hk.
      rewrite bool_decide_eq_false_2; [lia |].
      intros Heq. apply Hd. rewrite Hk, <- Heq.
      apply list_elem_of_In, in_map. exact Hin.
  - destruct Hin as [<- | Hin].
    + exists d. split; [left; reflexivity |]. rewrite Hk. split; [reflexivity | lia].
    + destruct (IH Hnd Hin) as [d0 [H0 H1]]. exists d0. split; [right; exact H0 | exact H1].
Qed.

Lemma bump_sum (k : source_res) (ds : list document) :
  has_source k ds = true ->
  list_sum (map chunks (bump k ds)) = S (list_sum (map chunks ds)).
Proof.
  induction ds as [| d ds IH]; intros Hk; [discriminate |].
  unfold has_source in Hk. cbn [existsb] in Hk. cbn [bump].
  destruct (bool_decide (doc_source d = k)); cbn [orb] in Hk.
  - cbn [map chunks]. unfold list_sum. cbn [fold_right]. lia.
  - cbn [map]. unfold list_sum in *. cbn [fold_right]. rewrite (IH Hk). lia.
Qed.

Lemma count_key_snoc (k : source_res) (seen : list stored_point) (p : stored_point) :
  count_key k (seen ++ [p]) = count_key k seen + (if counts_for k p then 1 else 0).
Proof.
  unfold count_key. rewrite List.filter_app, length_app. cbn [List.filter].
  destruct (counts_for k p); reflexivity.
Qed.

Lemma group_step_grouped (ds : list document) (seen : list stored_point) (p : stored_point) :
  grouped ds seen -> grouped (group_step ds p) (seen ++ [p]).
Proof.
  intros (Hnd & Hch & Hk & Hsum). unfold group_step.
  destruct (meta_of p) as [md |] eqn:Hmd.
  - fold (key_of md). set (k0 := key_of md).
    assert (Hcf : forall k, counts_for k p = bool_decide (k0 = k)).
    { intros k. unfold counts_for. rewrite Hmd. reflexivity. }
    assert (Hmeta : length (List.filter (fun q => bool_decide (meta_of q <> None)) (seen ++ [p]))
                    = S (length (List.filter (fun q => bool_decide (meta_of q <> None)) seen))).
    { rewrite List.filter_app, length_app. cbn [List.filter].
      rewrite bool_decide_eq_true_2 by (rewrite Hmd; discriminate). cbn [length]. lia. }
    destruct (has_source k0 ds) eqn:Hhas.
    + (* the key is in the map *)
      repeat split.
      * rewrite bump_sources. exact Hnd.
      * intros d' Hd'. destruct (bump_In k0 ds d' Hnd Hd') as [d [Hd [Hsrc Hc]]].
        rewrite count_key_snoc, Hcf, Hsrc, Hc, (Hch d Hd).
        destruct (decide (doc_source d = k0)) as [He | Hne].
        -- rewrite !bool_decide_eq_true_2 by congruence. reflexivity.
        -- rewrite !bool_decide_eq_false_2 by congruence. reflexivity.
      * rewrite bump_sources. intros Hin. apply Hk in Hin. rewrite count_key_snoc. lia.
      * rewrite bump_sources. rewrite count_key_snoc, Hcf. intros Hpos.
        destruct (decide (k0 = k)) as [<- | Hne].
        -- apply has_source_In. exact Hhas.
        -- rewrite bool_decide_eq_false_2 in Hpos by exact Hne. apply Hk. lia.
      * rewrite (bump_sum k0 ds Hhas), Hsum, Hmeta. reflexivity.
    + (* a new key *)
      rewrite (bump_absent k0 ds _ Hhas). cbn [bump doc_source doc_title lastUpdated chunks].
      rewrite bool_decide_eq_true_2 by reflexivity.
      pose proof (proj1 (has_source_not_In k0 ds) Hhas) as Hnew.
      assert (Hzero : count_key k0 seen = 0).
      { destruct (count_key k0 seen) eqn:Hc; [reflexivity |].
        exfalso. apply Hnew, Hk. lia. }
      repeat split.
      * rewrite map_app. cbn [map doc_source]. apply NoDup_app. split; [exact Hnd |]. split.
        -- intros x Hx Hx'. apply list_elem_of_In in Hx. apply list_elem_of_In in Hx'.
           destruct Hx' as [<- | []]. exact (Hnew Hx).
        -- apply NoDup_singleton.
      * intros d' Hd'. apply in_app_iff in Hd' as [Hd' | [<- | []]].
        -- rewrite count_key_snoc, Hcf, (Hch d' Hd').
           rewrite bool_decide_eq_false_2; [lia |].
           intros He. apply Hnew. rewrite He. apply in_map. exact Hd'.
        -- cbn [doc_source chunks]. rewrite count_key_snoc, Hcf, Hzero.
           rewrite bool_decide_eq_true_2 by reflexivity. reflexivity.
      * rewrite map_app, in_app_iff. cbn [map doc_source In]. rewrite count_key_snoc, Hcf.
        intros [Hin | [<- | []]].
        -- apply Hk in Hin. lia.
        -- rewrite bool_decide_eq_true_2 by reflexivity. lia.
      * rewrite map_app, in_app_iff. cbn [map doc_source In]. rewrite count_key_snoc, Hcf.
        intros Hpos. destruct (decide (k0 = k)) as [<- | Hne].
        -- right. left. reflexivity.
        -- rewrite bool_decide_eq_false_2 in Hpos by exact Hne. left. apply Hk. lia.
      * rewrite map_app. cbn [map chunks]. unfold list_sum in *.
        rewrite fold_right_app. cbn [fold_right].
        rewrite Hmeta, <- Hsum.
        clear. induction ds as [| d ds IH]; cbn [map fold_right]; [reflexivity |].
        rewrite IH. lia.
  - (* a point without metadata *)
    assert (Hcf : forall k, counts_for k p = false).
    { intros k. unfold counts_for. rewrite Hmd. reflexivity. }
    repeat split.
    + exact Hnd.
    + intros d Hd. rewrite count_key_snoc, Hcf, (Hch d Hd). lia.
    + intros Hin. rewrite count_key_snoc, Hcf. apply Hk in Hin. lia.
    + rewrite count_key_snoc, Hcf. intros Hpos. apply Hk. lia.
    + rewrite List.filter_app, length_app. cbn [List.filter].
      rewrite bool_decide_eq_false_2 by (rewrite Hmd; intros H; apply H; reflexivity).
      cbn [length]. rewrite Hsum. lia.
Qed.

Lemma foldl_grouped (pts : list stored_point) :
  forall ds seen, grouped ds seen -> grouped (foldl group_step ds pts) (seen ++ pts).
Proof.
  induction pts as [| p pts IH]; intros ds seen H.
  - rewrite app_nil_r. exact H.
  - cbn [foldl]. replace (seen ++ p :: pts) with ((seen ++ [p]) ++ pts)
      by (rewrite <- app_assoc; reflexivity).
    apply IH, group_step_grouped, H.
Qed.

Lemma grouped_nil : grouped [] [].
Proof.
  repeat split.
  - apply NoDup_nil_2.
  - intros d [].
  - intros [].
  - cbn. lia.
Qed.

Lemma group_points_grouped (pts : list stored_point) : grouped (group_points pts) pts.
Proof. exact (foldl_grouped pts [] [] grouped_nil). Qed.

(** X17: the documents that listDocuments builds from the points: no two
    have the same source; a source is listed when and only when a point
    with metadata has it as its cleaned source (the name Unknown standing
    for a missing or empty one); each document's chunks is the number of
    those points, at least one; and the chunks add up to the number of
    points with metadata. *)
Theorem group_points_counts (pts : list stored_point) :
  NoDup (map doc_source (group_points pts))
  /\ (forall d, In d (group_points pts) ->
        chunks d = count_key (doc_source d) pts /\ 1 <= chunks d)
  /\ (forall k, In k (map doc_source (group_points pts)) <->
        exists p md, In p pts /\ meta_of p = Some md /\ key_of md = k)
  /\ list_sum (map chunks (group_points pts))
     = length (List.filter (fun p => bool_decide (meta_of p <> None)) pts).
Proof.
  destruct (group_points_grouped pts) as (Hnd & Hch & Hk & Hsum).
  split; [exact Hnd |]. split; [| split; [| exact Hsum]].
  - intros d Hd. split; [exact (Hch d Hd) |].
    rewrite (Hch d Hd). apply Hk, in_map, Hd.
  - intros k. rewrite Hk. unfold count_key. split.
    + intros Hpos. destruct (List.filter (counts_for k) pts) as [| p l] eqn:Hf;
        [cbn in Hpos; lia |].
      assert (Hp : In p (List.filter (counts_for k) pts)) by (rewrite Hf; left; reflexivity).
      apply List.filter_In in Hp as [Hp Hc]. unfold counts_for in Hc.
      destruct (meta_of p) as [md |] eqn:Hmd; [| discriminate].
      exists p, md. split; [exact Hp |]. split; [exact Hmd |].
      apply bool_decide_eq_true_1 in Hc. exact Hc.
    + intros [p [md [Hp [Hmd Hkey]]]].
      assert (Hin : In p (List.filter (counts_for k) pts)).
      { apply List.filter_In. split; [exact Hp |]. unfold counts_for. rewrite Hmd.
        apply bool_decide_eq_true_2. exact Hkey. }
      destruct (List.filter (counts_for k) pts); [destruct Hin | cbn; lia].
Qed.

End GroupingFacts.

(** ** listDocuments over a paginated collection *)

Section PagedFacts.
Import Rag.
Import SourceName.
Import Documents.
Import DocumentsRef.

Lemma paged_scroll (name : jsstring) (pts : list stored_point) (limit : nat) (offset : option nat) :
  scroll_page (paged name pts) name limit offset
  = Ret (mkPage (Some (take limit (drop (default 0 offset) pts)))
           (if Nat.ltb (default 0 offset + limit) (length pts)
            then Some (default 0 offset + limit) else None)).
Proof. reflexivity. Qed.

(** From the position [start] on, with the points before it collected, the
    loop collects the rest. *)
Lemma scroll_loop_paged (name : jsstring) (pts : list stored_point) :
  forall fuel start offset,
    default 0 offset = start ->
    start < length pts ->
    length pts - start <= fuel ->
    scroll_loop fuel (paged name pts) name (length pts) offset (take start pts)
    = Some (Ret pts).
Proof.
  induction fuel as [| fuel IH]; intros start offset Hoff Hstart Hfuel; [lia |].
  cbn [scroll_loop]. rewrite paged_scroll, Hoff. cbn [page_points next_page_offset].
  remember 1000 as K eqn:HK.
  assert (HK0 : 0 < K) by (subst K; apply Nat.lt_0_succ). clear HK.
  destruct (take K (drop start pts)) as [| p ps] eqn:Ht.
  - apply (f_equal length) in Ht. rewrite length_take, length_drop in Ht.
    cbn [length] in Ht. lia.
  - rewrite <- Ht, take_take_drop.
    destruct (Nat.ltb_spec (start + K) (length pts)) as [Hmore | Hlast].
    + destruct (start + K) as [| o] eqn:Ho; [lia |].
      destruct (Nat.ltb_spec (length pts * 2) (length (take (S o) pts))) as [Hbig | _].
      * rewrite length_take in Hbig. lia.
      * apply IH; [reflexivity | exact Hmore | lia].
    + rewrite take_ge by lia. destruct (start + K) as [| o]; reflexivity.
Qed.

(** X18: over a collection that is served page by page, listDocuments
    reads every point, whatever the number of pages: its documents are
    those of all the points and totalChunks is their number. *)
Theorem listDocuments_paged (name : jsstring) (pts : list stored_point) :
  listDocuments (length pts) (paged name pts) name
  = Some (Ret (mkListing (group_points pts) (length pts))).
Proof.
  unfold listDocuments.
  change (list_collections (paged name pts)) with (Ret (A := list jsstring) [name]).
  cbn [existsb]. rewrite str_eqb_refl. cbn [orb negb].
  change (collection_info (paged name pts) name) with (Ret (Stats.mkInfo (Some (length pts)))).
  cbn [Stats.vectors_count default from_option id].
  destruct pts as [| p pts]; [reflexivity |].
  cbn [length Nat.eqb].
  change (@nil stored_point) with (take 0 (p :: pts)).
  change (S (length pts)) with (length (p :: pts)).
  rewrite (scroll_loop_paged name (p :: pts) (length (p :: pts)) 0 None eq_refl);
    [reflexivity | cbn [length]; lia | lia].
Qed.

(** X19: whatever the service answers, a listing has no two documents of
    the same source, no document without a chunk, and never more chunks in
    its documents, nor more documents, than its totalChunks. *)
Theorem listDocuments_consistent (fuel : nat) (client : DocClient) (name : jsstring)
  (l : listing) :
  listDocuments fuel client name = Some (Ret l) ->
  NoDup (map doc_source (documents l))
  /\ Forall (fun d => 1 <= chunks d) (documents l)
  /\ list_sum (map chunks (documents l)) <= totalChunks l
  /\ length (documents l) <= list_sum (map chunks (documents l)).
Proof.
  assert (Hempty : NoDup (map doc_source (documents empty_listing))
                   /\ Forall (fun d => 1 <= chunks d) (documents empty_listing)
                   /\ list_sum (map chunks (documents empty_listing)) <= totalChunks empty_listing
                   /\ length (documents empty_listing)
                      <= list_sum (map chunks (documents empty_listing))).
  { cbn. repeat split; [apply NoDup_nil_2 | apply Forall_nil_2 | lia | lia]. }
  unfold listDocuments.
  destruct (match list_collections client with
            | Ret collections =>
                negb (existsb (fun n => str_eqb n name) collections)
            | Throw _ => false
            end); [intros [= <-]; exact Hempty |].
  destruct (Nat.eqb _ 0); [intros [= <-]; exact Hempty |].
  destruct (scroll_loop _ _ _ _ _ _) as [[allPoints | e] |]; [| | discriminate].
  - intros [= <-]. cbn [documents totalChunks].
    destruct (group_points_grouped allPoints) as (Hnd & Hch & Hk & Hsum).
    assert (Hone : Forall (fun d => 1 <= chunks d) (group_points allPoints)).
    { apply List.Forall_forall. intros d Hd. rewrite (Hch d Hd). apply Hk, in_map, Hd. }
    split; [exact Hnd |]. split; [exact Hone |]. split.
    + rewrite Hsum. apply List.filter_length_le.
    + clear -Hone. induction Hone as [| d ds Hd _ IH]; [cbn; lia |].
      cbn [map length]. unfold list_sum in *. cbn [fold_right]. lia.
  - unfold list_catch. destruct (_ || _); [intros [= <-]; exact Hempty | discriminate].
Qed.

End PagedFacts.

Section PagedExamples.
Import Rag.
Import Documents.

Lemma listDocuments_consistent_witness :
  let l := mkListing [mkDoc (SourceName.RStr (lit "a.pdf")) (SourceName.RStr (lit "a.pdf"))
                        7 (lit "Unknown")] 7 in
  NoDup (map doc_source (documents l))
  /\ Forall (fun d => 1 <= chunks d) (documents l)
  /\ list_sum (map chunks (documents l)) <= totalChunks l
  /\ length (documents l) <= list_sum (map chunks (documents l)).
Proof.
  apply (listDocuments_consistent 7 (endless (stored_from 1 "a.pdf") 3) (lit "pulmo")).
  vm_compute. reflexivity.
Defined.

End PagedExamples.

(** ** deleteDocument *)

Section MatchFacts.
Import Documents.

Lemma strip_slash_snoc (t : jsstring) : strip_slash (t ++ [47%N]) = t.
Proof.
  unfold strip_slash. rewrite rev_unit. cbn [N.eqb Pos.eqb]. apply rev_involutive.
Qed.

Lemma strip_slash_cases (s : jsstring) :
  (exists t, s = t ++ [47%N] /\ strip_slash s = t) \/ strip_slash s = s.
Proof.
  unfold strip_slash. destruct (rev s) as [| c r] eqn:Hr; [right; reflexivity |].
  destruct (N.eqb_spec c 47) as [-> | Hc]; [| right; reflexivity].
  left. exists (rev r). split; [| reflexivity].
  rewrite <- (rev_involutive s), Hr. reflexivity.
Qed.

(** X20: the flexible match of deleteDocument is equality up to one slash
    at the end of either side, and nothing more. *)
Theorem source_matches_iff (storedSource normalizedSource : jsstring) :
  source_matches storedSource normalizedSource = true <->
  storedSource = normalizedSource
  \/ storedSource = normalizedSource ++ [47%N]
  \/ normalizedSource = storedSource ++ [47%N].
Proof.
  unfold source_matches, JS.str_eqb. rewrite !orb_true_iff, !bool_decide_eq_true. split.
  - destruct (strip_slash_cases storedSource) as [[a [Ha ->]] | ->];
      destruct (strip_slash_cases normalizedSource) as [[b [Hb ->]] | ->];
      subst; intros [[[H | H] | H] | H]; subst; auto.
  - intros [-> | [-> | ->]].
    + left. left. left. reflexivity.
    + right. apply strip_slash_snoc.
    + left. right. symmetry. apply strip_slash_snoc.
Qed.

End MatchFacts.

Section DeleteFacts.
Import Rag.
Import Documents.
Import DocumentsRef.

Variable decodeURIComponent : jsstring -> res jsstring.
Variable toLowerCase : jsstring -> jsstring.
Context {DS : Type}.
Variable delete_points : jsstring -> list nat -> DS -> res unit * DS.

Abbreviation normalize := (normalize decodeURIComponent toLowerCase).
Abbreviation pointsToDelete := (pointsToDelete decodeURIComponent toLowerCase).
Abbreviation selected := (selected decodeURIComponent toLowerCase).
Abbreviation deleteDocument := (deleteDocument decodeURIComponent toLowerCase delete_points).

Lemma pointsToDelete_selected (norm : jsstring) (pts : list stored_point) :
  forall ids, pointsToDelete norm pts = Ret ids ->
              ids = map sp_id (List.filter (selected norm) pts).
Proof.
  induction pts as [| p pts IH]; intros ids H.
  - injection H as <-. reflexivity.
  - cbn [Documents.pointsToDelete] in H. cbn [List.filter]. unfold DocumentsRef.selected at 1.
    destruct (stored_source p) as [raw |]; [| exact (IH ids H)].
    destruct (normalize raw) as [storedSource | e]; [| discriminate].
    destruct (pointsToDelete norm pts) as [ids0 | e]; [| discriminate].
    injection H as <-. rewrite (IH ids0 eq_refl).
    destruct (source_matches storedSource norm); reflexivity.
Qed.

Lemma pointsToDelete_throws (norm : jsstring) (pts : list stored_point)
  (p : stored_point) (raw e : jsstring) :
  In p pts -> stored_source p = Some raw -> decodeURIComponent raw = Throw e ->
  exists e', pointsToDelete norm pts = Throw e'.
Proof.
  intros Hin Hsrc Hdec. induction pts as [| q pts IH]; [destruct Hin |].
  cbn [Documents.pointsToDelete]. destruct Hin as [-> | Hin].
  - rewrite Hsrc. unfold Documents.normalize. rewrite Hdec. eexists; reflexivity.
  - destruct (IH Hin) as [e' He']. rewrite He'.
    destruct (stored_source q) as [raw' |]; [| eexists; reflexivity].
    destruct (normalize raw'); eexists; reflexivity.
Qed.

(** X21: a deleteDocument that succeeds has passed to [client.delete], in
    one call, the ids of exactly the points whose decoded, lower-cased
    source matches the decoded, lower-cased argument, in the order of the
    collection; there is at least one, and deletedChunks is their
    number. *)
Theorem deleteDocument_deletes_selected (fuel : nat) (client : DocClient)
  (name source : jsstring) (st st' : DS) (d : deleted) :
  deleteDocument fuel client name source st = Some (Ret d, st') ->
  exists totalVectors allPoints norm,
    collection_info client name = Ret (Stats.mkInfo (Some totalVectors))
    /\ scroll_loop fuel client name totalVectors None [] = Some (Ret allPoints)
    /\ normalize source = Ret norm
    /\ map sp_id (List.filter (selected norm) allPoints) <> []
    /\ delete_points name (map sp_id (List.filter (selected norm) allPoints)) st
       = (Ret tt, st')
    /\ d = mkDeleted (length (List.filter (selected norm) allPoints)) source.
Proof.
  unfold Documents.deleteDocument.
  destruct (collection_info client name) as [[[tv |]] | e] eqn:Hinfo;
    cbn [Stats.vectors_count default from_option id Nat.eqb]; try discriminate.
  destruct (Nat.eqb tv 0); [discriminate |].
  destruct (scroll_loop fuel client name tv None []) as [[allPoints | e] |] eqn:Hloop;
    try discriminate.
  destruct allPoints as [| p0 pts0]; [discriminate |].
  destruct (normalize source) as [norm | e] eqn:Hnorm; [| discriminate].
  destruct (pointsToDelete norm (p0 :: pts0)) as [ids | e] eqn:Hids; [| discriminate].
  pose proof (pointsToDelete_selected norm (p0 :: pts0) ids Hids) as Hsel.
  destruct ids as [| i ids]; [discriminate |].
  destruct (delete_points name (i :: ids) st) as [[[] | e] st1] eqn:Hdel; [| discriminate].
  intros [= <- <-]. exists tv, (p0 :: pts0), norm.
  rewrite <- Hsel. split; [reflexivity |]. split; [exact Hloop |]. split; [reflexivity |].
  split; [discriminate |]. split; [exact Hdel |].
  f_equal. rewrite <- (length_map sp_id), <- Hsel. reflexivity.
Qed.

(** X22: a deleteDocument that fails has either left the collection as it
    was or failed inside its one call of [client.delete], made with a list
    of ids that is not empty. *)
Theorem deleteDocument_failure (fuel : nat) (client : DocClient)
  (name source : jsstring) (st st' : DS) (e : jsstring) :
  deleteDocument fuel client name source st = Some (Throw e, st') ->
  st' = st
  \/ exists ids, ids <> [] /\ delete_points name ids st = (Throw e, st').
Proof.
  unfold Documents.deleteDocument.
  destruct (Nat.eqb _ 0); [intros [= _ <-]; left; reflexivity |].
  destruct (scroll_loop _ _ _ _ _ _) as [[allPoints | e0] |];
    [| intros [= _ <-]; left; reflexivity | discriminate].
  destruct allPoints as [| p0 pts0]; [intros [= _ <-]; left; reflexivity |].
  destruct (normalize source) as [norm | e0]; [| intros [= _ <-]; left; reflexivity].
  destruct (pointsToDelete norm (p0 :: pts0)) as [ids | e0];
    [| intros [= _ <-]; left; reflexivity].
  destruct ids as [| i ids]; [intros [= _ <-]; left; reflexivity |].
  destruct (delete_points name (i :: ids) st) as [[[] | e0] st1] eqn:Hdel; [discriminate |].
  intros [= <- <-]. right. exists (i :: ids). split; [discriminate | exact Hdel].
Qed.

(** X23: one stored source that decodeURIComponent rejects blocks every
    deletion: when the collection read holds such a point, deleteDocument
    throws for every argument, and deletes nothing. *)
Theorem deleteDocument_undecodable_source (fuel : nat) (client : DocClient)
  (name source : jsstring) (st : DS) (totalVectors : nat)
  (allPoints : list stored_point) (p : stored_point) (raw e : jsstring) :
  collection_info client name = Ret (Stats.mkInfo (Some (S totalVectors))) ->
  scroll_loop fuel client name (S totalVectors) None [] = Some (Ret allPoints) ->
  In p allPoints -> stored_source p = Some raw -> decodeURIComponent raw = Throw e ->
  exists e', deleteDocument fuel client name source st = Some (Throw e', st).
Proof.
  intros Hinfo Hloop Hin Hsrc Hdec. unfold Documents.deleteDocument.
  rewrite Hinfo. cbn [Stats.vectors_count default from_option id Nat.eqb]. rewrite Hloop.
  destruct allPoints as [| p0 pts0]; [destruct Hin |].
  destruct (normalize source) as [norm | e0]; [| eexists; reflexivity].
  destruct (pointsToDelete_throws norm (p0 :: pts0) p raw e Hin Hsrc Hdec) as [e' He'].
  rewrite He'. eexists; reflexivity.
Qed.

End DeleteFacts.

(** ** deleteDocument over a paginated collection *)

Section DeletePaged.
Import Rag.
Import Documents.
Import DocumentsRef.

Variable decodeURIComponent : jsstring -> res jsstring.
Variable toLowerCase : jsstring -> jsstring.

Abbreviation normalize := (normalize decodeURIComponent toLowerCase).
Abbreviation pointsToDelete := (pointsToDelete decodeURIComponent toLowerCase).
Abbreviation selected := (selected decodeURIComponent toLowerCase).
Abbreviation deleteDocument :=
  (deleteDocument decodeURIComponent toLowerCase delete_listed).

Lemma pointsToDelete_filter (norm : jsstring) (keep : stored_point -> bool)
  (pts : list stored_point) (ids : list nat) :
  pointsToDelete norm pts = Ret ids ->
  exists ids', pointsToDelete norm (List.filter keep pts) = Ret ids'.
Proof.
  revert ids. induction pts as [| p pts IH]; intros ids H; [eexists; reflexivity |].
  cbn [Documents.pointsToDelete] in H.
  assert (Hrest : exists ids0, pointsToDelete norm pts = Ret ids0).
  { destruct (stored_source p); [| eexists; exact H].
    destruct (normalize _); [| discriminate].
    destruct (pointsToDelete norm pts); [eexists; reflexivity | discriminate]. }
  destruct Hrest as [ids0 Hrest]. destruct (IH ids0 Hrest) as [ids' Hids'].
  cbn [List.filter]. destruct (keep p); [| exists ids'; exact Hids'].
  cbn [Documents.pointsToDelete]. rewrite Hids'.
  destruct (stored_source p); [| eexists; reflexivity].
  destruct (normalize _); [eexists; reflexivity | discriminate].
Qed.

Lemma deleteDocument_paged (name source : jsstring) (p : stored_point)
  (pts : list stored_point) :
  deleteDocument (length (p :: pts)) (paged name (p :: pts)) name source (p :: pts)
  = match normalize source with
    | Throw e => Some (Throw e, p :: pts)
    | Ret norm =>
        match pointsToDelete norm (p :: pts) with
        | Throw e => Some (Throw e, p :: pts)
        | Ret [] => Some (Throw (msg_no_source source), p :: pts)
        | Ret (i :: ids) =>
            Some (Ret (mkDeleted (length (i :: ids)) source),
                  snd (delete_listed name (i :: ids) (p :: pts)))
        end
    end.
Proof.
  unfold Documents.deleteDocument.
  change (collection_info (paged name (p :: pts)) name)
    with (Ret (Stats.mkInfo (Some (length (p :: pts))))).
  cbn [Stats.vectors_count default from_option id].
  change (Nat.eqb (length (p :: pts)) 0) with false. cbn iota.
  change (@nil stored_point) with (take 0 (p :: pts)) at 1.
  rewrite (scroll_loop_paged name (p :: pts) (length (p :: pts)) 0 None eq_refl);
    [| cbn [length]; lia | lia].
  destruct (normalize source) as [norm | e]; [| reflexivity].
  destruct (pointsToDelete norm (p :: pts)) as [[| i ids] | e]; reflexivity.
Qed.

(** X24: over a collection served page by page, whose [delete] removes the
    points of the listed ids, a deleteDocument that succeeds leaves no
    point that matches its argument, keeps every point whose id was not
    selected, and a second deleteDocument of the same argument throws:
    "No documents found in database" when nothing is left, and "No
    documents found with source: ..." otherwise. *)
Theorem deleteDocument_then_again (name source : jsstring) (st st' : list stored_point)
  (d : deleted) :
  deleteDocument (length st) (paged name st) name source st = Some (Ret d, st') ->
  exists norm,
    normalize source = Ret norm
    /\ (forall q, In q st' -> In q st /\ selected norm q = false)
    /\ (forall q, In q st ->
          ~ In (sp_id q) (map sp_id (List.filter (selected norm) st)) -> In q st')
    /\ deleteDocument (length st') (paged name st') name source st'
       = Some (Throw (if bool_decide (st' = []) then msg_no_documents
                      else msg_no_source source), st').
Proof.
  destruct st as [| p pts]; [discriminate |].
  rewrite deleteDocument_paged.
  destruct (normalize source) as [norm | e] eqn:Hnorm; [| discriminate].
  destruct (pointsToDelete norm (p :: pts)) as [[| i ids] | e] eqn:Hids; try discriminate.
  set (keep := fun q : stored_point => negb (existsb (Nat.eqb (sp_id q)) (i :: ids))).
  change (snd (delete_listed name (i :: ids) (p :: pts))) with (List.filter keep (p :: pts)).
  intros H. assert (Hst : st' = List.filter keep (p :: pts)) by congruence.
  clear H. subst st'. exists norm. split; [reflexivity |].
  pose proof (pointsToDelete_selected decodeURIComponent toLowerCase norm (p :: pts) _ Hids)
    as Hsel.
  assert (Hkeep : forall q, keep q = true <-> ~ In (sp_id q) (i :: ids)).
  { intros q. unfold keep. rewrite negb_true_iff, <- not_true_iff_false, existsb_exists.
    split; intros H Hin; apply H.
    - exists (sp_id q). split; [exact Hin | apply Nat.eqb_refl].
    - destruct Hin as [j [Hj Hq]]. apply Nat.eqb_eq in Hq. subst j. exact Hj. }
  assert (Hgone : forall q, In q (List.filter keep (p :: pts)) ->
                            In q (p :: pts) /\ selected norm q = false).
  { intros q Hq. apply List.filter_In in Hq as [Hq Hk]. split; [exact Hq |].
    destruct (selected norm q) eqn:Hs; [| reflexivity].
    exfalso. apply (proj1 (Hkeep q) Hk). rewrite Hsel. apply in_map.
    apply List.filter_In. split; assumption. }
  split; [exact Hgone |]. split.
  - intros q Hq Hid. apply List.filter_In. split; [exact Hq |].
    apply Hkeep. rewrite Hsel. exact Hid.
  - destruct (List.filter keep (p :: pts)) as [| q qs] eqn:Hst'; [reflexivity |].
    rewrite bool_decide_eq_false_2 by discriminate.
    rewrite deleteDocument_paged, Hnorm.
    destruct (pointsToDelete_filter norm keep (p :: pts) _ Hids) as [ids' Hids'].
    rewrite Hst' in Hids'. rewrite Hids'.
    pose proof (pointsToDelete_selected decodeURIComponent toLowerCase norm (q :: qs) _ Hids')
      as Hsel'.
    assert (Hnone : List.filter (selected norm) (q :: qs) = []).
    { destruct (List.filter (selected norm) (q :: qs)) as [| r rs] eqn:Hf; [reflexivity |].
      assert (Hr : In r (List.filter (selected norm) (q :: qs))) by (rewrite Hf; left; reflexivity).
      apply List.filter_In in Hr as [Hr Hs].
      destruct (Hgone r Hr) as [_ Hns]. congruence. }
    rewrite Hnone in Hsel'. subst ids'. reflexivity.
Qed.

End DeletePaged.

Section DeleteExamples.
Import Rag.
Import Documents.
Import DocumentsRef.

Lemma deleteDocument_deletes_selected_witness :
  exists totalVectors allPoints norm,
    collection_info (paged (lit "pulmo") shelf) (lit "pulmo")
    = Ret (Stats.mkInfo (Some totalVectors))
    /\ scroll_loop 3 (paged (lit "pulmo") shelf) (lit "pulmo") totalVectors None []
       = Some (Ret allPoints)
    /\ normalize decode_plain lower_ascii (lit "a.pdf") = Ret norm
    /\ map sp_id (List.filter (selected decode_plain lower_ascii norm) allPoints) <> []
    /\ delete_listed (lit "pulmo")
         (map sp_id (List.filter (selected decode_plain lower_ascii norm) allPoints)) shelf
       = (Ret tt, [stored_from 1 "notes.txt"])
    /\ mkDeleted 2 (lit "a.pdf")
       = mkDeleted (length (List.filter (selected decode_plain lower_ascii norm) allPoints))
           (lit "a.pdf").
Proof.
  apply (deleteDocument_deletes_selected decode_plain lower_ascii delete_listed
           3 (paged (lit "pulmo") shelf) (lit "pulmo") (lit "a.pdf") shelf).
  vm_compute. reflexivity.
Defined.

Lemma deleteDocument_failure_witness :
  shelf = shelf
  \/ exists ids, ids <> []
       /\ delete_listed (lit "pulmo") ids shelf
          = (Throw (msg_no_source (lit "b.pdf")), shelf).
Proof.
  apply (deleteDocument_failure decode_plain lower_ascii delete_listed
           3 (paged (lit "pulmo") shelf) (lit "pulmo") (lit "b.pdf")).
  vm_compute. reflexivity.
Defined.

Lemma deleteDocument_undecodable_source_witness :
  exists e', deleteDocument decode_plain lower_ascii delete_listed
               4 (paged (lit "pulmo") shelf_percent) (lit "pulmo") (lit "notes.txt")
               shelf_percent
             = Some (Throw e', shelf_percent).
Proof.
  apply (deleteDocument_undecodable_source decode_plain lower_ascii delete_listed
           4 (paged (lit "pulmo") shelf_percent) (lit "pulmo") (lit "notes.txt")
           shelf_percent 3 shelf_percent (stored_from 4 "100%.pdf") (lit "100%.pdf")
           (lit "URI malformed")).
  - reflexivity.
  - vm_compute. reflexivity.
  - vm_compute. right. right. right. left. reflexivity.
  - reflexivity.
  - reflexivity.
Defined.

Lemma deleteDocument_then_again_witness :
  exists norm,
    normalize decode_plain lower_ascii (lit "a.pdf") = Ret norm
    /\ (forall q, In q [stored_from 1 "notes.txt"] ->
          In q shelf /\ selected decode_plain lower_ascii norm q = false)
    /\ (forall q, In q shelf ->
          ~ In (sp_id q)
              (map sp_id (List.filter (selected decode_plain lower_ascii norm) shelf)) ->
          In q [stored_from 1 "notes.txt"])
    /\ deleteDocument decode_plain lower_ascii delete_listed
         (length [stored_from 1 "notes.txt"])
         (paged (lit "pulmo") [stored_from 1 "notes.txt"]) (lit "pulmo") (lit "a.pdf")
         [stored_from 1 "notes.txt"]
       = Some (Throw (if bool_decide ([stored_from 1 "notes.txt"] = [])
                      then msg_no_documents else msg_no_source (lit "a.pdf")),
               [stored_from 1 "notes.txt"]).
Proof.
  apply (deleteDocument_then_again decode_plain lower_ascii (lit "pulmo") (lit "a.pdf")
           shelf [stored_from 1 "notes.txt"] (mkDeleted 2 (lit "a.pdf"))).
  vm_compute. reflexivity.
Defined.

End DeleteExamples.

(** ** getCollectionStats beside listDocuments *)

Section StatsMore.
Import Rag.
Import SourceName.
Import Documents.
Import DocumentsRef.

(** X25: getCollectionStats throws in two cases only: when [scroll]
    throws, and when the collection reports more than 1000 vectors and
    the answer of [scroll] has no points; a failure of getCollections or
    of getCollection is returned as a result and never thrown. *)
Theorem getCollectionStats_throws (client : Stats.QdrantClient) (name e : jsstring) :
  Stats.getCollectionStats client name = Throw e <->
  exists collections totalVectors,
    Stats.getCollections client = Ret collections
    /\ existsb (fun n => str_eqb n name) collections = true
    /\ Stats.getCollection client name = Ret (Stats.mkInfo (Some (S totalVectors)))
    /\ (Stats.scroll client name (Nat.min 1000 (S totalVectors)) = Throw e
        \/ (1000 < S totalVectors
            /\ Stats.scroll client name (Nat.min 1000 (S totalVectors))
               = Ret (Stats.mkScroll None)
            /\ e = Stats.type_error)).
Proof.
  unfold Stats.getCollectionStats. remember 1000 as K eqn:HK. split.
  - destruct (Stats.getCollections client) as [collections | e0]; [| discriminate].
    destruct (existsb (fun n => str_eqb n name) collections) eqn:Hex;
      cbn [negb]; [| discriminate].
    destruct (Stats.getCollection client name) as [[[[| tv] |]] | e0];
      cbn [Stats.vectors_count default from_option id Nat.eqb]; try discriminate.
    destruct (Stats.scroll client name (Nat.min K (S tv))) as [[pts] | e0] eqn:Hscroll.
    + destruct (Nat.ltb_spec K (S tv)) as [Hbig | Hsmall]; [| discriminate].
      cbn [Stats.points]. destruct pts as [pts |]; [discriminate |].
      intros [= <-]. exists collections, tv.
      split; [reflexivity |]. split; [exact Hex |]. split; [reflexivity |].
      right. split; [exact Hbig |]. split; [exact Hscroll | reflexivity].
    + intros [= <-]. exists collections, tv.
      split; [reflexivity |]. split; [exact Hex |]. split; [reflexivity |].
      left. exact Hscroll.
  - intros (collections & tv & -> & -> & -> & H). cbn [negb].
    cbn [Stats.vectors_count default from_option id Nat.eqb].
    destruct H as [-> | (Hbig & -> & ->)]; [reflexivity |].
    cbn [Stats.points]. destruct (Nat.ltb_spec K (S tv)) as [_ | Hsmall]; [reflexivity | lia].
Qed.

Lemma count_key_positive (k : source_res) (pts : list stored_point) :
  0 < count_key k pts -> exists p md, In p pts /\ meta_of p = Some md /\ key_of md = k.
Proof.
  unfold count_key. intros Hpos.
  destruct (List.filter (counts_for k) pts) as [| p l] eqn:Hf; [cbn in Hpos; lia |].
  assert (Hp : In p (List.filter (counts_for k) pts)) by (rewrite Hf; left; reflexivity).
  apply List.filter_In in Hp as [Hp Hc]. unfold counts_for in Hc.
  destruct (meta_of p) as [md |] eqn:Hmd; [| discriminate].
  exists p, md. split; [exact Hp |]. split; [exact Hmd |].
  apply bool_decide_eq_true_1 in Hc. exact Hc.
Qed.

(** X26: the two views of a collection: listDocuments, which groups the
    points by their cleaned source, never finds more documents than
    getCollectionStats finds different sources in the same points, plus
    the one document Unknown. *)
Theorem documents_at_most_sources (pts : list stored_point) :
  length (group_points pts) <= size (Stats.uniqueSources_of (map to_point pts)) + 1.
Proof.
  rewrite uniqueSources_size. unfold Stats.distinct_sources.
  destruct (group_points_grouped pts) as (Hnd & _ & Hk & _).
  set (f := fun raw : jsstring => cleanSourceName (SStr raw)).
  set (raws := lit "Unknown" :: remove_dups (Stats.sources_of (map to_point pts))).
  replace (length (group_points pts)) with (length (map doc_source (group_points pts)))
    by apply length_map.
  replace (length (remove_dups (Stats.sources_of (map to_point pts))) + 1)
    with (length (map f raws)) by (rewrite length_map; unfold raws; cbn [length]; lia).
  apply List.NoDup_incl_length; [apply NoDup_ListNoDup; exact Hnd |].
  intros k Hin. apply Hk, count_key_positive in Hin as (p & md & Hp & Hmd & <-).
  unfold key_of. fold (f (or_else (source md) (lit "Unknown"))). apply in_map.
  unfold raws. destruct (source md) as [[| c s] |] eqn:Hsrc;
    cbn [or_else]; try (left; reflexivity).
  right. apply list_elem_of_In, elem_of_remove_dups. unfold Stats.sources_of.
  apply list_elem_of_omap. exists (to_point p). split.
  - apply list_elem_of_In, in_map, Hp.
  - unfold Stats.source_of, to_point. cbn [Stats.point_payload].
    unfold meta_of in Hmd. destruct (sp_payload p) as [pl |]; [| discriminate].
    rewrite Hmd, Hsrc. reflexivity.
Qed.

End StatsMore.

(** ** The Qdrant Cloud connection *)

Section CloudFacts.
Import Rag.
Import Cloud.

Variable new_store : endpoint -> res unit.
Variable getCollections : endpoint -> res unit.
Variable env : environment.

Lemma constructor_coherent : coherent env (constructor env).
Proof. unfold coherent, constructor. cbn. auto. Qed.

Lemma run_call_coherent (c : call) (s : service) :
  coherent env s -> coherent env (run_call new_store getCollections env c s).
Proof.
  intros Hs. destruct c as [url apiKey name |]; cbn [run_call].
  - unfold connectToQdrantCloud.
    destruct (new_store _); [| exact Hs]. destruct (getCollections _); [| exact Hs].
    unfold coherent. cbn. auto.
  - unfold disconnectFromQdrantCloud. destruct (new_store _); [| exact Hs].
    unfold coherent. cbn. auto.
Qed.

Lemma foldl_coherent (calls : list call) :
  forall s, coherent env s ->
            coherent env (foldl (fun s c => run_call new_store getCollections env c s) s calls).
Proof.
  induction calls as [| c calls IH]; intros s Hs; [exact Hs |].
  cbn [foldl]. apply IH, run_call_coherent, Hs.
Qed.

(** X27: whatever calls of connectToQdrantCloud and
    disconnectFromQdrantCloud were made, and whichever of them failed,
    the fields of the service agree: the store is built for the collection
    in use; with a cloud configuration the service reports the cloud and
    its store is the one of that configuration; without one it reports
    the local store of the environment; and getQdrantCloudStatus shows a
    configuration exactly when it shows the cloud in use. *)
Theorem connection_coherent (calls : list call) :
  let s := run_calls new_store getCollections env calls in
  coherent env s
  /\ (status_isUsingCloud (getQdrantCloudStatus s) = true
      <-> status_config (getQdrantCloudStatus s) <> None).
Proof.
  intros s.
  assert (Hs : coherent env s) by (apply foldl_coherent, constructor_coherent).
  split; [exact Hs |]. destruct Hs as [_ Hs]. unfold getQdrantCloudStatus.
  cbn [status_isUsingCloud status_config].
  destruct (cloudConfig s) as [c |]; destruct Hs as [-> _]; split; congruence.
Qed.

(** X28: a disconnection that succeeds undoes every connection: whatever
    calls were made before it, the service has the fields it was
    constructed with. *)
Theorem disconnect_restores_construction (calls : list call) :
  new_store (mkEndpoint (QDRANT_URL env) None (env_collection env)) = Ret tt ->
  run_calls new_store getCollections env (calls ++ [Disconnect]) = constructor env.
Proof.
  intros Hlocal. unfold run_calls. rewrite foldl_app. cbn [foldl run_call].
  unfold disconnectFromQdrantCloud. rewrite Hlocal. reflexivity.
Qed.

End CloudFacts.

Section CloudExamples.
Import Rag.
Import Cloud.

(** A connection, a refused connection and a disconnection. *)
Lemma disconnect_restores_construction_witness :
  run_calls (reject_url (lit "https://down.example")) accept
    (mkEnv (Some (lit "http://localhost:6333")) None)
    ([Connect (lit "https://cloud.example") (lit "key") (Some (lit "pulmo"));
      Connect (lit "https://down.example") (lit "key") None] ++ [Disconnect])
  = constructor (mkEnv (Some (lit "http://localhost:6333")) None).
Proof.
  apply (disconnect_restores_construction (reject_url (lit "https://down.example")) accept
           (mkEnv (Some (lit "http://localhost:6333")) None)).
  vm_compute. reflexivity.
Defined.

(** After the refused connection the service still uses the first one. *)
Example refused_connection_keeps_cloud :
  getQdrantCloudStatus
    (run_calls (reject_url (lit "https://down.example")) accept
       (mkEnv (Some (lit "http://localhost:6333")) None)
       [Connect (lit "https://cloud.example") (lit "key") (Some (lit "pulmo"));
        Connect (lit "https://down.example") (lit "key") None])
  = mkStatus true (Some (lit "https://cloud.example", lit "pulmo")).
Proof. vm_compute. reflexivity. Qed.

End CloudExamples.

(** ** What listDocuments throws *)

Section ListingErrors.
Import Rag.
Import Documents.
Import DocumentsRef.

(** X29: listDocuments throws only what [scroll] threw, and never a "Not
    Found" nor a message that holds 404: for those, and when
    getCollections or getCollection fail, it returns a listing. *)
Theorem listDocuments_throws (fuel : nat) (client : DocClient) (name e : jsstring) :
  listDocuments fuel client name = Some (Throw e) ->
  str_eqb e (lit "Not Found") = false
  /\ includes e (lit "404") = false
  /\ exists totalVectors,
       collection_info client name = Ret (Stats.mkInfo (Some (S totalVectors)))
       /\ scroll_loop fuel client name (S totalVectors) None [] = Some (Throw e).
Proof.
  unfold listDocuments.
  destruct (match list_collections client with
            | Ret collections =>
                negb (existsb (fun n => str_eqb n name) collections)
            | Throw _ => false
            end); [discriminate |].
  destruct (collection_info client name) as [[[[| tv] |]] | e0];
    cbn [Stats.vectors_count default from_option id Nat.eqb]; try discriminate.
  destruct (scroll_loop fuel client name (S tv) None []) as [[allPoints | e0] |] eqn:Hloop;
    try discriminate.
  unfold list_catch.
  destruct (str_eqb e0 (lit "Not Found")) eqn:Hnf; cbn [orb]; [discriminate |].
  destruct (includes e0 (lit "404")) eqn:H404; [discriminate |].
  intros [= <-]. split; [exact Hnf |]. split; [exact H404 |].
  exists tv. split; [reflexivity | exact Hloop].
Qed.

End ListingErrors.

Section ListingErrorsExamples.
Import Rag.
Import Documents.
Import DocumentsRef.

Lemma listDocuments_throws_witness :
  str_eqb (lit "ETIMEDOUT") (lit "Not Found") = false
  /\ includes (lit "ETIMEDOUT") (lit "404") = false
  /\ exists totalVectors,
       collection_info (failing (lit "ETIMEDOUT") 3) (lit "pulmo")
       = Ret (Stats.mkInfo (Some (S totalVectors)))
       /\ scroll_loop 1 (failing (lit "ETIMEDOUT") 3) (lit "pulmo") (S totalVectors) None []
          = Some (Throw (lit "ETIMEDOUT")).
Proof.
  apply (listDocuments_throws 1 (failing (lit "ETIMEDOUT") 3) (lit "pulmo") (lit "ETIMEDOUT")).
  vm_compute. reflexivity.
Defined.

(** The same failure with a 404 in its message is a listing without
    documents. *)
Example listDocuments_404 :
  listDocuments 1 (failing (lit "Request failed with status code 404") 3) (lit "pulmo")
  = Some (Ret empty_listing).
Proof. vm_compute. reflexivity. Qed.

End ListingErrorsExamples.
